(** * wiki-scripts: cache persistence, interwiki grabber and mirror checks

    A shallow embedding of four pieces of the repository:
    - [ws/cache/__init__.py]: [md5sum], [CacheDb.load], [CacheDb.dump];
    - [ws/cache/AllUsersProps.py]: [_find_changed_users],
      [_find_active_users], [_update_recent_edit_counts];
    - [ws/db/grabbers/interwiki.py]: [GrabberInterwiki];
    - [grab.py]: [_check_entries], [_check_lists],
      [_check_lists_of_unordered_pages], [_squash_list_of_dicts],
      [_deduplicate_list_of_dicts], and of the checks themselves
      [check_recentchanges], the timestamp snapping of
      [check_protected_titles] and the loop of [check_categorylinks]
      over the categories.

    Definitions come first, one module per source file; the theorems
    follow, grouped the same way. *)

From Stdlib Require Import ZArith List String Ascii.
From Stdlib.Strings Require Import Byte.
From stdpp Require Import base option list gmap strings fin_maps pretty.
From stdpp Require Import sorting.

Local Open Scope Z_scope.
Set Warnings "-register-all".

(** ** Python values and exceptions shared by the modules *)

(** [bytes] objects. *)
Abbreviation bytes := (list byte).

Definition bytes_of_string (s : string) : bytes := list_byte_of_string s.

(** The exceptions the modelled code raises or lets through.
    [AssertionError msg] carries the message of the [assert], if it has
    one; [RaisedFrom e cause] is [raise e from cause]. *)
Inductive exn :=
  | AssertionError (msg : option string)
  | RaisedFrom (e cause : exn)
  | KeyError (key : string)
  | ValueError
  | TypeError
  | AttributeError
  | OSError
  | EOFError
  | ZlibError             (* zlib.error *)
  | NotImplementedError
  | CacheDbError          (* ws.cache.CacheDbError *)
  | IntegrityError        (* sqlalchemy.exc.IntegrityError *)
  | StatementError.       (* sqlalchemy.exc.StatementError *)

(** The outcome of a call: a value, or a raised exception. *)
Inductive result (A : Type) :=
  | Ok (a : A)
  | Raise (e : exn).
Arguments Ok {A} a.
Arguments Raise {A} e.

Global Instance result_ret : MRet result := @Ok.

Global Instance result_bind : MBind result := fun A B k r =>
  match r with
  | Ok a => k a
  | Raise e => Raise e
  end.

(** Python objects as they occur in API results and database rows: a
    [datetime] is held as its offset in microseconds, a [dict] as its
    items in insertion order. *)
Inductive pyval :=
  | PNone
  | PBool (b : bool)
  | PInt (n : Z)
  | PStr (s : string)
  | PDatetime (us : Z)
  | PList (l : list pyval)
  | PDict (items : list (string * pyval)).

Abbreviation pydict := (list (string * pyval)).

(** [d.get(k)]: [None] when the key is absent. *)
Fixpoint dict_get (k : string) (d : pydict) : option pyval :=
  match d with
  | [] => None
  | (k', v) :: rest => if String.eqb k' k then Some v else dict_get k rest
  end.

(** [d[k] = v]: an existing key keeps its place, a new one goes last. *)
Fixpoint dict_set (k : string) (v : pyval) (d : pydict) : pydict :=
  match d with
  | [] => [(k, v)]
  | (k', v') :: rest =>
      if String.eqb k' k then (k, v) :: rest else (k', v') :: dict_set k v rest
  end.

(** [a == b]: a [bool] equals the [int] of its value, and two [dict]s are
    equal when they hold equal values under the same keys, in any order. *)
Fixpoint py_eqb (a b : pyval) {struct a} : bool :=
  match a, b with
  | PNone, PNone => true
  | PBool x, PBool y => Bool.eqb x y
  | PBool x, PInt n | PInt n, PBool x => n =? (if x then 1 else 0)
  | PInt n, PInt m => n =? m
  | PStr s, PStr t => String.eqb s t
  | PDatetime s, PDatetime t => s =? t
  | PList l, PList m =>
      (fix list_eqb (l m : list pyval) {struct l} : bool :=
         match l, m with
         | [], [] => true
         | x :: l', y :: m' => py_eqb x y && list_eqb l' m'
         | _, _ => false
         end) l m
  | PDict d, PDict e =>
      (length d =? length e)%nat &&
      (fix items_eqb (d : pydict) {struct d} : bool :=
         match d with
         | [] => true
         | (k, v) :: d' =>
             match dict_get k e with
             | Some v' => py_eqb v v' && items_eqb d'
             | None => false
             end
         end) d
  | _, _ => false
  end.

(** ** hashlib.md5 (RFC 1321), on 32-bit words held in [Z] *)

Module Md5.

Definition w32 (x : Z) : Z := x mod 2 ^ 32.

Definition add32 (x y : Z) : Z := w32 (x + y).

Definition not32 (x : Z) : Z := Z.lxor x 0xffffffff.

Definition rotl32 (x n : Z) : Z :=
  Z.lor (w32 (Z.shiftl x n)) (Z.shiftr x (32 - n)).

(** Per-round shift amounts. *)
Definition shifts : list Z :=
  [ 7; 12; 17; 22; 7; 12; 17; 22; 7; 12; 17; 22; 7; 12; 17; 22;
    5; 9; 14; 20; 5; 9; 14; 20; 5; 9; 14; 20; 5; 9; 14; 20;
    4; 11; 16; 23; 4; 11; 16; 23; 4; 11; 16; 23; 4; 11; 16; 23;
    6; 10; 15; 21; 6; 10; 15; 21; 6; 10; 15; 21; 6; 10; 15; 21 ].

(** [floor (2^32 * abs (sin (i + 1)))] for [i] in 0..63. *)
Definition sines : list Z :=
  [ 0xd76aa478; 0xe8c7b756; 0x242070db; 0xc1bdceee; 0xf57c0faf; 0x4787c62a; 0xa8304613; 0xfd469501;
    0x698098d8; 0x8b44f7af; 0xffff5bb1; 0x895cd7be; 0x6b901122; 0xfd987193; 0xa679438e; 0x49b40821;
    0xf61e2562; 0xc040b340; 0x265e5a51; 0xe9b6c7aa; 0xd62f105d; 0x02441453; 0xd8a1e681; 0xe7d3fbc8;
    0x21e1cde6; 0xc33707d6; 0xf4d50d87; 0x455a14ed; 0xa9e3e905; 0xfcefa3f8; 0x676f02d9; 0x8d2a4c8a;
    0xfffa3942; 0x8771f681; 0x6d9d6122; 0xfde5380c; 0xa4beea44; 0x4bdecfa9; 0xf6bb4b60; 0xbebfbc70;
    0x289b7ec6; 0xeaa127fa; 0xd4ef3085; 0x04881d05; 0xd9d4d039; 0xe6db99e5; 0x1fa27cf8; 0xc4ac5665;
    0xf4292244; 0x432aff97; 0xab9423a7; 0xfc93a039; 0x655b59c3; 0x8f0ccc92; 0xffeff47d; 0x85845dd1;
    0x6fa87e4f; 0xfe2ce6e0; 0xa3014314; 0x4e0811a1; 0xf7537e82; 0xbd3af235; 0x2ad7d2bb; 0xeb86d391 ].

Record regs := Regs { rA : Z; rB : Z; rC : Z; rD : Z }.

Definition init_regs : regs :=
  Regs 0x67452301 0xefcdab89 0x98badcfe 0x10325476.

(** Little-endian 32-bit word of four bytes, and back. *)
Definition word_of_bytes (b0 b1 b2 b3 : Z) : Z :=
  Z.lor b0 (Z.lor (Z.shiftl b1 8) (Z.lor (Z.shiftl b2 16) (Z.shiftl b3 24))).

Fixpoint le_bytes (n : nat) (x : Z) : list Z :=
  match n with
  | O => []
  | S n' => Z.land x 0xff :: le_bytes n' (Z.shiftr x 8)
  end.

Fixpoint words_of (l : list Z) : list Z :=
  match l with
  | b0 :: b1 :: b2 :: b3 :: rest => word_of_bytes b0 b1 b2 b3 :: words_of rest
  | _ => []
  end.

(** The padded message: a [0x80] byte, zeros up to 56 modulo 64, then the
    bit length on 64 bits, little-endian. *)
Definition pad (msg : list Z) : list Z :=
  let len := Z.of_nat (length msg) in
  let zeros := Z.to_nat ((55 - len) mod 64) in
  msg ++ 0x80 :: repeat 0 zeros ++ le_bytes 8 (w32 (8 * len) + 2 ^ 32 * w32 (Z.shiftr (8 * len) 32)).

Definition round_fn (i : Z) (b c d : Z) : Z * Z :=
  if i <? 16 then (Z.lor (Z.land b c) (Z.land (not32 b) d), i)
  else if i <? 32 then (Z.lor (Z.land d b) (Z.land (not32 d) c), (5 * i + 1) mod 16)
  else if i <? 48 then (Z.lxor b (Z.lxor c d), (3 * i + 5) mod 16)
  else (Z.lxor c (Z.lor b (not32 d)), (7 * i) mod 16).

Definition step (m : list Z) (r : regs) (i : nat) : regs :=
  let '(f, g) := round_fn (Z.of_nat i) (rB r) (rC r) (rD r) in
  let f' := add32 (add32 (add32 f (rA r)) (nth i sines 0)) (nth (Z.to_nat g) m 0) in
  Regs (rD r) (add32 (rB r) (rotl32 f' (nth i shifts 0))) (rB r) (rC r).

Definition process_chunk (h : regs) (m : list Z) : regs :=
  let r := fold_left (step m) (seq 0 64) h in
  Regs (add32 (rA h) (rA r)) (add32 (rB h) (rB r))
       (add32 (rC h) (rC r)) (add32 (rD h) (rD r)).

Fixpoint chunks (n : nat) (ws : list Z) : list (list Z) :=
  match n with
  | O => []
  | S n' =>
      match ws with
      | [] => []
      | _ => firstn 16 ws :: chunks n' (skipn 16 ws)
      end
  end.

Definition digest (msg : list Z) : list Z :=
  let ws := words_of (pad msg) in
  let h := fold_left process_chunk (chunks (length ws) ws) init_regs in
  le_bytes 4 (rA h) ++ le_bytes 4 (rB h) ++ le_bytes 4 (rC h) ++ le_bytes 4 (rD h).

Definition hex_digit (x : Z) : ascii :=
  ascii_of_nat (Z.to_nat (if x <? 10 then 48 + x else 87 + x)).

Fixpoint hex_of (l : list Z) : string :=
  match l with
  | [] => EmptyString
  | b :: rest =>
      String (hex_digit (Z.shiftr b 4)) (String (hex_digit (Z.land b 0xf)) (hex_of rest))
  end.

Definition hexdigest (msg : bytes) : string :=
  hex_of (digest (map (fun b => Z.of_N (Byte.to_N b)) msg)).

End Md5.

(** [md5sum] of [ws/cache/__init__.py]: the hex digest of the bytes. *)
Definition md5sum (bytes_ : bytes) : string := Md5.hexdigest bytes_.

(** ** ws/cache/__init__.py *)

Module Cache.

(** The functions of Python's library and of [ws.utils] that [CacheDb]
    calls on its way to and from the disk. They are not part of
    [ws/cache/__init__.py] and are left open here; [None] stands for the
    exception the call raises. *)
Class Serialization := {
  (** [datetime.datetime] *)
  datetime : Type;
  (** [t.strftime(ts_format)] *)
  strftime : datetime -> string;
  (** [datetime.datetime.strptime(s, ts_format)], or [ValueError] *)
  strptime : string -> option datetime;
  (** the values [self.data] can hold *)
  pydata : Type;
  (** [json.dumps(data, cls=DatetimeEncoder).encode("utf-8")], or
      [TypeError] *)
  json_dumps : pydata -> option bytes;
  (** [json.loads(s.decode("utf-8"), object_hook=datetime_parser)], or
      [ValueError] *)
  json_loads : bytes -> option pydata;
  (** [parse_timestamps_in_struct(data)], which converts in place and
      returns nothing: the exception it raised, if it raised one, and
      the structure as the call left it *)
  parse_timestamps_in_struct : pydata -> option exn * pydata;
  (** [CacheDbError] is defined in [ws/cache/__init__.py], which imports
      [ws.utils] and not the other way round: the call does not raise
      it *)
  parse_timestamps_in_struct_raises :
    forall d, (parse_timestamps_in_struct d).1 <> Some CacheDbError;
}.

Section CacheDb.
Context `{Serialization}.

(** The values of the metadata file: JSON values. *)
Inductive jval :=
  | JNull
  | JBool (b : bool)
  | JInt (n : Z)
  | JStr (s : string)
  | JArr (l : list jval)
  | JObj (items : list (string * jval)).

(** The values of [self.meta]: those, and the [datetime] of the
    ["timestamp"] key. *)
Inductive mval :=
  | MJson (j : jval)
  | MTime (t : datetime).

Definition MStr (s : string) : mval := MJson (JStr s).

(** What [gzip] makes of the payload file when it reads it: the bytes
    of a complete stream - a file that holds nothing yet reads as no
    bytes -, or the error of a file it cannot read to the end. *)
Inductive gzip_error :=
  | NotGzipped     (* OSError: no gzip header, or a checksum that does not match *)
  | Truncated      (* EOFError: the file ends before the end of the stream *)
  | BadStream.     (* zlib.error: the compressed data cannot be inflated *)

Inductive gzfile :=
  | GzStream (s : bytes)
  | GzBroken (why : gzip_error).

(** The metadata file, by what [json.loads] makes of its text. Of the
    arrays, those of two-element arrays with a text first are covered,
    the empty array among them. *)
Inductive metafile :=
  | JsonObject (m : gmap string jval)        (* an object *)
  | JsonPairs (l : list (string * jval))     (* an array of pairs [k, v] *)
  | JsonString (s : string)                  (* a string *)
  | JsonScalar                               (* a number, true, false or null *)
  | NotJson.                                 (* no JSON text, as in an empty file *)

(** The two files of a database; [None] where [os.path.isfile] is false. *)
Record disk := Disk {
  dbpath : option gzfile;
  metapath : option metafile;
}.

(** The attributes [meta] and [data] of a [CacheDb]. [meta] is an
    attribute of the class: the objects of a process share the one
    dictionary, and an object is given here with what that dictionary
    holds when the call is made. *)
Record cachedb := CacheDb {
  meta : gmap string mval;
  data : pydata;
}.

Definition set_meta (self : cachedb) (m : gmap string mval) : cachedb :=
  CacheDb m (data self).

(** [gzip.open(self.dbpath, mode="rb").read()] *)
Definition gzip_read (f : gzfile) : result bytes :=
  match f with
  | GzStream s => Ok s
  | GzBroken NotGzipped => Raise OSError
  | GzBroken Truncated => Raise EOFError
  | GzBroken BadStream => Raise ZlibError
  end.

(** Line 84 of [load], [self.meta.update(json.loads(meta.read()))]. An
    object is merged into the dictionary; an array is gone through as a
    sequence of key and value; a string as a sequence of its characters,
    none of which is a pair; anything else is not iterable. *)
Definition meta_update (f : metafile) (m : gmap string mval) : result (gmap string mval) :=
  match f with
  | JsonObject o => Ok ((MJson <$> o) ∪ m)
  | JsonPairs l => Ok (foldl (fun m kv => <[kv.1 := MJson kv.2]> m) m l)
  | JsonString EmptyString => Ok m
  | JsonString _ => Raise ValueError
  | JsonScalar => Raise TypeError
  | NotJson => Raise ValueError
  end.

(** Lines 87-88 of [load]: the ["timestamp"] of the metadata, parsed. *)
Definition parse_timestamp (m : gmap string mval) : result (gmap string mval) :=
  match m !! "timestamp"%string with
  | Some (MJson (JStr s)) =>
      match strptime s with
      | Some t => Ok (<["timestamp"%string := MTime t]> m)
      | None => Raise ValueError
      end
  | Some _ => Raise TypeError
  | None => Ok m
  end.

(** [md5_new != self.md5], where [self.md5] is [self.meta.get("md5")]. *)
Definition md5_differs (md5_new : string) (m : gmap string mval) : bool :=
  match m !! "md5"%string with
  | Some (MJson (JStr recorded)) => negb (String.eqb md5_new recorded)
  | _ => true
  end.

(** [CacheDb.init]: left to the subclasses. *)
Definition init (self : cachedb) : result unit * cachedb :=
  (Raise NotImplementedError, self).

(** How a call that raised [raised], if anything, ends. *)
Definition ended (raised : option exn) : result unit :=
  match raised with
  | Some e => Raise e
  | None => Ok tt
  end.

(** [CacheDb.load]: how the call ends, and the object afterwards. *)
Definition load (self : cachedb) (dk : disk) : result unit * cachedb :=
  match dbpath dk with
  | Some db =>
      match gzip_read db with
      | Raise e => (Raise e, self)
      | Ok s =>
          let md5_new := md5sum s in
          let verified : result unit * cachedb :=
            match metapath dk with
            | Some f =>
                match meta_update f (meta self) with
                | Raise e => (Raise e, self)
                | Ok m =>
                    let self := set_meta self m in
                    match parse_timestamp (meta self) with
                    | Raise e => (Raise e, self)
                    | Ok m' =>
                        let self := set_meta self m' in
                        if md5_differs md5_new (meta self)
                        then (Raise CacheDbError, self)
                        else (Ok tt, self)
                    end
                end
            | None => (Ok tt, set_meta self (<["md5"%string := MStr md5_new]> (meta self)))
            end in
          match verified with
          | (Raise e, self) => (Raise e, self)
          | (Ok tt, self) =>
              match json_loads s with
              | Some d =>
                  (* self.data = d, then the conversion in place *)
                  let '(raised, d) := parse_timestamps_in_struct d in
                  (ended raised, CacheDb (meta self) d)
              | None => (Raise ValueError, self)
              end
          end
      end
  | None => init self
  end.

(** The data comes back from the disk as it went: what [load] makes of
    the bytes [dump] writes for it. *)
Definition reads_back (d : pydata) : Prop :=
  exists s d', json_dumps d = Some s /\ json_loads s = Some d' /\
               parse_timestamps_in_struct d' = (None, d).

(** The call of [dump] that fails with [OSError], if one does. *)
Inductive io_fault :=
  | NoFault
  | FailMakedirs     (* os.makedirs, with an errno other than 17 *)
  | FailOpenDb       (* gzip.open(self.dbpath, mode="wb") *)
  | FailWriteDb      (* db.write(s) *)
  | FailOpenMeta     (* open(self.metapath, mode="wt") *)
  | FailWriteMeta.   (* meta.write(...) *)

Global Instance io_fault_eq_dec : EqDecision io_fault.
Proof. solve_decision. Defined.

(** Lines 124-126 of [dump]: the copy of the metadata with the
    ["timestamp"] formatted. *)
Definition format_timestamp (m : gmap string mval) : result (gmap string mval) :=
  match m !! "timestamp"%string with
  | Some (MTime t) => Ok (<["timestamp"%string := MStr (strftime t)]> m)
  | Some (MJson _) => Raise AttributeError
  | None => Ok m
  end.

Definition to_jval (v : mval) : option jval :=
  match v with
  | MJson j => Some j
  | MTime _ => None
  end.

(** [json.dumps(m, indent=4, sort_keys=True)]: [TypeError] when a
    [datetime] is left among the values. *)
Definition json_dumps_meta (m : gmap string mval) : result (gmap string jval) :=
  if forallb (fun kv => bool_decide (is_Some (to_jval kv.2))) (map_to_list m)
  then Ok (omap to_jval m)
  else Raise TypeError.

(** [CacheDb.dump]: how the call ends, the object and the two files
    afterwards. The payload file is opened for writing, which empties it,
    and written; then the same for the metadata file. A payload file
    whose writing failed is left holding nothing. *)
Definition dump (fault : io_fault) (self : cachedb) (dk : disk)
  : result unit * cachedb * disk :=
  if decide (fault = FailMakedirs) then (Raise OSError, self, dk) else
  match json_dumps (data self) with
  | None => (Raise TypeError, self, dk)
  | Some s =>
      let self := set_meta self (<["md5"%string := MStr (md5sum s)]> (meta self)) in
      match format_timestamp (meta self) with
      | Raise e => (Raise e, self, dk)
      | Ok m =>
          if decide (fault = FailOpenDb) then (Raise OSError, self, dk) else
          let dk := Disk (Some (GzStream [])) (metapath dk) in
          if decide (fault = FailWriteDb) then (Raise OSError, self, dk) else
          let dk := Disk (Some (GzStream s)) (metapath dk) in
          if decide (fault = FailOpenMeta) then (Raise OSError, self, dk) else
          let dk := Disk (dbpath dk) (Some NotJson) in
          match json_dumps_meta m with
          | Raise e => (Raise e, self, dk)
          | Ok text =>
              if decide (fault = FailWriteMeta) then (Raise OSError, self, dk) else
              (Ok tt, self, Disk (dbpath dk) (Some (JsonObject text)))
          end
      end
  end.

End CacheDb.

End Cache.

(** ** An instance of the serialization, for runs on concrete data

    JSON text in the layout [json.dumps] writes by default, and
    timestamps in the layout of [ts_format], ["%Y-%m-%dT%H:%M:%S.%f"],
    as [strftime] and [strptime] write and read it.

    [ws.utils] is not among the sources. Here a [datetime] of the data
    is written as an object with the one key ["__datetime__"] and its
    offset in microseconds under it, which the object hook turns back
    into the [datetime]; and [parse_timestamps_in_struct], of use only
    on files of an earlier layout, finds nothing to convert.

    The values are those of [pyval]: of the texts [json.loads] reads,
    those with a fraction, an exponent, [NaN] or an infinity, or with a
    character from 128 on, are beyond the instance, which turns them
    down. *)

Module PlainJson.

Local Open Scope string_scope.
Local Open Scope Z_scope.

(** *** Timestamps *)

Record datetime := DateTime {
  year : Z; month : Z; day : Z;
  hour : Z; minute : Z; second : Z; microsecond : Z;
}.

Definition leap (y : Z) : bool :=
  (y mod 4 =? 0) && (negb (y mod 100 =? 0) || (y mod 400 =? 0)).

Definition days_in_month (y m : Z) : Z :=
  if m =? 2 then (if leap y then 29 else 28)
  else if (m =? 4) || (m =? 6) || (m =? 9) || (m =? 11) then 30
  else 31.

(** The records that are objects of [datetime.datetime]. *)
Definition is_datetime (t : datetime) : bool :=
  (1 <=? year t) && (year t <=? 9999) &&
  (1 <=? month t) && (month t <=? 12) &&
  (1 <=? day t) && (day t <=? days_in_month (year t) (month t)) &&
  (0 <=? hour t) && (hour t <=? 23) &&
  (0 <=? minute t) && (minute t <=? 59) &&
  (0 <=? second t) && (second t <=? 59) &&
  (0 <=? microsecond t) && (microsecond t <=? 999999).

Definition digit_char (d : Z) : ascii := ascii_of_nat (Z.to_nat (48 + d mod 10)).

(** [n] on [width] digits, zero-padded. *)
Fixpoint padded (width : nat) (n : Z) (acc : string) : string :=
  match width with
  | O => acc
  | S w => padded w (n / 10) (String (digit_char n) acc)
  end.

(** The digits of a number from 0 on, as many as it has. *)
Fixpoint digits (fuel : nat) (n : Z) (acc : string) : string :=
  match fuel with
  | O => acc
  | S fuel =>
      let acc := String (digit_char n) acc in
      if n <? 10 then acc else digits fuel (n / 10) acc
  end.

(** [str(n)] of an [int]. *)
Definition decimal (n : Z) : string :=
  let magnitude (m : Z) := digits (S (Z.to_nat (Z.log2 m))) m EmptyString in
  if n <? 0 then String "-" (magnitude (- n)) else magnitude n.

(** The year goes unpadded, as the C library writes [%Y]. *)
Definition strftime (t : datetime) : string :=
  decimal (year t) +:+ "-" +:+ padded 2 (month t) ("-" +:+ padded 2 (day t) ("T" +:+
  padded 2 (hour t) (":" +:+ padded 2 (minute t) (":" +:+ padded 2 (second t) ("." +:+
  padded 6 (microsecond t) EmptyString))))).

Definition is_digit (c : ascii) : bool :=
  let n := nat_of_ascii c in ((48 <=? n) && (n <=? 57))%nat.

Definition digit_value (c : ascii) : Z := Z.of_nat (nat_of_ascii c) - 48.

(** Exactly [width] digits, as [%Y] wants four. *)
Fixpoint fixed_digits (width : nat) (acc : Z) (cs : list ascii) : option (Z * list ascii) :=
  match width with
  | O => Some (acc, cs)
  | S w =>
      match cs with
      | c :: rest =>
          if is_digit c then fixed_digits w (10 * acc + digit_value c) rest else None
      | [] => None
      end
  end.

Definition expect (c : ascii) (cs : list ascii) : option (list ascii) :=
  match cs with
  | c' :: rest => if Ascii.eqb c c' then Some rest else None
  | [] => None
  end.

Definition in_range (lo n hi : Z) : option unit :=
  if (lo <=? n) && (n <=? hi) then Some tt else None.

(** One digit or two, between [lo] and [hi]: how [%m], [%d], [%H], [%M]
    and [%S] are matched in front of the character that follows them in
    the layout. *)
Definition field (lo hi : Z) (cs : list ascii) : option (Z * list ascii) :=
  match cs with
  | c1 :: c2 :: rest =>
      if is_digit c1 && is_digit c2 then
        let n := 10 * digit_value c1 + digit_value c2 in
        _ ← in_range lo n hi; Some (n, rest)
      else if is_digit c1 then
        _ ← in_range lo (digit_value c1) hi; Some (digit_value c1, c2 :: rest)
      else None
  | [c1] =>
      if is_digit c1 then _ ← in_range lo (digit_value c1) hi; Some (digit_value c1, [])
      else None
  | [] => None
  end.

(** [%d] also takes a blank in the place of a leading zero. *)
Definition day_field (cs : list ascii) : option (Z * list ascii) :=
  match cs with
  | " "%char :: c :: rest =>
      if is_digit c && negb (Ascii.eqb c "0") then Some (digit_value c, rest) else None
  | _ => field 1 31 cs
  end.

(** [%f]: one to six digits, read as the leading digits of six. *)
Fixpoint fraction (width : nat) (acc : Z) (cs : list ascii) : Z * list ascii :=
  match width with
  | O => (acc, cs)
  | S w =>
      match cs with
      | c :: rest =>
          if is_digit c then fraction w (10 * acc + digit_value c) rest
          else (acc * 10 ^ Z.of_nat width, cs)
      | [] => (acc * 10 ^ Z.of_nat width, [])
      end
  end.

(** The letter of the layout is matched without regard to case. *)
Definition expect_T (cs : list ascii) : option (list ascii) :=
  match cs with
  | c :: rest => if Ascii.eqb c "T" || Ascii.eqb c "t" then Some rest else None
  | [] => None
  end.

Definition strptime (s : string) : option datetime :=
  '(y, cs) ← fixed_digits 4 0 (list_ascii_of_string s);
  cs ← expect "-" cs;
  '(m, cs) ← field 1 12 cs;
  cs ← expect "-" cs;
  '(d, cs) ← day_field cs;
  cs ← expect_T cs;
  '(h, cs) ← field 0 23 cs;
  cs ← expect ":" cs;
  '(mi, cs) ← field 0 59 cs;
  cs ← expect ":" cs;
  '(sec, cs) ← field 0 61 cs;
  cs ← expect "." cs;
  match cs with
  | c :: _ =>
      if is_digit c then
        match fraction 6 0 cs with
        | (us, []) =>
            let t := DateTime y m d h mi sec us in
            if is_datetime t then Some t else None
        | _ => None
        end
      else None
  | [] => None
  end.

(** *** JSON text *)

(** The characters of a text. *)
Abbreviation chars := list_ascii_of_string.

Definition hex_char (d : Z) : ascii :=
  ascii_of_nat (Z.to_nat (if d <? 10 then 48 + d else 87 + d)).

Definition dquote : ascii := "034"%char.
Definition backslash : ascii := "092"%char.

Definition backslashed (s : string) : string := String backslash s.

(** The escapes of [json.dumps] with [ensure_ascii]. *)
Definition escape_char (c : ascii) : string :=
  let n := Z.of_nat (nat_of_ascii c) in
  if n =? 34 then backslashed (String dquote EmptyString)
  else if n =? 92 then backslashed (String backslash EmptyString)
  else if n =? 10 then backslashed "n"
  else if n =? 13 then backslashed "r"
  else if n =? 9 then backslashed "t"
  else if n =? 8 then backslashed "b"
  else if n =? 12 then backslashed "f"
  else if (32 <=? n) && (n <=? 126) then String c EmptyString
  else backslashed ("u00" +:+ String (hex_char (n / 16)) (String (hex_char (n mod 16)) EmptyString)).

Fixpoint escape (s : string) : string :=
  match s with
  | EmptyString => EmptyString
  | String c rest => escape_char c +:+ escape rest
  end.

Definition quoted (s : string) : string :=
  String dquote (escape s +:+ String dquote EmptyString).

(** The key under which [DatetimeEncoder] writes a [datetime]. *)
Definition datetime_key : string := "__datetime__".

(** [json.dumps] with the encoder; [None] stands for the [TypeError] of
    a value that cannot be written, of which there is none here. *)
Fixpoint dumps (v : pyval) : option string :=
  match v with
  | PNone => Some "null"
  | PBool true => Some "true"
  | PBool false => Some "false"
  | PInt n => Some (decimal n)
  | PStr s => Some (quoted s)
  | PDatetime us => Some ("{" +:+ quoted datetime_key +:+ ": " +:+ decimal us +:+ "}")
  | PList l =>
      inner ← (fix elements (l : list pyval) : option string :=
                 match l with
                 | [] => Some EmptyString
                 | [x] => dumps x
                 | x :: rest => sx ← dumps x; sr ← elements rest; Some (sx +:+ ", " +:+ sr)
                 end) l;
      Some ("[" +:+ inner +:+ "]")
  | PDict d =>
      inner ← (fix members (d : pydict) : option string :=
                 match d with
                 | [] => Some EmptyString
                 | [(k, x)] => sx ← dumps x; Some (quoted k +:+ ": " +:+ sx)
                 | (k, x) :: rest =>
                     sx ← dumps x; sr ← members rest;
                     Some (quoted k +:+ ": " +:+ sx +:+ ", " +:+ sr)
                 end) d;
      Some ("{" +:+ inner +:+ "}")
  end.

(** The two loops of [dumps], by themselves. *)
Fixpoint dumps_elements (l : list pyval) : option string :=
  match l with
  | [] => Some EmptyString
  | [x] => dumps x
  | x :: rest => sx ← dumps x; sr ← dumps_elements rest; Some (sx +:+ ", " +:+ sr)
  end.

Fixpoint dumps_members (d : pydict) : option string :=
  match d with
  | [] => Some EmptyString
  | [(k, x)] => sx ← dumps x; Some (quoted k +:+ ": " +:+ sx)
  | (k, x) :: rest =>
      sx ← dumps x; sr ← dumps_members rest;
      Some (quoted k +:+ ": " +:+ sx +:+ ", " +:+ sr)
  end.

(** [datetime_parser], the object hook: an object that has the one key
    of the encoder, with a number under it, is the [datetime] of that
    number. *)
Definition datetime_parser (d : pydict) : pyval :=
  match d with
  | [(k, PInt us)] => if String.eqb k datetime_key then PDatetime us else PDict d
  | _ => PDict d
  end.

(** The values that come back from the text as they went: no [dict]
    with a key twice, and none that reads as a [datetime] written by the
    encoder. *)
Fixpoint storable (v : pyval) : bool :=
  match v with
  | PList l => forallb storable l
  | PDict d =>
      bool_decide (NoDup d.*1) &&
      match datetime_parser d with PDict _ => true | _ => false end &&
      forallb (fun kv => storable kv.2) d
  | _ => true
  end.

Definition is_ws (c : ascii) : bool :=
  let n := nat_of_ascii c in
  ((n =? 32) || (n =? 9) || (n =? 10) || (n =? 13))%nat.

Fixpoint skip_ws (cs : list ascii) : list ascii :=
  match cs with
  | c :: rest => if is_ws c then skip_ws rest else cs
  | [] => []
  end.

Definition hex_value (c : ascii) : option Z :=
  let n := Z.of_nat (nat_of_ascii c) in
  if (48 <=? n) && (n <=? 57) then Some (n - 48)
  else if (97 <=? n) && (n <=? 102) then Some (n - 87)
  else if (65 <=? n) && (n <=? 70) then Some (n - 55)
  else None.

(** The characters of a string literal after its opening quote. Of the
    [\u] escapes, those below 256 are read. *)
Fixpoint parse_string (fuel : nat) (cs : list ascii) : option (string * list ascii) :=
  match fuel with
  | O => None
  | S fuel =>
      match cs with
      | "034"%char :: rest => Some (EmptyString, rest)
      | "092"%char :: e :: rest =>
          let simple (c : ascii) :=
            '(s, rest') ← parse_string fuel rest; Some (String c s, rest') in
          if Ascii.eqb e dquote then simple dquote
          else if Ascii.eqb e backslash then simple backslash
          else if Ascii.eqb e "/" then simple "/"%char
          else if Ascii.eqb e "n" then simple (ascii_of_nat 10)
          else if Ascii.eqb e "r" then simple (ascii_of_nat 13)
          else if Ascii.eqb e "t" then simple (ascii_of_nat 9)
          else if Ascii.eqb e "b" then simple (ascii_of_nat 8)
          else if Ascii.eqb e "f" then simple (ascii_of_nat 12)
          else if Ascii.eqb e "u" then
            match rest with
            | a :: b :: c :: d :: rest' =>
                a ← hex_value a; b ← hex_value b; c ← hex_value c; d ← hex_value d;
                if (a =? 0) && (b =? 0) then
                  '(s, rest'') ← parse_string fuel rest';
                  Some (String (ascii_of_nat (Z.to_nat (16 * c + d))) s, rest'')
                else None
            | _ => None
            end
          else None
      | c :: rest =>
          if (nat_of_ascii c <? 32)%nat then None
          else '(s, rest') ← parse_string fuel rest; Some (String c s, rest')
      | [] => None
      end
  end.

Fixpoint parse_digits (acc : Z) (cs : list ascii) : Z * list ascii :=
  match cs with
  | c :: rest => if is_digit c then parse_digits (10 * acc + digit_value c) rest else (acc, cs)
  | [] => (acc, [])
  end.

(** An integer without leading zeros: anything that continues as a
    fraction or an exponent is turned down. *)
Definition parse_int (cs : list ascii) : option (Z * list ascii) :=
  match cs with
  | c :: cs' =>
      if is_digit c then
        let '(n, rest) := parse_digits 0 cs in
        let leading_zero :=
          Ascii.eqb c "0" && match cs' with c' :: _ => is_digit c' | [] => false end in
        if leading_zero then None else
        match rest with
        | "."%char :: _ | "e"%char :: _ | "E"%char :: _ => None
        | _ => Some (n, rest)
        end
      else None
  | [] => None
  end.

(** A value, and what follows it in the text. Every object is handed
    to the hook. *)
Fixpoint parse_value (fuel : nat) (cs : list ascii) : option (pyval * list ascii) :=
  match fuel with
  | O => None
  | S fuel =>
      match skip_ws cs with
      | "n"%char :: "u"%char :: "l"%char :: "l"%char :: rest => Some (PNone, rest)
      | "t"%char :: "r"%char :: "u"%char :: "e"%char :: rest => Some (PBool true, rest)
      | "f"%char :: "a"%char :: "l"%char :: "s"%char :: "e"%char :: rest =>
          Some (PBool false, rest)
      | "034"%char :: rest =>
          '(s, rest') ← parse_string (S (length rest)) rest; Some (PStr s, rest')
      | "-"%char :: rest => '(n, rest') ← parse_int rest; Some (PInt (- n), rest')
      | "["%char :: rest =>
          match skip_ws rest with
          | "]"%char :: rest' => Some (PList [], rest')
          | _ => '(l, rest') ← parse_elements fuel rest; Some (PList l, rest')
          end
      | "{"%char :: rest =>
          match skip_ws rest with
          | "}"%char :: rest' => Some (datetime_parser [], rest')
          | _ => '(d, rest') ← parse_members fuel rest []; Some (datetime_parser d, rest')
          end
      | cs' => '(n, rest) ← parse_int cs'; Some (PInt n, rest)
      end
  end
with parse_elements (fuel : nat) (cs : list ascii) : option (list pyval * list ascii) :=
  match fuel with
  | O => None
  | S fuel =>
      '(x, rest) ← parse_value fuel cs;
      match skip_ws rest with
      | ","%char :: rest' => '(l, rest'') ← parse_elements fuel rest'; Some (x :: l, rest'')
      | "]"%char :: rest' => Some ([x], rest')
      | _ => None
      end
  end
with parse_members (fuel : nat) (cs : list ascii) (d : pydict) : option (pydict * list ascii) :=
  match fuel with
  | O => None
  | S fuel =>
      match skip_ws cs with
      | "034"%char :: rest =>
          '(k, rest) ← parse_string (S (length rest)) rest;
          rest ← expect ":" (skip_ws rest);
          '(x, rest) ← parse_value fuel rest;
          let d := dict_set k x d in
          match skip_ws rest with
          | ","%char :: rest' => parse_members fuel rest' d
          | "}"%char :: rest' => Some (d, rest')
          | _ => None
          end
      | _ => None
      end
  end.

Definition loads (text : string) : option pyval :=
  let cs := list_ascii_of_string text in
  '(v, rest) ← parse_value (S (length cs)) cs;
  match skip_ws rest with
  | [] => Some v
  | _ => None
  end.

(** What a value starts with, and what it is followed by, in the text
    [dumps] writes. *)
Definition value_start (c : ascii) : bool :=
  negb (is_ws c) && negb (Ascii.eqb c "]") && negb (Ascii.eqb c "}").

Definition follows (rest : list ascii) : Prop :=
  match rest with
  | [] => True
  | c :: _ => c = ","%char \/ c = "]"%char \/ c = "}"%char
  end.

(** The text of a value is read as the value, whatever follows it. *)
Definition parsed_back (v : pyval) : Prop :=
  forall (text : string) (fuel : nat) (rest : list ascii),
    dumps v = Some text ->
    (length (list_ascii_of_string text) < fuel)%nat ->
    follows rest ->
    parse_value fuel (list_ascii_of_string text ++ rest) = Some (v, rest).

(** Seven-bit text is its own UTF-8 encoding. *)
Definition seven_bit (c : ascii) : bool := (nat_of_ascii c <? 128)%nat.

Definition ascii_only (s : bytes) : bool :=
  forallb (fun b => (Byte.to_N b <? 128)%N) s.

Definition json_dumps (v : pyval) : option bytes :=
  bytes_of_string <$> dumps v.

Definition json_loads (s : bytes) : option pyval :=
  if ascii_only s then loads (string_of_list_byte s) else None.

Global Instance serialization : Cache.Serialization := {|
  Cache.datetime := datetime;
  Cache.strftime := strftime;
  Cache.strptime := strptime;
  Cache.pydata := pyval;
  Cache.json_dumps := json_dumps;
  Cache.json_loads := json_loads;
  Cache.parse_timestamps_in_struct := fun d => (None, d);
  Cache.parse_timestamps_in_struct_raises := fun d => ltac:(discriminate);
|}.

End PlainJson.

(** ** ws/db/grabbers/interwiki.py *)

Module Interwiki.

(** *** Python's [int] on text

    The characters of a [string] stand for the code points of a [str],
    those below 256. *)

(** The blanks [int] strips: the six of ASCII, tab to carriage return
    and the space, and the two further whitespace characters below 256,
    U+0085 and U+00A0, which [int] turns into spaces beforehand. *)
Definition is_space (c : ascii) : bool :=
  let n := nat_of_ascii c in
  ((9 <=? n) && (n <=? 13) || (n =? 32) || (n =? 133) || (n =? 160))%nat.

Definition is_digit (c : ascii) : bool :=
  let n := nat_of_ascii c in ((48 <=? n) && (n <=? 57))%nat.

Definition digit_value (c : ascii) : Z := Z.of_nat (nat_of_ascii c) - 48.

Fixpoint lstrip (cs : list ascii) : list ascii :=
  match cs with
  | c :: rest => if is_space c then lstrip rest else cs
  | [] => []
  end.

Definition strip (cs : list ascii) : list ascii :=
  rev (lstrip (rev (lstrip cs))).

(** Decimal digits, single underscores allowed between two digits. *)
Fixpoint int_digits (acc : Z) (after_digit : bool) (cs : list ascii) : option Z :=
  match cs with
  | [] => if after_digit then Some acc else None
  | c :: rest =>
      if is_digit c then int_digits (10 * acc + digit_value c) true rest
      else if Ascii.eqb c "_" && after_digit then int_digits acc false rest
      else None
  end.

(** The number of digits [int] converts at most, as the interpreter
    sets it when it starts ([sys.int_info.default_max_str_digits]). *)
Definition max_str_digits : nat := 4300.

(** [int(s)] for a [str]: surrounding whitespace, an optional sign, decimal
    digits, no more of them than [max_str_digits]. [ValueError] otherwise. *)
Definition py_int (s : string) : result Z :=
  let cs := strip (list_ascii_of_string s) in
  let body :=
    match cs with
    | "-"%char :: ds => Z.opp <$> int_digits 0 false ds
    | "+"%char :: ds => int_digits 0 false ds
    | ds => int_digits 0 false ds
    end in
  match body with
  | Some n =>
      if (length (List.filter is_digit cs) <=? max_str_digits)%nat then Ok n
      else Raise ValueError
  | None => Raise ValueError
  end.

(** [bool(n)] for an [int]. *)
Definition py_bool (n : Z) : bool := negb (n =? 0).

(** *** Data *)

(** Values bound to the parameters of a statement, and held in the columns
    of the mirror's [interwiki] table. *)
Inductive sqlval :=
  | SqlNull
  | SqlText (s : string)
  | SqlBool (b : bool).

(** A change-log event as [self.db.query] returns it for
    [prop = {"type", "details"}]: [le["type"]], [le["action"]],
    [le["params"]]; the timestamp is what the query selects on. *)
Record logevent := LogEvent {
  le_timestamp : Z;
  le_type : string;
  le_action : string;
  le_params : gmap string string;
}.

(** The two statements of [self.sql]. *)
Inductive statement :=
  | InsertInterwiki   (* self.sql["insert", "interwiki"] *)
  | DeleteInterwiki.  (* self.sql["delete", "interwiki"] *)

(** What the generators yield: a statement and the dictionary bound to it. *)
Definition operation : Type := statement * gmap string sqlval.

(** A row of [db.interwiki] without its key [iw_prefix]. *)
Record iw_row := IwRow {
  iw_url : sqlval;
  iw_api : sqlval;
  iw_local : sqlval;
  iw_trans : sqlval;
}.

(** The declaration of the table [db.interwiki] is not part of the
    grabber: the default of each column and the constraints a row has to
    meet are left open. *)
Record iw_table_decl := IwTableDecl {
  column_default : string -> sqlval;
  row_accepted : iw_row -> bool;
}.

(** The mirror database [self.db]: the log events it holds, oldest first,
    and the [interwiki] table keyed by its unique column [iw_prefix]. *)
Record database := Database {
  logging : list logevent;
  interwiki_decl : iw_table_decl;
  interwiki : gmap string iw_row;
}.

(** Modelled from the spec: [Database.query] is not among the sources.
    For [list = logevents], [dir = newer], [start = since] it yields the
    events whose timestamp is at least [since], oldest first. *)
Definition query_logevents (db : database) (since : Z) : list logevent :=
  List.filter (fun le => since <=? le_timestamp le) (logging db).

(** *** GrabberInterwiki *)

Definition _transform_logevent_params (params : gmap string string)
  : result (gmap string sqlval) :=
  let db_entry : gmap string sqlval := ∅ in
  let db_entry :=
    match params !! "0"%string with
    | Some p => <["iw_prefix"%string := SqlText p]> db_entry
    | None => db_entry
    end in
  let db_entry :=
    match params !! "1"%string with
    | Some u => <["iw_url"%string := SqlText u]> db_entry
    | None => db_entry
    end in
  db_entry ←
    match params !! "2"%string with
    | Some t => n ← py_int t; Ok (<["iw_trans"%string := SqlBool (py_bool n)]> db_entry)
    | None => Ok db_entry
    end;
  match params !! "3"%string with
  | Some l => n ← py_int l; Ok (<["iw_local"%string := SqlBool (py_bool n)]> db_entry)
  | None => Ok db_entry
  end.

(** A generator run: the operations yielded, in order, and the exception
    that ended the run, if any. *)
Definition run : Type := list operation * option exn.

Definition yield (op : operation) (rest : run) : run := (op :: rest.1, rest.2).

Definition raise (e : exn) : run := ([], Some e).

(** The body of the [for] loop of [gen_update], over the events the query
    returned. *)
Fixpoint gen_update_events (les : list logevent) : run :=
  match les with
  | [] => ([], None)
  | le :: rest =>
      if String.eqb (le_type le) "interwiki" then
        match _transform_logevent_params (le_params le) with
        | Raise e => raise e
        | Ok db_entry =>
            if String.eqb (le_action le) "iw_add" || String.eqb (le_action le) "iw_edit" then
              yield (InsertInterwiki, db_entry) (gen_update_events rest)
            else if String.eqb (le_action le) "iw_delete" then
              match db_entry !! "iw_prefix"%string with
              | Some prefix =>
                  yield (DeleteInterwiki, {[ "b_iw_prefix"%string := prefix ]})
                        (gen_update_events rest)
              | None => raise (KeyError "iw_prefix")
              end
            else gen_update_events rest
        end
      else gen_update_events rest
  end.

Definition gen_update (db : database) (since : Z) : run :=
  gen_update_events (query_logevents db since).

(** *** Executing the statements of [__init__] *)

(** The row proposed for insertion ([excluded]): the bound value of each
    column, the column's default where the dictionary has none. *)
Definition proposed (decl : iw_table_decl) (params : gmap string sqlval) : iw_row :=
  let col c := default (column_default decl c) (params !! c) in
  IwRow (col "iw_url"%string) (col "iw_api"%string)
        (col "iw_local"%string) (col "iw_trans"%string).

(** [on_conflict_do_update(index_elements=[iw_prefix], set_={...})]: the
    four columns of the existing row are set from [excluded]. *)
Definition do_update (existing excluded : iw_row) : iw_row :=
  {| iw_url := iw_url excluded;
     iw_api := iw_api excluded;
     iw_local := iw_local excluded;
     iw_trans := iw_trans excluded |}.

Definition execute (op : operation) (db : database) : result database :=
  let '(stmt, params) := op in
  match stmt with
  | InsertInterwiki =>
      match params !! "iw_prefix"%string with
      | Some (SqlText prefix) =>
          let excluded := proposed (interwiki_decl db) params in
          if row_accepted (interwiki_decl db) excluded then
            let row :=
              match interwiki db !! prefix with
              | None => excluded
              | Some existing => do_update existing excluded
              end in
            Ok (Database (logging db) (interwiki_decl db) (<[prefix := row]> (interwiki db)))
          else Raise IntegrityError
      | _ => Raise IntegrityError
      end
  | DeleteInterwiki =>
      match params !! "b_iw_prefix"%string with
      | Some (SqlText prefix) =>
          Ok (Database (logging db) (interwiki_decl db) (delete prefix (interwiki db)))
      | Some _ => Ok db
      | None => Raise StatementError
      end
  end.

(** Executing the yielded operations one after the other. *)
Fixpoint apply (ops : list operation) (db : database) : result database :=
  match ops with
  | [] => Ok db
  | op :: rest => db' ← execute op db; apply rest db'
  end.

(** *** Vocabulary of the statements below *)

(** Two databases that went through the same operations: at each key the
    operations either wrote the same row (or absence) into both, or left
    both alone. *)
Definition same_writes (db db' other other' : database) : Prop :=
  logging db' = logging db /\ interwiki_decl db' = interwiki_decl db /\
  logging other' = logging other /\ interwiki_decl other' = interwiki_decl other /\
  forall k : string,
    interwiki other' !! k = interwiki db' !! k \/
    (interwiki other' !! k = interwiki other !! k /\
     interwiki db' !! k = interwiki db !! k).

(** An event [gen_update] has nothing to yield for: not an interwiki
    event, or an interwiki event of another action than add, edit and
    delete whose parameters can be transformed. *)
Definition passed_over (le : logevent) : Prop :=
  le_type le <> "interwiki"%string \/
  (le_action le <> "iw_add"%string /\ le_action le <> "iw_edit"%string /\
   le_action le <> "iw_delete"%string /\
   exists db_entry, _transform_logevent_params (le_params le) = Ok db_entry).

(** *** gen_insert *)

(** [self.api.site.interwikimap]: the entries of the map under their
    prefixes, in the order of the map. *)
Definition interwikimap : Type := list (string * gmap string string).

(** The dictionary built for one entry: [KeyError] for an entry without
    ["prefix"] or without ["url"]. *)
Definition insert_of_entry (iw : gmap string string) : result operation :=
  match iw !! "prefix"%string with
  | None => Raise (KeyError "prefix")
  | Some prefix =>
      match iw !! "url"%string with
      | None => Raise (KeyError "url")
      | Some url =>
          Ok (InsertInterwiki,
              {[ "iw_prefix"%string := SqlText prefix;
                 "iw_url"%string := SqlText url;
                 "iw_api"%string := from_option SqlText SqlNull (iw !! "api"%string);
                 "iw_local"%string := SqlBool (bool_decide (is_Some (iw !! "local"%string)));
                 "iw_trans"%string := SqlBool (bool_decide (is_Some (iw !! "trans"%string))) ]})
      end
  end.

Fixpoint gen_insert_values (iws : list (gmap string string)) : run :=
  match iws with
  | [] => ([], None)
  | iw :: rest =>
      match insert_of_entry iw with
      | Raise e => raise e
      | Ok op => yield op (gen_insert_values rest)
      end
  end.

Definition gen_insert (site : interwikimap) : run := gen_insert_values site.*2.

(** The row [gen_insert] proposes for an entry. *)
Definition row_of_entry (url : string) (iw : gmap string string) : iw_row :=
  {| iw_url := SqlText url;
     iw_api := from_option SqlText SqlNull (iw !! "api"%string);
     iw_local := SqlBool (bool_decide (is_Some (iw !! "local"%string)));
     iw_trans := SqlBool (bool_decide (is_Some (iw !! "trans"%string))) |}.

(** The prefixes the entries of a map carry. *)
Definition prefixes (site : interwikimap) : list string :=
  omap (fun iw : gmap string string => iw !! "prefix"%string) site.*2.

(** An interwiki event about the prefix [p]. *)
Definition about (p : string) (le : logevent) : Prop :=
  le_type le = "interwiki"%string /\ le_params le !! "0"%string = Some p.

End Interwiki.
(** ** grab.py *)

Module Grab.

(** *** The list checks *)

(** What the checks write to the standard streams. *)
Inductive output (A : Type) :=
  | DiffHighlighted (db_entry api_entry : A)
      (* print(ws.diff.diff_highlighted(pformat(db_entry), pformat(api_entry), ...)) *)
  | PrintLine (line : string)
  | PPrint (entry : A)
  | PrintExc (e : exn).   (* traceback.print_exc() *)
Arguments DiffHighlighted {A} db_entry api_entry.
Arguments PrintLine {A} line.
Arguments PPrint {A} entry.
Arguments PrintExc {A} e.

(** [isinstance(e, AssertionError)] *)
Fixpoint is_AssertionError (e : exn) : bool :=
  match e with
  | AssertionError _ => true
  | RaisedFrom e' _ => is_AssertionError e'
  | _ => false
  end.

Section checks.
Context {A : Type}.
(** [db_entry == api_entry] *)
Variable eqb : A -> A -> bool.

(** A call: what it printed, and how it ended. *)
Definition printed (R : Type) : Type := list (output A) * result R.

Definition _pprint_diff (i : nat) (db_entry api_entry : A) : list (output A) :=
  [ DiffHighlighted db_entry api_entry;
    PrintLine ("db_entry no. " +:+ pretty i +:+ ":");
    PPrint db_entry;
    PrintLine ("api_entry no. " +:+ pretty i +:+ ":");
    PPrint api_entry;
    PrintLine EmptyString ].

Definition _check_entries (i : nat) (db_entry api_entry : A) : printed unit :=
  if eqb db_entry api_entry then ([], Ok tt)
  else (_pprint_diff i db_entry api_entry, Raise (AssertionError None)).

(** The [for] loop of [_check_lists] from index [i] on, with the value of
    [last_assert_exc] threaded through. An exception that is not an
    [AssertionError] leaves the loop. *)
Fixpoint check_loop (i : nat) (pairs : list (A * A)) (last_assert_exc : option exn)
  : printed (option exn) :=
  match pairs with
  | [] => ([], Ok last_assert_exc)
  | (db_entry, api_entry) :: rest =>
      match _check_entries i db_entry api_entry with
      | (out, Ok tt) =>
          let '(out', r) := check_loop (S i) rest last_assert_exc in (out ++ out', r)
      | (out, Raise e) =>
          if is_AssertionError e then
            let '(out', r) := check_loop (S i) rest (Some e) in (out ++ out', r)
          else (out, Raise e)
      end
  end.

(** The body of the outer [try]. *)
Definition check_lists_body (db_list api_list : list A) : printed unit :=
  if (length db_list =? length api_list)%nat then
    match check_loop 0 (zip db_list api_list) None with
    | (out, Ok (Some last_assert_exc)) =>
        (out, Raise (RaisedFrom (AssertionError None) last_assert_exc))
    | (out, Ok None) => (out, Ok tt)
    | (out, Raise e) => (out, Raise e)
    end
  else
    ([], Raise (AssertionError
                  (Some (pretty (length db_list) +:+ " vs. " +:+ pretty (length api_list))))).

Definition _check_lists (db_list api_list : list A) : printed unit :=
  match check_lists_body db_list api_list with
  | (out, Raise e) =>
      if is_AssertionError e then (out ++ [PrintExc e], Ok tt) else (out, Raise e)
  | done => done
  end.

(** What the loop prints for the pair at position [i]. *)
Definition pair_report (i : nat) (pair : A * A) : list (output A) :=
  (_check_entries i pair.1 pair.2).1.

Definition some_mismatch (pairs : list (A * A)) : bool :=
  existsb (fun pair => negb (eqb pair.1 pair.2)) pairs.

End checks.

(** *** Squashing partial records *)

(** The keys of an [OrderedDict]: the hashable values, with [True] and
    [False] standing for the same keys as [1] and [0]. *)
Inductive hkey :=
  | KNone
  | KInt (n : Z)
  | KStr (s : string)
  | KDatetime (us : Z).

Global Instance hkey_eq_dec : EqDecision hkey.
Proof. solve_decision. Defined.

(** [TypeError] for the unhashable values. *)
Definition hash_key (v : pyval) : result hkey :=
  match v with
  | PNone => Ok KNone
  | PBool b => Ok (KInt (if b then 1 else 0))
  | PInt n => Ok (KInt n)
  | PStr s => Ok (KStr s)
  | PDatetime us => Ok (KDatetime us)
  | PList _ | PDict _ => Raise TypeError
  end.

(** Records are objects: a list holds their addresses, the store what
    each of them holds at the time. The same object may stand in a list
    more than once; the values inside a record are held by value. *)
Abbreviation store := (gmap nat pydict).

(** The record at an address. *)
Definition deref (h : store) (l : nat) : pydict := h !!! l.

Definition values (h : store) (ls : list nat) : list pydict := deref h <$> ls.

(** An [OrderedDict] from hashed keys to records, in insertion order. *)
Abbreviation odict := (list (hkey * nat)).

Fixpoint odict_get (k : hkey) (d : odict) : option nat :=
  match d with
  | [] => None
  | (k', v) :: rest => if decide (k' = k) then Some v else odict_get k rest
  end.

(** Modelled from the spec: [ws.utils.containers.dmerge] is not among the
    sources. [dmerge source destination] is the deep field-union of the
    two records, written into [destination]: every field of [source] is
    put into [destination]; where both hold a mapping under the same
    field, the two mappings are merged the same way. *)
Definition merge_fields (merge : pyval -> pyval -> pyval)
  : pydict -> pydict -> pydict :=
  fix put (fields node : pydict) {struct fields} : pydict :=
    match fields with
    | [] => node
    | (k, v) :: rest =>
        let v' :=
          match dict_get k node with
          | Some old => merge v old
          | None => v
          end in
        put rest (dict_set k v' node)
    end.

Fixpoint dmerge_val (source destination : pyval) {struct source} : pyval :=
  match source, destination with
  | PDict fields, PDict node => PDict (merge_fields dmerge_val fields node)
  | _, _ => source
  end.

Definition dmerge (source destination : pydict) : pydict :=
  match dmerge_val (PDict source) (PDict destination) with
  | PDict merged => merged
  | _ => destination
  end.

(** [item[key]], hashed. *)
Definition identity (key : string) (item : pydict) : result hkey :=
  match dict_get key item with
  | Some key_value => hash_key key_value
  | None => Raise (KeyError key)
  end.

(** The [for] loop of [_squash_list_of_dicts]. The record stored under a
    new key is the item itself, not a copy: [dmerge] later writes into
    that object. *)
Fixpoint squash_loop (key : string) (api_list : list nat) (api_dict : odict) (h : store)
  : result (odict * store) :=
  match api_list with
  | [] => Ok (api_dict, h)
  | item :: rest =>
      key_value ← identity key (deref h item);
      match odict_get key_value api_dict with
      | None => squash_loop key rest (api_dict ++ [(key_value, item)]) h
      | Some destination =>
          squash_loop key rest api_dict
            (<[destination := dmerge (deref h item) (deref h destination)]> h)
      end
  end.

(** The list returned, and the store as the call leaves it. *)
Definition _squash_list_of_dicts (api_list : list nat) (key : string) (h : store)
  : result (list nat * store) :=
  '(api_dict, h') ← squash_loop key api_list [] h;
  Ok (api_dict.*2, h').

(** The identities of a list in the order of their first occurrence,
    those in [seen] left out. *)
Fixpoint first_occurrences (seen ids : list hkey) : list hkey :=
  match ids with
  | [] => []
  | id :: rest =>
      if decide (id ∈ seen) then first_occurrences seen rest
      else id :: first_occurrences (seen ++ [id]) rest
  end.

(** The records of a list that carry the identity [id], in order. *)
Definition records_of (key : string) (id : hkey) (api_list : list pydict) : list pydict :=
  List.filter
    (fun item => match identity key item with
                 | Ok id' => bool_decide (id' = id)
                 | Raise _ => false
                 end) api_list.

(** The later records merged, one after the other, into the first. *)
Definition merged (first : pydict) (later : list pydict) : pydict :=
  foldl (fun destination source => dmerge source destination) first later.

(** What the record stored under [id] holds once the loop has gone
    through the records [later_items]: [destination] is what it held
    before, if there was one. *)
Definition squashed (key : string) (id : hkey) (destination : option pydict)
    (later_items : list pydict) : option pydict :=
  match destination with
  | Some d => Some (merged d (records_of key id later_items))
  | None =>
      match records_of key id later_items with
      | first :: later => Some (merged first later)
      | [] => None
      end
  end.

(** *** check_protected_titles *)

(** [a - b] for two [datetime]s, as a [timedelta] in microseconds. The
    other operand types end in [TypeError], at the subtraction or at the
    comparison with a [timedelta] that follows. *)
Definition datetime_sub (a b : pyval) : result Z :=
  match a, b with
  | PDatetime s, PDatetime t => Ok (s - t)
  | _, _ => Raise TypeError
  end.

(** [datetime.timedelta(seconds=1)] *)
Definition one_second : Z := 1000000.

(** One turn of the loop over [zip(db_list, api_list)]: the assignment
    writes into the entry of the mirror. *)
Definition snap_entry (db_entry api_entry : nat) (h : store) : result store :=
  match dict_get "timestamp" (deref h db_entry),
        dict_get "timestamp" (deref h api_entry) with
  | Some db_ts, Some api_ts =>
      delta ← datetime_sub db_ts api_ts;
      if Z.abs delta <=? one_second
      then Ok (<[db_entry := dict_set "timestamp" api_ts (deref h db_entry)]> h)
      else Ok h
  | _, _ => Ok h
  end.

Fixpoint snap_timestamps (db_list api_list : list nat) (h : store) : result store :=
  match db_list, api_list with
  | db_entry :: db_rest, api_entry :: api_rest =>
      h' ← snap_entry db_entry api_entry h;
      snap_timestamps db_rest api_rest h'
  | _, _ => Ok h
  end.

(** [check_protected_titles] once the two lists have been fetched. *)
Definition check_protected_titles (db_list api_list : list nat) (h : store)
  : printed (A := pydict) unit :=
  match snap_timestamps db_list api_list h with
  | Ok h' =>
      _check_lists (fun a b => py_eqb (PDict a) (PDict b))
                   (values h' db_list) (values h' api_list)
  | Raise e => ([], Raise e)
  end.

(** *** check_recentchanges *)

(** [del d[k]], for a key that is there. *)
Definition dict_del (k : string) (d : pydict) : pydict :=
  List.filter (fun kv => negb (String.eqb kv.1 k)) d.

(** [db_entry == api_entry] on two records. *)
Definition entry_eqb (a b : pydict) : bool := py_eqb (PDict a) (PDict b).

(** Lines 132-136: the changes that are log entries, or whose page is
    among [current_pageids]. *)
Fixpoint current_changes (current_pageids : list hkey) (api_list : list pydict)
  : result (list pydict) :=
  match api_list with
  | [] => Ok []
  | rc :: rest =>
      keep ←
        match dict_get "logid" rc with
        | Some _ => Ok true
        | None =>
            match dict_get "pageid" rc with
            | Some pageid => k ← hash_key pageid; Ok (bool_decide (k ∈ current_pageids))
            | None => Raise (KeyError "pageid")
            end
        end;
      rest' ← current_changes current_pageids rest;
      Ok (if keep : bool then rc :: rest' else rest')
  end.

(** Lines 143-154: the two entries once the patrol flags are deleted. *)
Definition api_entry_checked (api_entry : pydict) : pydict :=
  dict_del "patrolled" (dict_del "unpatrolled" (dict_del "autopatrolled" api_entry)).

Definition db_entry_checked (db_entry : pydict) : pydict :=
  dict_del "patrolled" db_entry.

(** The [for] loop of [check_recentchanges] from index [i] on: the
    exception of [_check_entries] leaves the loop. *)
Fixpoint recentchanges_loop (i : nat) (pairs : list (pydict * pydict))
  : printed (A := pydict) unit :=
  match pairs with
  | [] => ([], Ok tt)
  | (db_entry, api_entry) :: rest =>
      match _check_entries entry_eqb i (db_entry_checked db_entry)
                           (api_entry_checked api_entry) with
      | (out, Ok tt) =>
          let '(out', r) := recentchanges_loop (S i) rest in (out ++ out', r)
      | (out, Raise e) => (out, Raise e)
      end
  end.

(** [check_recentchanges] once the two lists and the page ids of the
    mirror have been fetched. *)
Definition check_recentchanges (current_pageids : list hkey)
    (db_list api_list : list pydict) : printed (A := pydict) unit :=
  match current_changes current_pageids api_list with
  | Raise e => ([], Raise e)
  | Ok api_list =>
      let body : printed (A := pydict) unit :=
        if (length db_list =? length api_list)%nat
        then recentchanges_loop 0 (zip db_list api_list)
        else ([], Raise (AssertionError
                           (Some (pretty (length db_list) +:+ " vs "
                                  +:+ pretty (length api_list))))) in
      match body with
      | (out, Raise e) =>
          if is_AssertionError e then (out ++ [PrintExc e], Ok tt) else (out, Raise e)
      | done => done
      end
  end.

(** *** _check_lists_of_unordered_pages *)

(** [a < b]: numbers with numbers, text with text, dates with dates,
    lists item by item; [TypeError] for the rest. *)
Fixpoint py_lt (a b : pyval) {struct a} : result bool :=
  let int_of (x : bool) : Z := if x then 1 else 0 in
  match a, b with
  | PBool x, PBool y => Ok (int_of x <? int_of y)
  | PBool x, PInt m => Ok (int_of x <? m)
  | PInt n, PBool y => Ok (n <? int_of y)
  | PInt n, PInt m => Ok (n <? m)
  | PStr s, PStr t => Ok (String.ltb s t)
  | PDatetime s, PDatetime t => Ok (s <? t)
  | PList l, PList m =>
      (fix list_lt (l m : list pyval) {struct l} : result bool :=
         match l, m with
         | [], [] => Ok false
         | [], _ :: _ => Ok true
         | _ :: _, [] => Ok false
         | x :: l', y :: m' => if py_eqb x y then list_lt l' m' else py_lt x y
         end) l m
  | _, _ => Raise TypeError
  end.

(** [sorted(l, key=...)] once the keys are taken: each item goes behind
    the items already placed that it is not less than, so items with
    equal keys keep their order; a comparison that raises ends the
    sorting. Which pairs a sort compares is its own business: for keys
    of one kind that compare - numbers, texts, dates - the list returned
    does not depend on it. *)
Fixpoint insert_by_key {A : Type} (x : pyval * A) (placed : list (pyval * A))
  : result (list (pyval * A)) :=
  match placed with
  | [] => Ok [x]
  | y :: rest =>
      less ← py_lt x.1 y.1;
      if less : bool then Ok (x :: y :: rest)
      else rest' ← insert_by_key x rest; Ok (y :: rest')
  end.

Fixpoint sort_loop {A : Type} (todo placed : list (pyval * A))
  : result (list (pyval * A)) :=
  match todo with
  | [] => Ok placed
  | x :: rest => placed' ← insert_by_key x placed; sort_loop rest placed'
  end.

(** [item["pageid"]] of every item, in order. *)
Fixpoint with_pageid (l : list pydict) : result (list (pyval * pydict)) :=
  match l with
  | [] => Ok []
  | item :: rest =>
      match dict_get "pageid" item with
      | Some pageid => rest' ← with_pageid rest; Ok ((pageid, item) :: rest')
      | None => Raise (KeyError "pageid")
      end
  end.

(** [sorted(l, key=lambda item: item["pageid"])] *)
Definition sorted_by_pageid (l : list pydict) : result (list pydict) :=
  keyed ← with_pageid l;
  placed ← sort_loop keyed [];
  Ok placed.*2.

Definition _check_lists_of_unordered_pages (db_list api_list : list pydict)
  : printed (A := pydict) unit :=
  match sorted_by_pageid api_list with
  | Raise e => ([], Raise e)
  | Ok api_list =>
      match sorted_by_pageid db_list with
      | Raise e => ([], Raise e)
      | Ok db_list => _check_lists entry_eqb db_list api_list
      end
  end.

(** The page id of a record that has a number for it. *)
Definition int_pageid (item : pydict) : option Z :=
  match dict_get "pageid" item with
  | Some (PInt n) => Some n
  | _ => None
  end.

(** *** _deduplicate_list_of_dicts *)

(** [tuple(d.items())] as the member of a set: [TypeError] for a value
    that cannot be hashed. *)
Fixpoint items_key (d : pydict) : result (list (string * hkey)) :=
  match d with
  | [] => Ok []
  | (k, v) :: rest => hv ← hash_key v; rest' ← items_key rest; Ok ((k, hv) :: rest')
  end.

(** The set comprehension: a tuple equal to one of the set is not added
    again. *)
Fixpoint dedup_loop (l : list pydict) (seen : list (list (string * hkey) * pydict))
  : result (list (list (string * hkey) * pydict)) :=
  match l with
  | [] => Ok seen
  | d :: rest =>
      t ← items_key d;
      if decide (t ∈ seen.*1) then dedup_loop rest seen
      else dedup_loop rest (seen ++ [(t, d)])
  end.

(** [set_order] is the order in which the set is gone through. *)
Definition _deduplicate_list_of_dicts
    (set_order : list pydict -> list pydict) (l : list pydict) : result (list pydict) :=
  seen ← dedup_loop l [];
  Ok (set_order seen.*2).

(** *** check_categorylinks *)

Definition automatic_categories : list string :=
  [ "Category:Indexed pages";
    "Category:Noindexed pages";
    "Category:Pages using duplicate arguments in template calls";
    "Category:Pages with too many expensive parser function calls";
    "Category:Pages containing omitted template arguments";
    "Category:Pages where template include size is exceeded";
    "Category:Hidden categories";
    "Category:Pages with broken file links";
    "Category:Pages where node count is exceeded";
    "Category:Pages where expansion depth is exceeded";
    "Category:Pages with ignored display titles";
    "Category:Pages using invalid self-closed HTML tags";
    "Category:Pages with template loops" ]%string.

(** [cat["title"] not in automatic_categories] *)
Definition is_tracked (cat : pyval) : result bool :=
  match cat with
  | PDict fields =>
      match dict_get "title" fields with
      | Some title =>
          k ← hash_key title;
          Ok (negb (bool_decide (k ∈ KStr <$> automatic_categories)))
      | None => Raise (KeyError "title")
      end
  | _ => Raise TypeError
  end.

Fixpoint tracked (cats : list pyval) : result (list pyval) :=
  match cats with
  | [] => Ok []
  | cat :: rest =>
      keep ← is_tracked cat;
      rest' ← tracked rest;
      Ok (if keep : bool then cat :: rest' else rest')
  end.

(** One turn of the loop of lines 454-459. Going through a text or a
    mapping that is not empty meets a text, which has no ["title"]. *)
Definition drop_automatic (page : pydict) : result pydict :=
  match dict_get "categories" page with
  | None => Ok page
  | Some categories =>
      kept ←
        match categories with
        | PList cats => tracked cats
        | PStr EmptyString | PDict [] => Ok []
        | _ => Raise TypeError
        end;
      match kept with
      | [] => Ok (dict_del "categories" page)
      | _ => Ok (dict_set "categories" (PList kept) page)
      end
  end.

Fixpoint drop_automatic_categories (api_list : list pydict) : result (list pydict) :=
  match api_list with
  | [] => Ok []
  | page :: rest =>
      page' ← drop_automatic page;
      rest' ← drop_automatic_categories rest;
      Ok (page' :: rest')
  end.

(** *** Vocabulary of the statements below *)

(** Keys that are numbers, in increasing order. *)
Definition key_lt {A : Type} (p q : pyval * A) : Prop :=
  exists n m, p.1 = PInt n /\ q.1 = PInt m /\ n < m.

(** The order of the page ids. *)
Definition pageid_lt (a b : pydict) : Prop :=
  exists n m, int_pageid a = Some n /\ int_pageid b = Some m /\ n < m.

(** What [drop_automatic] leaves under ["categories"]. *)
Definition categories_cleaned (page : pydict) : Prop :=
  match dict_get "categories" page with
  | None => True
  | Some v =>
      exists cats, v = PList cats /\ cats <> [] /\
                   Forall (fun cat => is_tracked cat = Ok true) cats
  end.

End Grab.
(** ** ws/cache/AllUsersProps.py *)

Module AllUsersProps.
Import Cache Grab.

(** How a call of this module can fail: with one of the shared
    exceptions, or with one of its own. *)
Inductive failure :=
  | ShortRecentChangesError   (* ws.client.api.ShortRecentChangesError *)
  | IndexError
  | OverflowError
  | Builtin (e : exn).

Inductive outcome (A : Type) :=
  | Done (a : A)
  | Fails (f : failure).
Arguments Done {A} a.
Arguments Fails {A} f.

Global Instance outcome_ret : MRet outcome := @Done.

Global Instance outcome_bind : MBind outcome := fun A B k r =>
  match r with
  | Done a => k a
  | Fails f => Fails f
  end.

Definition of_result {A : Type} (r : result A) : outcome A :=
  match r with
  | Ok a => Done a
  | Raise e => Fails (Builtin e)
  end.

(** *** _find_changed_users *)

(** [title.split(":", maxsplit=1)[1]]: what follows the first colon. *)
Fixpoint after_colon (title : string) : option string :=
  match title with
  | EmptyString => None
  | String c rest => if Ascii.eqb c ":" then Some rest else after_colon rest
  end.

(** Line 98, for one event of the log. *)
Definition username (user : pydict) : outcome string :=
  match dict_get "title" user with
  | Some (PStr title) =>
      match after_colon title with
      | Some name => Done name
      | None => Fails IndexError
      end
  | Some _ => Fails (Builtin AttributeError)
  | None => Fails (Builtin (KeyError "title"))
  end.

Fixpoint usernames (events : list pydict) : outcome (list string) :=
  match events with
  | [] => Done []
  | user :: rest => name ← username user; names ← usernames rest; Done (name :: names)
  end.

Section find_changed_users.
Context `{Serialization}.

(** [self.api.list(list="logevents", letype=..., lestart=...)] *)
Variable logevents : string -> option mval -> list pydict.

Definition _find_changed_users (self : cachedb) : outcome (list string) :=
  let lestart := meta self !! "timestamp"%string in
  created ← usernames (logevents "newusers" lestart);
  promoted ← usernames (logevents "rights" lestart);
  blocked ← usernames (logevents "block" lestart);
  Done (created ++ promoted ++ blocked).

End find_changed_users.

(** *** _find_active_users *)

(** The dictionary [rcusers]: a count under each user, in the order the
    users were met. *)
Abbreviation counts := (list (hkey * Z)).

Fixpoint counts_get (k : hkey) (rcusers : counts) : option Z :=
  match rcusers with
  | [] => None
  | (k', n) :: rest => if decide (k' = k) then Some n else counts_get k rest
  end.

Fixpoint counts_set (k : hkey) (n : Z) (rcusers : counts) : counts :=
  match rcusers with
  | [] => [(k, n)]
  | (k', n') :: rest =>
      if decide (k' = k) then (k, n) :: rest else (k', n') :: counts_set k n rest
  end.

(** [change["user"]], hashed. *)
Definition user_of (change : pydict) : result hkey :=
  match dict_get "user" change with
  | Some user => hash_key user
  | None => Raise (KeyError "user")
  end.

(** Lines 118-122: the [KeyError] of a user met for the first time is
    caught, and the user is given the count 1. *)
Fixpoint count_changes (rc : list pydict) (rcusers : counts) : result counts :=
  match rc with
  | [] => Ok rcusers
  | change :: rest =>
      user ← user_of change;
      match counts_get user rcusers with
      | Some n => count_changes rest (counts_set user (n + 1) rcusers)
      | None => count_changes rest (counts_set user 1 rcusers)
      end
  end.

(** The changes of a list made by [user]. *)
Definition changes_by (user : hkey) (rc : list pydict) : list pydict :=
  List.filter (fun change => match user_of change with
                             | Ok user' => bool_decide (user' = user)
                             | Raise _ => false
                             end) rc.

Section find_active_users.
Context `{Serialization}.

(** Of the library: the [datetime] of the first three fields of
    [t.timetuple()], [t - datetime.timedelta(days=n)] ([None] for
    [OverflowError]), [a > b] and [t.strftime("%Y-%m-%d")]. *)
Variable midnight : datetime -> datetime.
Variable minus_days : datetime -> Z -> option datetime.
Variable later : datetime -> datetime -> bool.
Variable strftime_date : datetime -> string.

(** [self.api.list(list="recentchanges", rcstart=..., rcend=...)] and
    [self.api.oldest_rc_timestamp]. *)
Variable recentchanges : datetime -> datetime -> list pydict.
Variable oldest_rc_timestamp : datetime.

(** [utcnow] is what [datetime.datetime.utcnow()] returns. *)
Definition _find_active_users (round_to_midnight : bool) (active_days : Z)
    (utcnow : datetime) (self : cachedb) : outcome counts * cachedb :=
  let today := if round_to_midnight then midnight utcnow else utcnow in
  match minus_days today active_days with
  | None => (Fails OverflowError, self)
  | Some firstday =>
      match count_changes (recentchanges today firstday) [] with
      | Raise e => (Fails (Builtin e), self)
      | Ok rcusers =>
          if later oldest_rc_timestamp firstday
          then (Fails ShortRecentChangesError, self)
          else
            let m := <["firstdate"%string := MStr (strftime_date firstday)]> (meta self) in
            let m := <["lastdate"%string := MStr (strftime_date today)]> m in
            let m := <["activeuserscount"%string :=
                         MJson (JInt (Z.of_nat (length rcusers)))]> m in
            (Done rcusers, set_meta self m)
      end
  end.

End find_active_users.

(** *** _update_recent_edit_counts *)

(** One turn of the loop: the count of the user, 0 for a user who is
    not in [rcusers]. *)
Definition update_user (rcusers : counts) (user : pydict) : result pydict :=
  match dict_get "name" user with
  | Some name =>
      k ← hash_key name;
      Ok (dict_set "recenteditcount" (PInt (default 0 (counts_get k rcusers))) user)
  | None => Raise (KeyError "name")
  end.

(** The records of [self.data] are written in place: those before the
    one at which the loop ends hold their count already. *)
Fixpoint _update_recent_edit_counts (rcusers : counts) (data : list pydict)
  : result unit * list pydict :=
  match data with
  | [] => (Ok tt, [])
  | user :: rest =>
      match update_user rcusers user with
      | Ok user' =>
          let '(r, rest') := _update_recent_edit_counts rcusers rest in (r, user' :: rest')
      | Raise e => (Raise e, user :: rest)
      end
  end.

(** *** init *)

Section init.
Context `{Serialization}.

Variable midnight : datetime -> datetime.
Variable minus_days : datetime -> Z -> option datetime.
Variable later : datetime -> datetime -> bool.
Variable strftime_date : datetime -> string.
Variable recentchanges : datetime -> datetime -> list pydict.
Variable oldest_rc_timestamp : datetime.

(** [self.api.list(list="allusers", ...)], and how [self.data] holds a
    list of records. *)
Variable allusers : list pydict.
Variable records : list pydict -> pydata.

(** [CacheDb._update_timestamp] *)
Definition _update_timestamp (utcnow : datetime) (self : cachedb) : cachedb :=
  set_meta self (<["timestamp"%string := MTime utcnow]> (meta self)).

(** Lines 45-48 of [init]; [autocommit] says whether [self.autocommit]
    is [True]. *)
Definition stamp_and_commit (autocommit : bool) (utcnow : datetime) (fault : io_fault)
    (self : cachedb) (dk : disk) : outcome unit * cachedb * disk :=
  let self := _update_timestamp utcnow self in
  if autocommit then
    let '(r, self, dk) := dump fault self dk in (of_result r, self, dk)
  else (Done tt, self, dk).

(** [utcnow] and [utcnow'] are what the two calls of
    [datetime.datetime.utcnow()] return. *)
Definition init (autocommit round_to_midnight : bool) (active_days : Z)
    (utcnow utcnow' : datetime) (fault : io_fault) (self : cachedb) (dk : disk)
  : outcome unit * cachedb * disk :=
  let self := CacheDb (meta self) (records allusers) in
  match _find_active_users midnight minus_days later strftime_date
          recentchanges oldest_rc_timestamp round_to_midnight active_days utcnow self with
  | (Done rcusers, self) =>
      match _update_recent_edit_counts rcusers allusers with
      | (Ok tt, data) =>
          stamp_and_commit autocommit utcnow' fault (CacheDb (meta self) (records data)) dk
      | (Raise e, data) => (Fails (Builtin e), CacheDb (meta self) (records data), dk)
      end
  | (Fails ShortRecentChangesError, self) =>
      stamp_and_commit autocommit utcnow' fault self dk
  | (Fails f, self) => (Fails f, self, dk)
  end.

End init.

(** *** Vocabulary of the statements below *)

(** What the loop of [count_changes] makes of the count a user had. *)
Definition counted (user : hkey) (rc : list pydict) (before : option Z) : option Z :=
  match changes_by user rc, before with
  | [], _ => before
  | changes, Some n => Some (n + Z.of_nat (length changes))
  | changes, None => Some (Z.of_nat (length changes))
  end.

End AllUsersProps.

(** The digits of a hex digest. *)
Definition is_hex (c : ascii) : bool :=
  let n := nat_of_ascii c in
  ((48 <=? n) && (n <=? 57) || (97 <=? n) && (n <=? 102))%nat.

(** ** Sample data *)

Module Samples.
Import Interwiki Cache PlainJson.

(** *** Log events of the interwiki grabber *)

Definition no_checks : iw_table_decl := IwTableDecl (fun _ => SqlNull) (fun _ => true).

Definition add_wp : logevent :=
  LogEvent 10 "interwiki" "iw_add"
    {[ "0" := "wp"; "1" := "https://en.wikipedia.org/wiki/$1"; "2" := "0"; "3" := "1" ]}%string.

Definition add_mw : logevent :=
  LogEvent 30 "interwiki" "iw_add"
    {[ "0" := "mw"; "1" := "https://www.mediawiki.org/wiki/$1"; "2" := "0"; "3" := "0" ]}%string.

Definition purge_event : logevent :=
  LogEvent 20 "interwiki" "iw_purge" {[ "0" := "wp" ]}%string.

Definition delete_without_prefix : logevent :=
  LogEvent 20 "interwiki" "iw_delete" ∅.

(** A mirror that holds three events and no interwiki row yet, and the same
    mirror once the operations of the events have been executed. *)
Definition log_db : database :=
  Database [add_wp; purge_event; add_mw] no_checks ∅.

Definition log_db_synced : database :=
  Database [add_wp; purge_event; add_mw] no_checks
    {[ "wp"%string :=
         IwRow (SqlText "https://en.wikipedia.org/wiki/$1") SqlNull (SqlBool true) (SqlBool false);
       "mw"%string :=
         IwRow (SqlText "https://www.mediawiki.org/wiki/$1") SqlNull (SqlBool false) (SqlBool false) ]}.

(** *** Protected titles, mirror side and source side *)

(** Four records: those of the mirror at the addresses 0 and 1, those
    of the source at 2 and 3. *)
Definition pt_store : Grab.store :=
  {[ 0%nat := [("title", PStr "Foo"); ("timestamp", PDatetime 1500000000000000)];
     1%nat := [("title", PStr "Bar"); ("timestamp", PDatetime 1500000100000000)];
     2%nat := [("title", PStr "Foo"); ("timestamp", PDatetime 1500000001000000)];
     3%nat := [("title", PStr "Bar"); ("timestamp", PDatetime 1500000101001000)] ]}%string.

(** The same once the first record has taken the timestamp of the third. *)
Definition pt_store_snapped : Grab.store :=
  {[ 0%nat := [("title", PStr "Foo"); ("timestamp", PDatetime 1500000001000000)];
     1%nat := [("title", PStr "Bar"); ("timestamp", PDatetime 1500000100000000)];
     2%nat := [("title", PStr "Foo"); ("timestamp", PDatetime 1500000001000000)];
     3%nat := [("title", PStr "Bar"); ("timestamp", PDatetime 1500000101001000)] ]}%string.

(** *** Partial records *)

(** The two partial records of the identity 1. *)
Definition partial_records : Grab.store :=
  {[ 0%nat := [("id", PInt 1); ("a", PInt 1)];
     1%nat := [("id", PInt 1); ("b", PInt 2)] ]}%string.

(** Three pages, the first and the last of which are the same page. *)
Definition partial_pages : Grab.store :=
  {[ 0%nat := [("pageid", PInt 7); ("title", PStr "A")];
     1%nat := [("pageid", PInt 9); ("title", PStr "B")];
     2%nat := [("pageid", PInt 7); ("length", PInt 120)] ]}%string.

(** *** Cache objects and payloads *)

Definition no_files : disk := Disk None None.

Definition fresh : cachedb := CacheDb ∅ PNone.

Definition users_v1 : cachedb :=
  CacheDb {[ "timestamp"%string := MTime (DateTime 2017 3 4 5 6 7 89) ]}
          (PList [PDict [("name", PStr "Alice"); ("editcount", PInt 12)]])%string.

Definition users_v2 : cachedb :=
  CacheDb {[ "timestamp"%string := MTime (DateTime 2017 3 5 0 0 0 0) ]}
          (PList [PDict [("name", PStr "Alice"); ("editcount", PInt 13)]])%string.

(** The payloads [[1, 2]] and [[1, 3]] differ in the one byte at
    position 4. *)
Definition payload : bytes := bytes_of_string "[1, 2]".
Definition payload_flipped : bytes := bytes_of_string "[1, 3]".

(** Two payloads of 128 bytes that differ in six of them and have one
    and the same MD5 sum (Wang and Yu, 2005). *)
Definition twin : bytes :=
  [ xd1; x31; xdd; x02; xc5; xe6; xee; xc4; x69; x3d; x9a; x06;
    x98; xaf; xf9; x5c; x2f; xca; xb5; x87; x12; x46; x7e; xab;
    x40; x04; x58; x3e; xb8; xfb; x7f; x89; x55; xad; x34; x06;
    x09; xf4; xb3; x02; x83; xe4; x88; x83; x25; x71; x41; x5a;
    x08; x51; x25; xe8; xf7; xcd; xc9; x9f; xd9; x1d; xbd; xf2;
    x80; x37; x3c; x5b; xd8; x82; x3e; x31; x56; x34; x8f; x5b;
    xae; x6d; xac; xd4; x36; xc9; x19; xc6; xdd; x53; xe2; xb4;
    x87; xda; x03; xfd; x02; x39; x63; x06; xd2; x48; xcd; xa0;
    xe9; x9f; x33; x42; x0f; x57; x7e; xe8; xce; x54; xb6; x70;
    x80; xa8; x0d; x1e; xc6; x98; x21; xbc; xb6; xa8; x83; x93;
    x96; xf9; x65; x2b; x6f; xf7; x2a; x70 ]%byte.

Definition twin_changed : bytes :=
  [ xd1; x31; xdd; x02; xc5; xe6; xee; xc4; x69; x3d; x9a; x06;
    x98; xaf; xf9; x5c; x2f; xca; xb5; x07; x12; x46; x7e; xab;
    x40; x04; x58; x3e; xb8; xfb; x7f; x89; x55; xad; x34; x06;
    x09; xf4; xb3; x02; x83; xe4; x88; x83; x25; xf1; x41; x5a;
    x08; x51; x25; xe8; xf7; xcd; xc9; x9f; xd9; x1d; xbd; x72;
    x80; x37; x3c; x5b; xd8; x82; x3e; x31; x56; x34; x8f; x5b;
    xae; x6d; xac; xd4; x36; xc9; x19; xc6; xdd; x53; xe2; x34;
    x87; xda; x03; xfd; x02; x39; x63; x06; xd2; x48; xcd; xa0;
    xe9; x9f; x33; x42; x0f; x57; x7e; xe8; xce; x54; xb6; x70;
    x80; x28; x0d; x1e; xc6; x98; x21; xbc; xb6; xa8; x83; x93;
    x96; xf9; x65; xab; x6f; xf7; x2a; x70 ]%byte.

(** A cache with a [datetime] in its data. *)
Definition users_v3 : cachedb :=
  CacheDb {[ "timestamp"%string := MTime (DateTime 2017 3 6 12 0 0 0) ]}
          (PList [PDict [("name", PStr "Alice");
                         ("registration", PDatetime 1500000000000000);
                         ("groups", PList [PStr "*"; PStr "user"]);
                         ("blocked", PBool false);
                         ("editcount", PInt 13)]])%string.

(** *** The interwiki map of a site *)

Definition site_map : interwikimap :=
  [ ("wp", {[ "prefix" := "wp"; "url" := "https://en.wikipedia.org/wiki/$1";
              "api" := "https://en.wikipedia.org/w/api.php"; "local" := EmptyString ]});
    ("mw", {[ "prefix" := "mw"; "url" := "https://www.mediawiki.org/wiki/$1" ]}) ]%string.

(** A map whose second entry has no url. *)
Definition site_map_without_url : interwikimap :=
  [ ("wp", {[ "prefix" := "wp"; "url" := "https://en.wikipedia.org/wiki/$1" ]});
    ("mw", {[ "prefix" := "mw" ]});
    ("doc", {[ "prefix" := "doc"; "url" := "https://docs.example.org/$1" ]}) ]%string.

(** A mirror with one row left from before, and the same after the
    full pass over [site_map]. *)
Definition site_db : database :=
  Database [] no_checks
    {[ "old"%string :=
         IwRow (SqlText "http://old.example.org/$1") SqlNull (SqlBool false) (SqlBool false) ]}.

Definition site_db_filled : database :=
  Database [] no_checks
    {[ "old"%string :=
         IwRow (SqlText "http://old.example.org/$1") SqlNull (SqlBool false) (SqlBool false);
       "wp"%string :=
         IwRow (SqlText "https://en.wikipedia.org/wiki/$1")
               (SqlText "https://en.wikipedia.org/w/api.php") (SqlBool true) (SqlBool false);
       "mw"%string :=
         IwRow (SqlText "https://www.mediawiki.org/wiki/$1") SqlNull
               (SqlBool false) (SqlBool false) ]}.

Definition delete_wp : logevent :=
  LogEvent 20 "interwiki" "iw_delete" {[ "0" := "wp" ]}%string.

(** *** Recent changes, mirror side and source side *)

Definition rc_db : list pydict :=
  [ [("rcid", PInt 1); ("pageid", PInt 7); ("patrolled", PStr EmptyString)];
    [("rcid", PInt 2); ("pageid", PInt 8); ("user", PStr "Alice")];
    [("rcid", PInt 3); ("pageid", PInt 9); ("user", PStr "Bob")] ]%string.

Definition rc_api : list pydict :=
  [ [("rcid", PInt 1); ("pageid", PInt 7); ("autopatrolled", PStr EmptyString)];
    [("rcid", PInt 2); ("pageid", PInt 8); ("user", PStr "Alicia")];
    [("rcid", PInt 4); ("pageid", PInt 5); ("user", PStr "Carol")];
    [("rcid", PInt 3); ("pageid", PInt 9); ("user", PStr "Bobby")] ]%string.

(** *** Pages in two orders *)

Definition pages_db : list pydict :=
  [ [("pageid", PInt 3); ("title", PStr "C")];
    [("pageid", PInt 1); ("title", PStr "A")];
    [("pageid", PInt 2); ("title", PStr "B")] ]%string.

Definition pages_api : list pydict :=
  [ [("pageid", PInt 2); ("title", PStr "B")];
    [("pageid", PInt 3); ("title", PStr "Cc")];
    [("pageid", PInt 1); ("title", PStr "A")] ]%string.

(** *** Links, one of them twice *)

Definition links : list pydict :=
  [ [("prefix", PStr "w"); ("*", PStr "Foo")];
    [("prefix", PStr "w"); ("*", PStr "Bar")];
    [("prefix", PStr "w"); ("*", PStr "Foo")] ]%string.

(** *** Pages with their categories *)

Definition categorized : list pydict :=
  [ [("pageid", PInt 1);
     ("categories", PList [PDict [("ns", PInt 14); ("title", PStr "Category:Hidden categories")];
                           PDict [("ns", PInt 14); ("title", PStr "Category:Help")]])];
    [("pageid", PInt 2);
     ("categories", PList [PDict [("ns", PInt 14); ("title", PStr "Category:Indexed pages")]])];
    [("pageid", PInt 3)] ]%string.

(** *** Users and their recent changes *)

Definition recent : list pydict :=
  [ [("user", PStr "Alice"); ("timestamp", PDatetime 1500000000000000)];
    [("user", PStr "Bob"); ("timestamp", PDatetime 1500000001000000)];
    [("user", PStr "Alice"); ("timestamp", PDatetime 1500000002000000)] ]%string.

Definition all_users : list pydict :=
  [ [("name", PStr "Alice"); ("editcount", PInt 12)];
    [("name", PStr "Carol"); ("editcount", PInt 3); ("recenteditcount", PInt 2)] ]%string.

End Samples.
(** * Theorems *)

(** ** ws/cache/__init__.py *)

(** The test suite of RFC 1321. *)
Example md5sum_empty : md5sum [] = "d41d8cd98f00b204e9800998ecf8427e"%string.
Proof. vm_compute. reflexivity. Qed.

Example md5sum_abc :
  md5sum (bytes_of_string "abc") = "900150983cd24fb0d6963f7d28e17f72"%string.
Proof. vm_compute. reflexivity. Qed.

Example md5sum_digits :
  md5sum (bytes_of_string
    "12345678901234567890123456789012345678901234567890123456789012345678901234567890")
  = "57edf4a22be3c955ac49da2e2107b67a"%string.
Proof. vm_compute. reflexivity. Qed.

Section cache.
Import Cache.
Context `{Serialization}.

Lemma json_dumps_meta_Ok (m : gmap string mval) (text : gmap string jval) :
  json_dumps_meta m = Ok text -> text = omap to_jval m.
Proof.
  unfold json_dumps_meta. destruct (forallb _ _); [|discriminate]. congruence.
Qed.

Lemma format_timestamp_other (m m' : gmap string mval) (k : string) :
  format_timestamp m = Ok m' -> k <> "timestamp"%string -> m' !! k = m !! k.
Proof.
  unfold format_timestamp. intros Hfmt Hk.
  destruct (m !! "timestamp"%string) as [[j|t]|]; try discriminate;
    injection Hfmt as <-; [|reflexivity].
  by rewrite lookup_insert_ne.
Qed.

Lemma parse_timestamp_other (m m' : gmap string mval) (k : string) :
  parse_timestamp m = Ok m' -> k <> "timestamp"%string -> m' !! k = m !! k.
Proof.
  unfold parse_timestamp. intros Hparse Hk.
  repeat case_match; simplify_eq; try reflexivity.
  by rewrite lookup_insert_ne.
Qed.

Lemma md5_differs_recorded (md5_new recorded : string) (m : gmap string mval) :
  m !! "md5"%string = Some (MStr recorded) ->
  md5_differs md5_new m = negb (String.eqb md5_new recorded).
Proof. unfold md5_differs. by intros ->. Qed.

(** [parse_timestamp] raises [ValueError] or [TypeError]. *)
Lemma parse_timestamp_raises (m : gmap string mval) :
  parse_timestamp m <> Raise CacheDbError.
Proof. unfold parse_timestamp. repeat case_match; discriminate. Qed.

Lemma meta_update_raises (f : metafile) (m : gmap string mval) :
  meta_update f m <> Raise CacheDbError.
Proof. destruct f as [o|l|[|c s]| |]; discriminate. Qed.

Lemma ended_raises (d : pydata) :
  ended (parse_timestamps_in_struct d).1 <> Raise CacheDbError.
Proof.
  pose proof (parse_timestamps_in_struct_raises d) as Hd.
  destruct (parse_timestamps_in_struct d).1; simpl; congruence.
Qed.

(** Lines 95-97 of [load] do not end in [CacheDbError]. *)
Lemma decode_raises (s : bytes) (m : gmap string mval) (self : cachedb) :
  match json_loads s with
  | Some d =>
      let '(raised, d) := parse_timestamps_in_struct d in
      (ended raised, CacheDb m d)
  | None => (Raise ValueError, self)
  end.1 <> Raise CacheDbError.
Proof.
  destruct (json_loads s) as [d|]; [|discriminate].
  pose proof (ended_raises d) as Hd.
  destruct (parse_timestamps_in_struct d). exact Hd.
Qed.

(** The ways [load] can end in [CacheDbError]: one. *)
Lemma load_CacheDbError (self : cachedb) (dk : disk) :
  (load self dk).1 = Raise CacheDbError <->
  exists s f m meta',
    dbpath dk = Some (GzStream s) /\
    metapath dk = Some f /\
    meta_update f (meta self) = Ok m /\
    parse_timestamp m = Ok meta' /\
    md5_differs (md5sum s) meta' = true.
Proof.
  unfold load, init. split.
  - destruct (dbpath dk) as [[s|[]]|]; simpl; try discriminate.
    destruct (metapath dk) as [f|]; simpl.
    + destruct (meta_update f (meta self)) as [m|e] eqn:Hupdate; simpl.
      * destruct (parse_timestamp m) as [meta'|e] eqn:Hparse; simpl.
        -- destruct (md5_differs _ _) eqn:Hmd5; simpl.
           ++ intros _. by exists s, f, m, meta'.
           ++ intros Hraised. by apply decode_raises in Hraised.
        -- intros [= ->]. by apply parse_timestamp_raises in Hparse.
      * intros [= ->]. by apply meta_update_raises in Hupdate.
    + intros Hraised. by apply decode_raises in Hraised.
  - intros (s & f & m & meta' & -> & -> & Hupdate & Hparse & Hmd5). simpl.
    rewrite Hupdate. simpl. rewrite Hparse. simpl. by rewrite Hmd5.
Qed.


(** C10. A payload file without a metadata file: [load] compares no
    checksum and cannot end in [CacheDbError]; it records the checksum
    of the payload as it found it under ["md5"], and takes as data
    whatever the payload decodes to - converted as far as
    [parse_timestamps_in_struct] got, if that is where the call ends. *)
Theorem load_without_meta_file (self : cachedb) (dk : disk) (s : bytes) :
  dbpath dk = Some (GzStream s) ->
  metapath dk = None ->
  (load self dk).1 <> Raise CacheDbError /\
  meta (load self dk).2 = <["md5"%string := MStr (md5sum s)]> (meta self) /\
  meta (load self dk).2 !! "md5"%string = Some (MStr (md5sum s)) /\
  match json_loads s with
  | Some d =>
      (load self dk).1 = ended (parse_timestamps_in_struct d).1 /\
      data (load self dk).2 = (parse_timestamps_in_struct d).2
  | None => (load self dk).1 = Raise ValueError /\ data (load self dk).2 = data self
  end.
Proof.
  intros Hdb Hmeta. unfold load. rewrite Hdb, Hmeta. simpl.
  destruct (json_loads s) as [d|]; simpl; [|by rewrite lookup_insert_eq].
  pose proof (ended_raises d) as Hd.
  destruct (parse_timestamps_in_struct d) as [raised d']. simpl in *.
  by rewrite lookup_insert_eq.
Qed.

(** After a [dump] that went through, [load] on the two files it wrote
    does not end in [CacheDbError], whatever object does the loading:
    the checksum it computes is that of the bytes [dump] wrote, and is
    the one [dump] recorded. When moreover the data and the timestamp
    are read back as they were written, [load] by an object with the
    metadata [dump] left, or with no metadata yet, returns and leaves in
    [self.data] the data that was dumped. *)
Lemma dump_then_load_of_the_files (self self' : cachedb) (dk dk' : disk) :
  dump NoFault self dk = (Ok tt, self', dk') ->
  (forall cache, (load cache dk').1 <> Raise CacheDbError) /\
  (reads_back (data self) ->
   (forall t, meta self !! "timestamp"%string = Some (MTime t) ->
              is_Some (strptime (strftime t))) ->
   forall cache,
     meta cache = meta self' \/ meta cache = ∅ ->
     (load cache dk').1 = Ok tt /\ data (load cache dk').2 = data self).
Proof.
  unfold dump. rewrite !decide_False by discriminate.
  destruct (json_dumps (data self)) as [s|] eqn:Hs; [|discriminate]. simpl.
  destruct (format_timestamp _) as [m|] eqn:Hfmt; [|discriminate].
  destruct (json_dumps_meta m) as [text|] eqn:Htext; [|discriminate].
  intros [= <- <-]. apply json_dumps_meta_Ok in Htext as ->.
  set (meta1 := <["md5"%string := MStr (md5sum s)]> (meta self)) in *.
  assert (Hm_md5 : m !! "md5"%string = Some (MStr (md5sum s))).
  { rewrite (format_timestamp_other _ _ _ Hfmt) by done. apply lookup_insert_eq. }
  assert (Hmd5 : forall cache,
             ((MJson <$> omap to_jval m) ∪ meta cache) !! "md5"%string
             = Some (MStr (md5sum s))).
  { intros cache. apply lookup_union_Some_l.
    rewrite lookup_fmap, lookup_omap, Hm_md5. reflexivity. }
  assert (Hchecked : forall cache meta3,
             parse_timestamp ((MJson <$> omap to_jval m) ∪ meta cache) = Ok meta3 ->
             md5_differs (md5sum s) meta3 = false).
  { intros cache meta3 Hparse. erewrite md5_differs_recorded.
    - by rewrite String.eqb_refl.
    - by rewrite (parse_timestamp_other _ _ _ Hparse). }
  split.
  - intros cache Hraised. apply load_CacheDbError in Hraised
      as (s0 & f & m0 & meta3 & Hdb & Hmeta & Hupdate & Hparse & Hdiffers).
    simpl in Hdb, Hmeta. injection Hdb as <-. injection Hmeta as <-.
    simpl in Hupdate. injection Hupdate as <-.
    by rewrite (Hchecked _ _ Hparse) in Hdiffers.
  - intros (s0 & d' & Hs0 & Hloads & Hconv) Hts cache Hcache.
    simpl in Hs0. rewrite Hs in Hs0. injection Hs0 as <-.
    assert (Hparse : exists meta3,
               parse_timestamp ((MJson <$> omap to_jval m) ∪ meta cache) = Ok meta3).
    { unfold parse_timestamp.
      unfold format_timestamp in Hfmt.
      destruct (meta1 !! "timestamp"%string) as [[j|t]|] eqn:Ht; [discriminate| |].
      - injection Hfmt as <-.
        assert (Hlook : ((MJson <$> omap to_jval
                            (<["timestamp"%string := MStr (strftime t)]> meta1))
                         ∪ meta cache) !! "timestamp"%string
                        = Some (MStr (strftime t))).
        { apply lookup_union_Some_l.
          rewrite lookup_fmap, lookup_omap, lookup_insert_eq. reflexivity. }
        rewrite Hlook. unfold MStr.
        destruct (Hts t) as [t' ->]; [|eauto].
        unfold meta1 in Ht. by rewrite lookup_insert_ne in Ht.
      - injection Hfmt as <-.
        assert (Hlook : ((MJson <$> omap to_jval meta1) ∪ meta cache)
                          !! "timestamp"%string = None).
        { apply lookup_union_None. rewrite lookup_fmap, lookup_omap, Ht.
          split; [done|]. destruct Hcache as [-> | ->]; [exact Ht | apply lookup_empty]. }
        rewrite Hlook. eauto. }
    destruct Hparse as [meta3 Hparse].
    unfold load. cbn [dbpath metapath gzip_read meta_update set_meta meta data].
    rewrite Hparse, (Hchecked _ _ Hparse), Hloads, Hconv. done.
Qed.


End cache.

(** ** The instance of the serialization: what it writes, it reads back *)

Section plain_json.
Import PlainJson.

Lemma chars_app (a b : string) : chars (a +:+ b) = chars a ++ chars b.
Proof. induction a as [|c a IH]; simpl; [done|]. by rewrite IH. Qed.

Lemma nat_of_digit_char (d : Z) :
  0 <= d -> nat_of_ascii (digit_char d) = Z.to_nat (48 + d mod 10).
Proof.
  intros Hd. unfold digit_char. apply nat_ascii_embedding.
  pose proof (Z.mod_pos_bound d 10). lia.
Qed.

Lemma digit_char_is_digit (d : Z) : 0 <= d -> is_digit (digit_char d) = true.
Proof.
  intros Hd. unfold is_digit. rewrite nat_of_digit_char by done.
  pose proof (Z.mod_pos_bound d 10).
  apply andb_true_intro; split; apply Nat.leb_le; lia.
Qed.

Lemma digit_char_value (d : Z) : 0 <= d -> digit_value (digit_char d) = d mod 10.
Proof.
  intros Hd. unfold digit_value. rewrite nat_of_digit_char by done.
  pose proof (Z.mod_pos_bound d 10). lia.
Qed.

Lemma digit_char_zero (d : Z) : 0 <= d -> digit_char d = "0"%char -> d mod 10 = 0.
Proof.
  intros Hd Hc. pose proof (nat_of_digit_char d Hd) as Hn.
  rewrite Hc in Hn. change (nat_of_ascii "0") with 48%nat in Hn.
  pose proof (Z.mod_pos_bound d 10). lia.
Qed.

(** Reading the digits [digits] wrote gives the number back. *)
Lemma parse_digits_digits (fuel : nat) : forall (n : Z) (acc : string) (rest : list ascii),
  0 <= n < 10 ^ Z.of_nat fuel ->
  exists k, 0 <= k /\ forall a,
    parse_digits a (chars (digits fuel n acc) ++ rest)
    = parse_digits (a * 10 ^ k + n) (chars acc ++ rest).
Proof.
  induction fuel as [|fuel IH]; intros n acc rest Hn.
  { exists 0. split; [done|]. intros a. simpl. do 2 f_equal. simpl in Hn. lia. }
  simpl digits. destruct (n <? 10) eqn:Hlt.
  - apply Z.ltb_lt in Hlt. exists 1. split; [lia|]. intros a. simpl.
    rewrite digit_char_is_digit, digit_char_value by lia.
    rewrite Z.mod_small by lia. f_equal. lia.
  - apply Z.ltb_ge in Hlt.
    destruct (IH (n / 10) (String (digit_char n) acc) rest) as (k & Hk & IHk).
    { split; [apply Z.div_pos; lia|].
      apply Z.div_lt_upper_bound; [lia|].
      rewrite Nat2Z.inj_succ, Z.pow_succ_r in Hn by lia. lia. }
    exists (k + 1). split; [lia|]. intros a. rewrite IHk. simpl.
    rewrite digit_char_is_digit, digit_char_value by lia.
    f_equal. rewrite Z.pow_add_r by lia.
    pose proof (Z.div_mod n 10). lia.
Qed.

(** The leading digit of a number from 1 on is not 0. *)
Lemma digits_head_pos (fuel : nat) : forall (q : Z) (acc : string),
  1 <= q < 10 ^ Z.of_nat fuel ->
  exists c cs, chars (digits fuel q acc) = c :: cs /\ is_digit c = true /\
    c <> "0"%char.
Proof.
  induction fuel as [|fuel IH]; intros q acc Hq.
  { simpl in Hq. lia. }
  simpl digits. destruct (q <? 10) eqn:Hlt.
  - apply Z.ltb_lt in Hlt. exists (digit_char q), (chars acc). simpl.
    split; [done|]. split; [apply digit_char_is_digit; lia|].
    intros Hz. apply digit_char_zero in Hz; [|lia].
    rewrite Z.mod_small in Hz by lia. lia.
  - apply Z.ltb_ge in Hlt. apply IH. split.
    + apply Z.div_le_lower_bound; lia.
    + apply Z.div_lt_upper_bound; [lia|].
      rewrite Nat2Z.inj_succ, Z.pow_succ_r in Hq by lia. lia.
Qed.

Lemma digits_head (fuel : nat) (n : Z) (acc : string) :
  0 <= n < 10 ^ Z.of_nat (S fuel) ->
  exists c cs, chars (digits (S fuel) n acc) = c :: cs /\ is_digit c = true /\
    (c = "0"%char -> cs = chars acc).
Proof.
  intros Hn. destruct (decide (n = 0)) as [->|Hne].
  - exists "0"%char, (chars acc). done.
  - destruct (digits_head_pos (S fuel) n acc ltac:(lia)) as (c & cs & ? & ? & ?).
    exists c, cs. done.
Qed.

Lemma log2_fuel (n : Z) : 0 <= n -> 0 <= n < 10 ^ Z.of_nat (S (Z.to_nat (Z.log2 n))).
Proof.
  intros Hn. split; [done|].
  rewrite Nat2Z.inj_succ, Z2Nat.id by apply Z.log2_nonneg.
  destruct (decide (n = 0)) as [->|Hne]; [done|].
  pose proof (Z.log2_spec n ltac:(lia)) as [_ Hlt].
  eapply Z.lt_le_trans; [exact Hlt|].
  apply Z.pow_le_mono_l. pose proof (Z.log2_nonneg n). lia.
Qed.

Lemma parse_int_magnitude (n : Z) (rest : list ascii) :
  0 <= n -> follows rest ->
  parse_int (chars (digits (S (Z.to_nat (Z.log2 n))) n EmptyString) ++ rest)
  = Some (n, rest).
Proof.
  intros Hn Hrest. pose proof (log2_fuel n Hn) as Hfuel.
  destruct (digits_head _ n EmptyString Hfuel) as (c & cs & Hcs & Hc & Hzero).
  destruct (parse_digits_digits _ n EmptyString rest Hfuel) as (k & Hk & Hparse).
  specialize (Hparse 0). rewrite Z.mul_0_l, Z.add_0_l in Hparse.
  change (chars EmptyString ++ rest) with rest in Hparse.
  assert (Hstop : parse_digits n rest = (n, rest)).
  { destruct rest as [|r rest]; [done|]. simpl.
    destruct Hrest as [->|[->| ->]]; done. }
  rewrite Hstop in Hparse.
  rewrite Hcs in *. simpl app in *. unfold parse_int. rewrite Hc, Hparse.
  assert (Hlead : Ascii.eqb c "0" &&
    match cs ++ rest with c' :: _ => is_digit c' | [] => false end = false).
  { destruct (Ascii.eqb_spec c "0"%char) as [Hz|]; [|done].
    rewrite (Hzero Hz). simpl.
    destruct rest as [|r rest]; [done|].
    destruct Hrest as [->|[->| ->]]; done. }
  rewrite Hlead.
  destruct rest as [|r rest]; [done|].
  destruct Hrest as [->|[->| ->]]; done.
Qed.

(** Reading an escaped character gives the character back. *)
Lemma parse_string_escape_char (c : ascii) (fuel : nat) (tl : list ascii) :
  parse_string (S fuel) (chars (escape_char c) ++ tl)
  = '(s, rest) ← parse_string fuel tl; Some (String c s, rest).
Proof.
  destruct c as [[] [] [] [] [] [] [] []]; reflexivity.
Qed.

Lemma parse_string_escape (s : string) : forall (fuel : nat) (tl : list ascii),
  (length (chars s) < fuel)%nat ->
  parse_string fuel (chars (escape s) ++ dquote :: tl) = Some (s, tl).
Proof.
  induction s as [|c s IH]; intros fuel tl Hfuel.
  - destruct fuel as [|fuel]; [simpl in Hfuel; lia|]. reflexivity.
  - destruct fuel as [|fuel]; [simpl in Hfuel; lia|].
    simpl escape. rewrite chars_app, <- app_assoc, parse_string_escape_char.
    rewrite IH by (simpl in Hfuel; lia). reflexivity.
Qed.

Lemma length_escape (s : string) : (length (chars s) <= length (chars (escape s)))%nat.
Proof.
  induction s as [|c s IH]; simpl; [done|].
  rewrite chars_app, length_app.
  assert (1 <= length (chars (escape_char c)))%nat; [|lia].
  destruct c as [[] [] [] [] [] [] [] []]; simpl; lia.
Qed.


Lemma pyval_nested_ind (P : pyval -> Prop) :
  P PNone -> (forall b, P (PBool b)) -> (forall n, P (PInt n)) ->
  (forall s, P (PStr s)) -> (forall us, P (PDatetime us)) ->
  (forall l, Forall P l -> P (PList l)) ->
  (forall d, Forall (fun kv => P kv.2) d -> P (PDict d)) ->
  forall v, P v.
Proof.
  intros HNone HBool HInt HStr HTime HList HDict.
  fix IH 1. intros [ |b|n|s|us|l|d].
  - exact HNone.
  - apply HBool.
  - apply HInt.
  - apply HStr.
  - apply HTime.
  - apply HList. induction l as [|x l IHl]; constructor; [apply IH|exact IHl].
  - apply HDict. induction d as [|[k x] d IHd]; constructor; [apply IH|exact IHd].
Qed.

Lemma dumps_PList (l : list pyval) :
  dumps (PList l) = inner ← dumps_elements l; Some ("[" +:+ inner +:+ "]")%string.
Proof. reflexivity. Qed.

Lemma dumps_PDict (d : pydict) :
  dumps (PDict d) = inner ← dumps_members d; Some ("{" +:+ inner +:+ "}")%string.
Proof. reflexivity. Qed.

(** The equations of the parser on what [dumps] writes. *)
Lemma parse_value_ws (fuel : nat) (cs : list ascii) :
  parse_value fuel (" "%char :: cs) = parse_value fuel cs.
Proof. destruct fuel; reflexivity. Qed.

Lemma parse_members_ws (fuel : nat) (cs : list ascii) (d : pydict) :
  parse_members fuel (" "%char :: cs) d = parse_members fuel cs d.
Proof. destruct fuel; reflexivity. Qed.

Lemma parse_elements_ws (fuel : nat) (cs : list ascii) :
  parse_elements fuel (" "%char :: cs) = parse_elements fuel cs.
Proof. destruct fuel as [|fuel]; [done|]. simpl. by rewrite parse_value_ws. Qed.

Lemma parse_value_digit (fuel : nat) (c : ascii) (cs : list ascii) :
  is_digit c = true ->
  parse_value (S fuel) (c :: cs) = '(n, rest) ← parse_int (c :: cs); Some (PInt n, rest).
Proof.
  destruct c as [[] [] [] [] [] [] [] []]; intros Hc; try discriminate Hc; reflexivity.
Qed.

Lemma parse_value_elements (fuel : nat) (c : ascii) (cs : list ascii) :
  value_start c = true ->
  parse_value (S fuel) ("["%char :: c :: cs)
  = '(l, rest) ← parse_elements fuel (c :: cs); Some (PList l, rest).
Proof.
  destruct c as [[] [] [] [] [] [] [] []]; intros Hc; try discriminate Hc; reflexivity.
Qed.

Lemma is_digit_value_start (c : ascii) : is_digit c = true -> value_start c = true.
Proof.
  destruct c as [[] [] [] [] [] [] [] []]; intros Hc; try discriminate Hc; reflexivity.
Qed.


Lemma parse_value_members (fuel : nat) (cs : list ascii) :
  parse_value (S fuel) ("{"%char :: dquote :: cs)
  = '(d, rest) ← parse_members fuel (dquote :: cs) []; Some (datetime_parser d, rest).
Proof. reflexivity. Qed.

Lemma datetime_parser_PDict (d d' : pydict) : datetime_parser d = PDict d' -> d' = d.
Proof.
  unfold datetime_parser. intros Hd.
  destruct d as [|[k [ |b|n|s|us|l|e]] [|kv d]]; try (by injection Hd).
  destruct (String.eqb k datetime_key); [discriminate|by injection Hd].
Qed.

Lemma dict_set_new (k : string) (x : pyval) (d : pydict) :
  k ∉ d.*1 -> dict_set k x d = d ++ [(k, x)].
Proof.
  induction d as [|[k' x'] d IH]; intros Hk; [reflexivity|]. simpl in *.
  apply not_elem_of_cons in Hk as [Hne Hk].
  destruct (String.eqb_spec k' k) as [->|_]; [done|]. by rewrite IH.
Qed.

(** The first character of a written value. *)
Lemma dumps_head (v : pyval) (text : string) :
  dumps v = Some text ->
  exists c cs, chars text = c :: cs /\ value_start c = true.
Proof.
  destruct v as [ |[]|n|s|us|l|d]; simpl; intros Hv.
  - injection Hv as <-. by eexists _, _.
  - injection Hv as <-. by eexists _, _.
  - injection Hv as <-. by eexists _, _.
  - injection Hv as <-. unfold decimal. destruct (n <? 0) eqn:Hn.
    + by eexists _, _.
    + apply Z.ltb_ge in Hn.
      destruct (digits_head _ n EmptyString (log2_fuel n Hn)) as (c & cs & -> & Hc & _).
      exists c, cs. split; [done|]. by apply is_digit_value_start.
  - injection Hv as <-. by eexists _, _.
  - injection Hv as <-. by eexists _, _.
  - destruct (_ l) as [inner|]; [|discriminate]. injection Hv as <-. by eexists _, _.
  - destruct (_ d) as [inner|]; [|discriminate]. injection Hv as <-. by eexists _, _.
Qed.

Lemma dumps_elements_head (l : list pyval) (inner : string) :
  l <> [] -> dumps_elements l = Some inner ->
  exists c cs, chars inner = c :: cs /\ value_start c = true.
Proof.
  destruct l as [|x [|y l]]; [done| |]; intros _; simpl.
  - apply dumps_head.
  - destruct (dumps x) as [sx|] eqn:Hx; [|discriminate]. simpl.
    destruct (match l with [] => _ | _ => _ end) as [sr|]; [|discriminate].
    simpl. intros [= <-]. destruct (dumps_head x sx Hx) as (c & cs & Hcs & Hc).
    rewrite chars_app, Hcs. by eexists _, _.
Qed.

Lemma dumps_members_head (d : pydict) (inner : string) :
  d <> [] -> dumps_members d = Some inner ->
  exists cs, chars inner = dquote :: cs.
Proof.
  destruct d as [|[k x] [|kv d]]; [done| |]; intros _; simpl.
  - destruct (dumps x) as [sx|]; [|discriminate]. simpl. intros [= <-]. by eexists.
  - destruct (dumps x) as [sx|]; [|discriminate]. simpl.
    destruct (match kv with (_, _) => _ end) as [sr|]; [|discriminate].
    simpl. intros [= <-]. by eexists.
Qed.

Lemma chars_quoted (s : string) : chars (quoted s) = dquote :: chars (escape s) ++ [dquote].
Proof. unfold quoted. simpl. by rewrite chars_app. Qed.

Lemma parse_value_literal_string (s : string) (fuel : nat) (rest : list ascii) :
  parse_value (S fuel) (chars (quoted s) ++ rest) = Some (PStr s, rest).
Proof.
  rewrite chars_quoted. cbn [app]. rewrite <- app_assoc. cbn [app].
  change (parse_value (S fuel) (dquote :: ?cs))
    with ('(s, rest') ← parse_string (S (length cs)) cs; Some (PStr s, rest')).
  rewrite parse_string_escape; [reflexivity|].
  rewrite length_app. pose proof (length_escape s). simpl. lia.
Qed.

Lemma parsed_back_scalar (v : pyval) :
  match v with PList _ | PDict _ | PDatetime _ => False | _ => True end ->
  parsed_back v.
Proof.
  intros Hv text fuel rest Htext Hfuel Hrest.
  destruct fuel as [|fuel]; [lia|].
  destruct v as [ |[]|n|s|us|l|d]; try done; simpl in Htext; injection Htext as <-.
  - reflexivity.
  - reflexivity.
  - reflexivity.
  - unfold decimal. destruct (n <? 0) eqn:Hn.
    + apply Z.ltb_lt in Hn. cbn [list_ascii_of_string app].
      change (parse_value (S fuel) ("-"%char :: ?cs))
        with ('(n, rest') ← parse_int cs; Some (PInt (- n), rest')).
      rewrite parse_int_magnitude by (done || lia). simpl. do 3 f_equal. lia.
    + apply Z.ltb_ge in Hn.
      destruct (digits_head _ n EmptyString (log2_fuel n Hn)) as (c & cs & Hcs & Hc & _).
      pose proof (parse_int_magnitude n rest Hn Hrest) as Hparse.
      rewrite Hcs in *. cbn [app] in *.
      rewrite parse_value_digit by done. by rewrite Hparse.
  - apply parse_value_literal_string.
Qed.

Lemma parse_elements_written (l : list pyval) :
  Forall parsed_back l -> l <> [] ->
  forall (inner : string) (fuel : nat) (rest : list ascii),
    dumps_elements l = Some inner ->
    (length (chars inner) + 1 < fuel)%nat ->
    parse_elements fuel (chars inner ++ "]"%char :: rest) = Some (l, rest).
Proof.
  induction 1 as [|x l Hx Hl IH]; [done|]. intros _ inner fuel rest Hinner Hfuel.
  destruct fuel as [|fuel]; [lia|].
  destruct l as [|y l].
  - simpl in Hinner. cbn [parse_elements].
    rewrite (Hx inner fuel ("]"%char :: rest) Hinner) by (lia || (simpl; auto)).
    reflexivity.
  - change (dumps_elements (x :: y :: l))
      with (sx ← dumps x; sr ← dumps_elements (y :: l); Some (sx +:+ ", " +:+ sr)%string)
      in Hinner.
    destruct (dumps x) as [sx|] eqn:Hsx; [|discriminate].
    destruct (dumps_elements (y :: l)) as [sr|] eqn:Hsr; [|discriminate].
    injection Hinner as <-.
    rewrite !chars_app, !length_app in *. cbn [list_ascii_of_string length app] in *.
    rewrite <- !app_assoc. cbn [app].
    cbn [parse_elements].
    rewrite (Hx sx fuel (","%char :: " "%char :: chars sr ++ "]"%char :: rest) Hsx)
      by (lia || (simpl; auto)).
    cbn [mbind option_bind].
    change (skip_ws (","%char :: ?cs)) with (","%char :: cs). cbv iota beta.
    rewrite parse_elements_ws, (IH ltac:(done) sr fuel rest eq_refl) by lia.
    reflexivity.
Qed.

Lemma parse_members_written (d : pydict) :
  Forall (fun kv => parsed_back kv.2) d -> d <> [] ->
  forall (inner : string) (fuel : nat) (rest : list ascii) (acc : pydict),
    dumps_members d = Some inner ->
    NoDup (acc.*1 ++ d.*1) ->
    (length (chars inner) + 1 < fuel)%nat ->
    parse_members fuel (chars inner ++ "}"%char :: rest) acc = Some (acc ++ d, rest).
Proof.
  induction 1 as [|[k x] d Hx Hd IH]; [done|]. intros _ inner fuel rest acc Hinner Hkeys Hfuel.
  destruct fuel as [|fuel]; [lia|]. simpl in Hx.
  assert (Hk : k ∉ acc.*1).
  { apply NoDup_app in Hkeys as (_ & Hsep & _). intros Hin. apply (Hsep k Hin). by left. }
  assert (Hread : forall (sx : string) (tl : list ascii),
             dumps x = Some sx -> (length (chars sx) < fuel)%nat -> follows tl ->
             parse_members (S fuel) (chars (quoted k +:+ ": " +:+ sx) ++ tl) acc
             = match skip_ws tl with
               | ","%char :: rest' => parse_members fuel rest' (acc ++ [(k, x)])
               | "}"%char :: rest' => Some (acc ++ [(k, x)], rest')
               | _ => None
               end).
  { intros sx tl Hsx Hlen Htl.
    rewrite !chars_app, chars_quoted. cbn [list_ascii_of_string].
    rewrite <- !app_assoc. cbn [app].
    change (parse_members (S fuel) (dquote :: ?cs) acc)
      with ('(k, rest) ← parse_string (S (length cs)) cs;
            rest ← expect ":" (skip_ws rest);
            '(x, rest) ← parse_value fuel rest;
            let d := dict_set k x acc in
            match skip_ws rest with
            | ","%char :: rest' => parse_members fuel rest' d
            | "}"%char :: rest' => Some (d, rest')
            | _ => None
            end).
    rewrite <- !app_assoc. cbn [app].
    rewrite parse_string_escape
      by (rewrite length_app; pose proof (length_escape k); simpl; lia).
    cbn [mbind option_bind]. change (skip_ws (":"%char :: ?cs)) with (":"%char :: cs).
    cbn [expect Ascii.eqb Bool.eqb]. cbv iota beta. cbn [mbind option_bind].
    rewrite parse_value_ws, (Hx sx fuel tl Hsx Hlen Htl).
    cbn [mbind option_bind]. cbv zeta. by rewrite dict_set_new. }
  destruct d as [|[k' x'] d].
  - simpl in Hinner. destruct (dumps x) as [sx|] eqn:Hsx; [|discriminate].
    injection Hinner as <-.
    rewrite Hread; [reflexivity|done| |simpl; auto].
    rewrite !chars_app, !length_app in Hfuel. lia.
  - change (dumps_members ((k, x) :: (k', x') :: d))
      with (sx ← dumps x; sr ← dumps_members ((k', x') :: d);
            Some (quoted k +:+ ": " +:+ sx +:+ ", " +:+ sr)%string) in Hinner.
    destruct (dumps x) as [sx|] eqn:Hsx; [|discriminate].
    destruct (dumps_members ((k', x') :: d)) as [sr|] eqn:Hsr; [|discriminate].
    injection Hinner as <-.
    assert (Hchars : chars (quoted k +:+ ": " +:+ sx +:+ ", " +:+ sr)
                     = chars (quoted k +:+ ": " +:+ sx) ++ ","%char :: " "%char :: chars sr).
    { rewrite !chars_app, <- !app_assoc. reflexivity. }
    rewrite Hchars in *. rewrite length_app in Hfuel. rewrite <- app_assoc.
    assert (Hlens : (length (chars sx) <= length (chars (quoted k +:+ ": " +:+ sx)))%nat).
    { rewrite !chars_app, !length_app. lia. }
    cbn [length app] in *.
    rewrite Hread; [|done|lia|simpl; auto].
    change (skip_ws (","%char :: ?cs)) with (","%char :: cs). cbv iota beta.
    rewrite parse_members_ws, (IH ltac:(done) sr fuel rest (acc ++ [(k, x)]) eq_refl).
    + by rewrite <- app_assoc.
    + rewrite fmap_app, <- app_assoc. exact Hkeys.
    + lia.
Qed.

(** An object is read and handed to the hook. *)
Lemma parse_value_object (d : pydict) (text : string) (fuel : nat) (rest : list ascii) :
  Forall (fun kv => parsed_back kv.2) d ->
  NoDup d.*1 ->
  dumps (PDict d) = Some text ->
  (length (chars text) < fuel)%nat ->
  parse_value fuel (chars text ++ rest) = Some (datetime_parser d, rest).
Proof.
  intros Hd Hkeys Htext Hfuel. rewrite dumps_PDict in Htext.
  destruct (dumps_members d) as [inner|] eqn:Hinner; [|discriminate].
  injection Htext as <-. destruct fuel as [|fuel]; [lia|].
  rewrite !chars_app, !length_app in Hfuel. rewrite !chars_app, <- !app_assoc.
  cbn [list_ascii_of_string length app] in *.
  destruct (decide (d = [])) as [->|Hne].
  { injection Hinner as <-. reflexivity. }
  destruct (dumps_members_head d inner Hne Hinner) as (cs & Hcs).
  pose proof (parse_members_written d Hd Hne inner fuel rest [] Hinner Hkeys ltac:(lia))
    as Hparse.
  rewrite Hcs in *. cbn [app] in *.
  rewrite parse_value_members, Hparse. reflexivity.
Qed.

(** What [dumps] writes of a value that can be stored is read as the
    value. *)
Lemma storable_parsed_back (v : pyval) : storable v = true -> parsed_back v.
Proof.
  induction v as [ |b|n|s|us|l IH|d IH] using pyval_nested_ind; intros Hv;
    try (by apply parsed_back_scalar).
  - intros text fuel rest Htext Hfuel Hrest.
    change (dumps (PDatetime us)) with (dumps (PDict [(datetime_key, PInt us)])) in Htext.
    rewrite (parse_value_object [(datetime_key, PInt us)] text fuel rest); try done.
    + constructor; [|constructor]. by apply parsed_back_scalar.
    + apply NoDup_singleton.
  - intros text fuel rest Htext Hfuel Hrest. rewrite dumps_PList in Htext.
    destruct (dumps_elements l) as [inner|] eqn:Hinner; [|discriminate].
    injection Htext as <-. destruct fuel as [|fuel]; [lia|].
    rewrite !chars_app, !length_app in Hfuel. rewrite !chars_app, <- !app_assoc.
    cbn [list_ascii_of_string length app] in *.
    destruct (decide (l = [])) as [->|Hne].
    { injection Hinner as <-. reflexivity. }
    assert (Hall : Forall parsed_back l).
    { simpl in Hv. rewrite forallb_forall in Hv.
      rewrite Forall_forall in IH |- *. intros x Hx. apply IH; [done|].
      apply Hv. by apply list_elem_of_In. }
    destruct (dumps_elements_head l inner Hne Hinner) as (c & cs & Hcs & Hc).
    pose proof (parse_elements_written l Hall Hne inner fuel rest Hinner ltac:(lia))
      as Hparse.
    rewrite Hcs in *. cbn [app] in *.
    rewrite parse_value_elements, Hparse by done. reflexivity.
  - intros text fuel rest Htext Hfuel Hrest.
    simpl in Hv. apply andb_prop in Hv as [Hv Hvalues]. apply andb_prop in Hv as [Hkeys Hhook].
    apply bool_decide_eq_true in Hkeys.
    rewrite (parse_value_object d text fuel rest); try done.
    + destruct (datetime_parser d) as [ | | | | | |d'] eqn:Hd; try discriminate.
      by apply datetime_parser_PDict in Hd as ->.
    + rewrite forallb_forall in Hvalues.
      rewrite Forall_forall in IH |- *. intros kv Hkv. apply IH; [done|].
      apply Hvalues. by apply list_elem_of_In.
Qed.

(** [dumps] writes every value. *)
Lemma dumps_total (v : pyval) : is_Some (dumps v).
Proof.
  induction v as [ |[]|n|s|us|l IH|d IH] using pyval_nested_ind; try (by eexists).
  - rewrite dumps_PList.
    assert (Hl : is_Some (dumps_elements l)); [|destruct Hl as [inner ->]; by eexists].
    induction IH as [|x l [sx Hx] _ [sr Hr]]; [by eexists|].
    destruct l as [|y l]; simpl; [by eexists|].
    change (dumps_elements (y :: l)) with
      (match l with [] => dumps y | _ => sx ← dumps y; sr ← dumps_elements l; Some (sx +:+ ", " +:+ sr)%string end) in Hr.
    rewrite Hx. simpl in *. rewrite Hr. by eexists.
  - rewrite dumps_PDict.
    assert (Hd : is_Some (dumps_members d)); [|destruct Hd as [inner ->]; by eexists].
    induction IH as [|[k x] d [sx Hx] _ [sr Hr]]; [by eexists|].
    simpl in Hx. destruct d as [|[k' y] d]; simpl; rewrite Hx; simpl; [by eexists|].
    simpl in Hr. rewrite Hr. by eexists.
Qed.

(** [dumps] writes seven-bit text. *)
Lemma escape_char_seven_bit (c : ascii) :
  forallb seven_bit (chars (escape_char c)) = true.
Proof. destruct c as [[] [] [] [] [] [] [] []]; reflexivity. Qed.

Lemma forallb_chars_app (f : ascii -> bool) (a b : string) :
  forallb f (chars (a +:+ b)) = forallb f (chars a) && forallb f (chars b).
Proof. by rewrite chars_app, forallb_app. Qed.

Lemma escape_seven_bit (s : string) : forallb seven_bit (chars (escape s)) = true.
Proof.
  induction s as [|c s IH]; [reflexivity|]. simpl.
  by rewrite forallb_chars_app, escape_char_seven_bit, IH.
Qed.

Lemma quoted_seven_bit (s : string) : forallb seven_bit (chars (quoted s)) = true.
Proof.
  rewrite chars_quoted. simpl. by rewrite forallb_app, escape_seven_bit.
Qed.

Lemma digit_char_seven_bit (n : Z) : seven_bit (digit_char n) = true.
Proof.
  unfold seven_bit, digit_char. rewrite nat_ascii_embedding.
  - pose proof (Z.mod_pos_bound n 10). apply Nat.ltb_lt. lia.
  - pose proof (Z.mod_pos_bound n 10). lia.
Qed.

Lemma digits_seven_bit (fuel : nat) : forall (n : Z) (acc : string),
  forallb seven_bit (chars acc) = true ->
  forallb seven_bit (chars (digits fuel n acc)) = true.
Proof.
  induction fuel as [|fuel IH]; intros n acc Hacc; [done|]. simpl.
  destruct (n <? 10).
  - simpl. by rewrite digit_char_seven_bit.
  - apply IH. simpl. by rewrite digit_char_seven_bit.
Qed.

Lemma decimal_seven_bit (n : Z) : forallb seven_bit (chars (decimal n)) = true.
Proof.
  unfold decimal. destruct (n <? 0).
  - change (chars (String "-" ?s)) with ("-"%char :: chars s).
    cbn [forallb]. by rewrite digits_seven_bit.
  - by apply digits_seven_bit.
Qed.

Lemma dumps_seven_bit (v : pyval) (text : string) :
  dumps v = Some text -> forallb seven_bit (chars text) = true.
Proof.
  revert text.
  induction v as [ |[]|n|s|us|l IH|d IH] using pyval_nested_ind; intros text Hv;
    try (simpl in Hv; injection Hv as <-).
  - reflexivity.
  - reflexivity.
  - reflexivity.
  - apply decimal_seven_bit.
  - apply quoted_seven_bit.
  - rewrite !forallb_chars_app, quoted_seven_bit, decimal_seven_bit. reflexivity.
  - rewrite dumps_PList in Hv.
    destruct (dumps_elements l) as [inner|] eqn:Hinner; [|discriminate].
    injection Hv as <-. rewrite !forallb_chars_app. simpl. rewrite andb_true_r.
    revert inner Hinner. induction IH as [|x l Hx _ IHl]; intros inner Hinner.
    + by injection Hinner as <-.
    + destruct l as [|y l]; [by apply Hx|].
      change (dumps_elements (x :: y :: l))
        with (sx ← dumps x; sr ← dumps_elements (y :: l); Some (sx +:+ ", " +:+ sr)%string)
        in Hinner.
      destruct (dumps x) as [sx|]; [|discriminate].
      destruct (dumps_elements (y :: l)) as [sr|]; [|discriminate].
      injection Hinner as <-.
      rewrite !forallb_chars_app, (Hx sx eq_refl), (IHl sr eq_refl). reflexivity.
  - rewrite dumps_PDict in Hv.
    destruct (dumps_members d) as [inner|] eqn:Hinner; [|discriminate].
    injection Hv as <-. rewrite !forallb_chars_app. simpl. rewrite andb_true_r.
    revert inner Hinner. induction IH as [|[k x] d Hx _ IHd]; intros inner Hinner.
    + by injection Hinner as <-.
    + simpl in Hx. destruct d as [|[k' y] d].
      * simpl in Hinner. destruct (dumps x) as [sx|]; [|discriminate].
        injection Hinner as <-.
        rewrite !forallb_chars_app, quoted_seven_bit, (Hx sx eq_refl). reflexivity.
      * change (dumps_members ((k, x) :: (k', y) :: d))
          with (sx ← dumps x; sr ← dumps_members ((k', y) :: d);
                Some (quoted k +:+ ": " +:+ sx +:+ ", " +:+ sr)%string) in Hinner.
        destruct (dumps x) as [sx|]; [|discriminate].
        destruct (dumps_members ((k', y) :: d)) as [sr|]; [|discriminate].
        injection Hinner as <-.
        rewrite !forallb_chars_app, quoted_seven_bit, (Hx sx eq_refl), (IHd sr eq_refl).
        reflexivity.
Qed.

Lemma seven_bit_byte (c : ascii) :
  seven_bit c = true -> (Byte.to_N (byte_of_ascii c) <? 128)%N = true.
Proof. destruct c as [[] [] [] [] [] [] [] []]; intros Hc; try discriminate Hc; reflexivity. Qed.

Lemma ascii_only_bytes (text : string) :
  forallb seven_bit (chars text) = true -> ascii_only (bytes_of_string text) = true.
Proof.
  unfold ascii_only, bytes_of_string, list_byte_of_string.
  induction (chars text) as [|c cs IH]; [done|]. simpl.
  intros [Hc Hcs]%andb_prop. by rewrite seven_bit_byte, IH.
Qed.

(** Reading what was written gives the value back. *)
Lemma json_loads_dumps (v : pyval) :
  storable v = true ->
  exists s, json_dumps v = Some s /\ json_loads s = Some v.
Proof.
  intros Hv. destruct (dumps_total v) as [text Htext].
  exists (bytes_of_string text). unfold json_dumps, json_loads. rewrite Htext.
  split; [reflexivity|].
  rewrite ascii_only_bytes by (by eapply dumps_seven_bit).
  unfold bytes_of_string. rewrite string_of_list_byte_of_string. unfold loads.
  pose proof (storable_parsed_back v Hv text (S (length (chars text))) [] Htext
                ltac:(lia) I) as Hparse.
  rewrite app_nil_r in Hparse. cbv zeta. rewrite Hparse. reflexivity.
Qed.

Lemma storable_reads_back (v : pyval) :
  storable v = true -> @Cache.reads_back serialization v.
Proof.
  intros Hv. destruct (json_loads_dumps v Hv) as (s & Hs & Hloads).
  exists s, v. done.
Qed.

(** *** Timestamps *)

Lemma fixed_digits_padded (w : nat) : forall (k : nat) (n a : Z) (acc : string) (rest : list ascii),
  0 <= n < 10 ^ Z.of_nat w ->
  fixed_digits (w + k) a (chars (padded w n acc) ++ rest)
  = fixed_digits k (a * 10 ^ Z.of_nat w + n) (chars acc ++ rest).
Proof.
  induction w as [|w IH]; intros k n a acc rest Hn.
  { simpl in *. do 2 f_equal. lia. }
  rewrite Nat2Z.inj_succ, Z.pow_succ_r in * by lia.
  cbn [padded]. replace (S w + k)%nat with (w + S k)%nat by lia.
  rewrite IH.
  - cbn [list_ascii_of_string app fixed_digits].
    rewrite digit_char_is_digit, digit_char_value by lia. f_equal.
    pose proof (Z.div_mod n 10). lia.
  - split; [apply Z.div_pos; lia|]. apply Z.div_lt_upper_bound; lia.
Qed.

Lemma fraction_padded (w : nat) : forall (k : nat) (n a : Z) (acc : string),
  0 <= n < 10 ^ Z.of_nat w ->
  fraction (w + k) a (chars (padded w n acc))
  = fraction k (a * 10 ^ Z.of_nat w + n) (chars acc).
Proof.
  induction w as [|w IH]; intros k n a acc Hn.
  { simpl in *. do 2 f_equal. lia. }
  rewrite Nat2Z.inj_succ, Z.pow_succ_r in * by lia.
  cbn [padded]. replace (S w + k)%nat with (w + S k)%nat by lia.
  rewrite IH.
  - cbn [list_ascii_of_string fraction].
    rewrite digit_char_is_digit, digit_char_value by lia. f_equal.
    pose proof (Z.div_mod n 10). lia.
  - split; [apply Z.div_pos; lia|]. apply Z.div_lt_upper_bound; lia.
Qed.

Lemma decimal_year (y : Z) (acc : string) :
  1000 <= y <= 9999 -> decimal y +:+ acc = padded 4 y acc.
Proof.
  intros Hy. unfold decimal.
  destruct (y <? 0) eqn:Hneg; [apply Z.ltb_lt in Hneg; lia|].
  assert (Hfuel : (4 <= S (Z.to_nat (Z.log2 y)))%nat).
  { assert (9 <= Z.log2 y); [|lia]. change 9 with (Z.log2 1000). apply Z.log2_le_mono. lia. }
  destruct (S (Z.to_nat (Z.log2 y))) as [|[|[|[|fuel]]]]; try lia.
  assert (H1 : (y <? 10) = false) by (apply Z.ltb_ge; lia).
  assert (H2 : (y / 10 <? 10) = false).
  { apply Z.ltb_ge. apply Z.div_le_lower_bound; lia. }
  assert (H3 : (y / 10 / 10 <? 10) = false).
  { apply Z.ltb_ge. rewrite Z.div_div by lia. apply Z.div_le_lower_bound; lia. }
  assert (H4 : (y / 10 / 10 / 10 <? 10) = true).
  { apply Z.ltb_lt. rewrite !Z.div_div by lia. apply Z.div_lt_upper_bound; lia. }
  cbn [digits padded]. rewrite H1, H2, H3, H4. reflexivity.
Qed.

Lemma field_padded (lo hi n : Z) (acc : string) :
  0 <= n < 100 -> lo <= n <= hi ->
  field lo hi (chars (padded 2 n acc)) = Some (n, chars acc).
Proof.
  intros Hn Hrange. cbn [padded list_ascii_of_string field].
  assert (Hdiv : 0 <= n / 10 < 10).
  { split; [apply Z.div_pos; lia|]. apply Z.div_lt_upper_bound; lia. }
  rewrite !digit_char_is_digit, !digit_char_value by lia. cbn [andb].
  replace (10 * ((n / 10) mod 10) + n mod 10) with n.
  - unfold in_range.
    destruct (Z.leb_spec lo n); [|lia]. destruct (Z.leb_spec n hi); [|lia]. reflexivity.
  - rewrite (Z.mod_small (n / 10)) by lia. pose proof (Z.div_mod n 10). lia.
Qed.

Lemma day_field_digit (c : ascii) (cs : list ascii) :
  is_digit c = true -> day_field (c :: cs) = field 1 31 (c :: cs).
Proof.
  destruct c as [[] [] [] [] [] [] [] []]; intros Hc; try discriminate Hc;
    destruct cs; reflexivity.
Qed.

Lemma expect_head (c : ascii) (s : string) :
  expect c (chars (String c EmptyString +:+ s)) = Some (chars s).
Proof. simpl. by rewrite Ascii.eqb_refl. Qed.

(** [strptime] reads the timestamps [strftime] writes, from the year
    1000 on. *)
Lemma strptime_strftime (t : datetime) :
  is_datetime t = true -> 1000 <= year t -> strptime (strftime t) = Some t.
Proof.
  intros Ht Hy. pose proof Ht as Hvalid. unfold is_datetime in Ht.
  repeat (apply andb_prop in Ht as [Ht ?]).
  repeat match goal with
         | H : (_ <=? _) = true |- _ => apply Z.leb_le in H
         end.
  destruct t as [y m d h mi s us]. cbn [year month day hour minute second microsecond] in *.
  assert (Hd : d <= 31).
  { unfold days_in_month in *. repeat case_match; lia. }
  unfold strftime, strptime.
  cbn [year month day hour minute second microsecond].
  rewrite decimal_year by lia.
  rewrite <- (app_nil_r (chars (padded 4 y _))).
  rewrite (fixed_digits_padded 4 0 y 0 _ []) by lia.
  rewrite Z.mul_0_l, Z.add_0_l, app_nil_r.
  cbn [fixed_digits mbind option_bind list_ascii_of_string].
  rewrite expect_head. cbn [mbind option_bind].
  rewrite field_padded by lia. cbn [mbind option_bind list_ascii_of_string].
  rewrite expect_head. cbn [mbind option_bind].
  assert (Hday : forall acc, day_field (chars (padded 2 d acc)) = Some (d, chars acc)).
  { intros acc. rewrite <- (field_padded 1 31 d) by lia.
    cbn [padded list_ascii_of_string]. apply day_field_digit, digit_char_is_digit.
    apply Z.div_pos; lia. }
  rewrite Hday. cbn [mbind option_bind].
  change (expect_T (chars ("T" +:+ ?s))) with (Some (chars s)).
  cbn [mbind option_bind].
  rewrite field_padded by lia. cbn [mbind option_bind list_ascii_of_string].
  rewrite expect_head. cbn [mbind option_bind].
  rewrite field_padded by lia. cbn [mbind option_bind list_ascii_of_string].
  rewrite expect_head. cbn [mbind option_bind].
  rewrite field_padded by lia. cbn [mbind option_bind list_ascii_of_string].
  rewrite expect_head. cbn [mbind option_bind].
  assert (Hfraction : fraction 6 0 (chars (padded 6 us "")) = (us, [])).
  { etransitivity; [exact (fraction_padded 6 0 us 0 "" ltac:(lia))|].
    cbn [fraction list_ascii_of_string]. reflexivity. }
  assert (Hfirst : exists c cs, chars (padded 6 us "") = c :: cs /\ is_digit c = true).
  { cbn [padded list_ascii_of_string]. eexists _, _. split; [reflexivity|].
    apply digit_char_is_digit. repeat apply Z.div_pos; lia. }
  destruct Hfirst as (c & cs & Hcs & Hc).
  rewrite Hfraction, Hcs, Hc. by rewrite Hvalid.
Qed.

End plain_json.

Section cache_examples.
Import Cache PlainJson Samples.

(** Both sides of an equation evaluated on their own. *)
Ltac evaluate_sides :=
  lazymatch goal with
  | |- ?l = ?r =>
      let l' := eval vm_compute in l in
      let r' := eval vm_compute in r in
      change (l' = r'); reflexivity
  end.



Lemma load_without_meta_file_witness :
  (load fresh (Disk (Some (GzStream payload_flipped)) None)).1 <> Raise CacheDbError /\
  meta (load fresh (Disk (Some (GzStream payload_flipped)) None)).2
  = <["md5"%string := MStr (md5sum payload_flipped)]> ∅ /\
  meta (load fresh (Disk (Some (GzStream payload_flipped)) None)).2 !! "md5"%string
  = Some (MStr (md5sum payload_flipped)) /\
  (load fresh (Disk (Some (GzStream payload_flipped)) None)).1 = Ok tt /\
  data (load fresh (Disk (Some (GzStream payload_flipped)) None)).2 = PList [PInt 1; PInt 3].
Proof.
  exact (load_without_meta_file fresh (Disk (Some (GzStream payload_flipped)) None)
           payload_flipped eq_refl eq_refl).
Defined.




End cache_examples.

(** ** ws/db/grabbers/interwiki.py *)

Section interwiki_replay.
Import Interwiki.

Lemma bind_Ok {A B} (r : result A) (k : A -> result B) (b : B) :
  r ≫= k = Ok b -> exists a, r = Ok a /\ k a = Ok b.
Proof. destruct r as [a|e]; simpl; [eauto | discriminate]. Qed.

Lemma apply_app (ops1 ops2 : list operation) (db : database) :
  apply (ops1 ++ ops2) db = apply ops1 db ≫= apply ops2.
Proof.
  revert db. induction ops1 as [|op ops1 IH]; intros db; simpl; [reflexivity|].
  destruct (execute op db) as [db1|e]; simpl; [apply IH | reflexivity].
Qed.

(** [excluded] carries all four columns that [set_] assigns. *)
Lemma do_update_excluded (existing excluded : iw_row) :
  do_update existing excluded = excluded.
Proof. destruct excluded; reflexivity. Qed.

Lemma execute_same_writes (op : operation) (db db' other : database) :
  execute op db = Ok db' ->
  interwiki_decl other = interwiki_decl db ->
  exists other', execute op other = Ok other' /\ same_writes db db' other other'.
Proof.
  destruct op as [[] params]; unfold execute; intros Hex Hdecl.
  - destruct (params !! "iw_prefix"%string) as [[|prefix|]|]; try discriminate.
    rewrite Hdecl.
    destruct (row_accepted _ _); [|discriminate].
    injection Hex as <-. eexists; split; [reflexivity|].
    repeat split; simpl; try done.
    intros k. destruct (decide (prefix = k)) as [->|Hne].
    + left. rewrite !lookup_insert_eq. f_equal.
      destruct (interwiki other !! k), (interwiki db !! k);
        rewrite ?do_update_excluded; reflexivity.
    + right. by rewrite !lookup_insert_ne.
  - destruct (params !! "b_iw_prefix"%string) as [[|prefix|]|]; try discriminate;
      injection Hex as <-; eexists; (split; [reflexivity|]);
      repeat split; simpl; try done; try (intros k; right; done).
    intros k. destruct (decide (prefix = k)) as [->|Hne].
    + left. by rewrite !lookup_delete_eq.
    + right. by rewrite !lookup_delete_ne.
Qed.

Lemma apply_same_writes (ops : list operation) (db db' other : database) :
  apply ops db = Ok db' ->
  interwiki_decl other = interwiki_decl db ->
  exists other', apply ops other = Ok other' /\ same_writes db db' other other'.
Proof.
  revert db other. induction ops as [|op ops IH]; intros db other Hap Hdecl; simpl in *.
  - injection Hap as <-. exists other. split; [reflexivity|].
    repeat split; try done. intros k; right; done.
  - apply bind_Ok in Hap as (db1 & Hex & Hap).
    destruct (execute_same_writes _ _ _ other Hex Hdecl)
      as (other1 & -> & (Hl1 & Hd1 & Hl2 & Hd2 & Hk1)). simpl.
    destruct (IH db1 other1 Hap) as (other' & -> & (Hl3 & Hd3 & Hl4 & Hd4 & Hk2)).
    { congruence. }
    exists other'. split; [reflexivity|].
    repeat split; try congruence.
    intros k. destruct (Hk2 k) as [?|[H1 H2]]; [by left|].
    destruct (Hk1 k) as [H3|[H3 H4]]; [left|right]; split_and?; congruence.
Qed.

Lemma database_eq (db1 db2 : database) :
  logging db1 = logging db2 ->
  interwiki_decl db1 = interwiki_decl db2 ->
  interwiki db1 = interwiki db2 ->
  db1 = db2.
Proof. destruct db1, db2; simpl; congruence. Qed.

Lemma apply_replay (ops : list operation) (db db' : database) :
  apply ops db = Ok db' -> apply ops db' = Ok db'.
Proof.
  intros Hap.
  destruct (apply_same_writes ops db db' db' Hap)
    as (db'' & Hap' & (Hl1 & Hd1 & Hl2 & Hd2 & Hk)).
  { destruct (apply_same_writes ops db db' db Hap eq_refl)
      as (? & ? & (? & ? & _)). done. }
  rewrite Hap'. f_equal. apply database_eq; try done.
  apply map_eq. intros k. destruct (Hk k) as [?|[? _]]; done.
Qed.

(** The operations leave the log alone, so generating again after the
    first pass yields the same run. *)
Lemma apply_keeps_logging (ops : list operation) (db db' : database) :
  apply ops db = Ok db' -> logging db' = logging db.
Proof.
  intros Hap. destruct (apply_same_writes ops db db' db Hap eq_refl)
    as (? & ? & (? & _)). done.
Qed.

(** C1. Replaying the incremental operations: for every checkpoint [since]
    and every state of the mirror, executing the operations that
    [gen_update since] yields twice in a row gives the same result as
    executing them once (the same database, or the same failure), and
    generating them afresh after the first pass yields the same run. *)
Theorem gen_update_replay_idempotent (db : database) (since : Z) :
  let ops := (gen_update db since).1 in
  apply (ops ++ ops) db = apply ops db /\
  forall db', apply ops db = Ok db' ->
    gen_update db' since = gen_update db since /\ apply ops db' = Ok db'.
Proof.
  intros ops. split.
  - rewrite apply_app. destruct (apply ops db) as [db'|e] eqn:Hap; simpl; [|reflexivity].
    by apply apply_replay in Hap.
  - intros db' Hap. split; [|by apply apply_replay in Hap].
    unfold gen_update, query_logevents. by rewrite (apply_keeps_logging _ _ _ Hap).
Qed.

End interwiki_replay.

Section interwiki_malformed.
Import Interwiki Samples.

Lemma gen_update_events_passed_over (le : logevent) (rest : list logevent) :
  passed_over le -> gen_update_events (le :: rest) = gen_update_events rest.
Proof.
  intros [Hty|(Ha & He & Hd & db_entry & Htr)]; simpl.
  - apply String.eqb_neq in Hty. by rewrite Hty.
  - destruct (String.eqb (le_type le) "interwiki"); [|reflexivity].
    rewrite Htr.
    apply String.eqb_neq in Ha, He, Hd. by rewrite Ha, He, Hd.
Qed.

Lemma gen_update_events_skip (pre post : list logevent) (le : logevent) :
  passed_over le ->
  gen_update_events (pre ++ le :: post) = gen_update_events (pre ++ post).
Proof.
  intros Hle. induction pre as [|x pre IH]; simpl.
  - by apply gen_update_events_passed_over.
  - rewrite IH. reflexivity.
Qed.

(** C8 (amended). An event of unknown kind is skipped without a word and the
    run goes on: removing it from the log changes neither the operations
    yielded nor the way the run ends. *)
Theorem gen_update_skips_unknown_events
    (db : database) (since : Z) (pre post : list logevent) (le : logevent) :
  logging db = pre ++ le :: post ->
  passed_over le ->
  gen_update db since =
  gen_update (Database (pre ++ post) (interwiki_decl db) (interwiki db)) since.
Proof.
  intros Hlog Hle. unfold gen_update, query_logevents. simpl. rewrite Hlog.
  rewrite !List.filter_app. simpl.
  destruct (since <=? le_timestamp le); [|reflexivity].
  by apply gen_update_events_skip.
Qed.

Lemma gen_update_skips_unknown_events_witness :
  gen_update (Database [add_wp; purge_event; add_mw] no_checks ∅) 0 =
  gen_update (Database [add_wp; add_mw] no_checks ∅) 0.
Proof.
  apply (gen_update_skips_unknown_events
           (Database [add_wp; purge_event; add_mw] no_checks ∅) 0
           [add_wp] [add_mw] purge_event).
  - reflexivity.
  - right. repeat split; try discriminate. eexists. vm_compute. reflexivity.
Defined.

Lemma gen_update_replay_idempotent_witness :
  apply ((gen_update log_db 0).1 ++ (gen_update log_db 0).1) log_db
  = apply (gen_update log_db 0).1 log_db /\
  gen_update log_db_synced 0 = gen_update log_db 0 /\
  apply (gen_update log_db 0).1 log_db_synced = Ok log_db_synced.
Proof.
  destruct (gen_update_replay_idempotent log_db 0) as [Htwice Hagain].
  split; [exact Htwice|]. apply Hagain. vm_compute. reflexivity.
Defined.

(** C8, as stated, fails: a delete event without the prefix ends the run
    with [KeyError]; the event after it yields nothing. *)
Lemma gen_update_delete_without_prefix_raises :
  gen_update (Database [add_wp; delete_without_prefix; add_mw] no_checks ∅) 0 =
  ([(InsertInterwiki,
     {[ "iw_prefix" := SqlText "wp";
        "iw_url" := SqlText "https://en.wikipedia.org/wiki/$1";
        "iw_trans" := SqlBool false;
        "iw_local" := SqlBool true ]}%string)],
   Some (KeyError "iw_prefix")).
Proof. vm_compute. reflexivity. Qed.

End interwiki_malformed.

(** ** grab.py *)

Section check_lists.
Import Grab.
Context {A : Type} (eqb : A -> A -> bool).

Lemma check_loop_spec (i : nat) (pairs : list (A * A)) (last : option exn) :
  check_loop eqb i pairs last =
  (concat (imap (fun j => pair_report eqb (i + j)) pairs),
   Ok (if some_mismatch eqb pairs then Some (AssertionError None) else last)).
Proof.
  revert i last. induction pairs as [|[d a] pairs IH]; intros i last; [reflexivity|].
  cbn [check_loop imap concat some_mismatch existsb].
  unfold pair_report at 1, _check_entries. cbn [fst snd].
  rewrite Nat.add_0_r.
  assert (Himap : imap ((fun j => pair_report eqb (i + j)) ∘ S) pairs
                  = imap (fun j => pair_report eqb (S i + j)) pairs).
  { apply imap_ext. intros j x _. simpl. f_equal. lia. }
  rewrite Himap.
  destruct (eqb d a); cbn [negb orb is_AssertionError fst snd].
  - rewrite IH. reflexivity.
  - rewrite IH. fold (some_mismatch eqb pairs).
    destruct (some_mismatch eqb pairs); reflexivity.
Qed.

(** C5 (amended). Two lists of the same length: every pair is compared and
    every mismatching pair is reported, the earlier mismatches
    notwithstanding; if there was a mismatch the closing
    [AssertionError], raised from the last one, is printed by
    [_check_lists] itself, which returns to its caller. *)
Theorem check_lists_reports_every_mismatch (db_list api_list : list A) :
  length db_list = length api_list ->
  _check_lists eqb db_list api_list =
  (concat (imap (pair_report eqb) (zip db_list api_list)) ++
   (if some_mismatch eqb (zip db_list api_list)
    then [PrintExc (RaisedFrom (AssertionError None) (AssertionError None))]
    else []),
   Ok tt).
Proof.
  intros Hlen. unfold _check_lists, check_lists_body.
  apply Nat.eqb_eq in Hlen. rewrite Hlen.
  rewrite check_loop_spec. cbn [Nat.add].
  destruct (some_mismatch eqb _); cbn [is_AssertionError]; [reflexivity|].
  by rewrite app_nil_r.
Qed.

(** C6 (amended). Two lists of different lengths: the failed assertion on
    the lengths is all that is printed; no pair is compared. *)
Theorem check_lists_length_mismatch (db_list api_list : list A) :
  length db_list <> length api_list ->
  _check_lists eqb db_list api_list =
  ([PrintExc (AssertionError
                (Some (pretty (length db_list) +:+ " vs. " +:+ pretty (length api_list))))],
   Ok tt).
Proof.
  intros Hlen. unfold _check_lists, check_lists_body.
  apply Nat.eqb_neq in Hlen. rewrite Hlen. reflexivity.
Qed.

End check_lists.

Section check_lists_examples.
Import Grab.

Lemma check_lists_reports_every_mismatch_witness :
  _check_lists Z.eqb [1; 2; 3; 4] [1; 5; 3; 6] =
  (_pprint_diff 1 2 5 ++ _pprint_diff 3 4 6 ++
   [PrintExc (RaisedFrom (AssertionError None) (AssertionError None))],
   Ok tt).
Proof.
  exact (check_lists_reports_every_mismatch Z.eqb [1; 2; 3; 4] [1; 5; 3; 6] eq_refl).
Defined.

(** C5, as stated, fails: with a mismatching pair the call still returns
    normally, and the exception it printed counts nothing. *)
Lemma check_lists_failure_not_propagated :
  _check_lists Z.eqb [1] [2] =
  ([ DiffHighlighted 1 2; PrintLine "db_entry no. 0:"; PPrint 1;
     PrintLine "api_entry no. 0:"; PPrint 2; PrintLine EmptyString;
     PrintExc (RaisedFrom (AssertionError None) (AssertionError None)) ],
   Ok tt).
Proof. vm_compute. reflexivity. Qed.

Lemma check_lists_length_mismatch_witness :
  _check_lists Z.eqb [1] [2; 3] = ([PrintExc (AssertionError (Some "1 vs. 2"))], Ok tt).
Proof.
  exact (check_lists_length_mismatch Z.eqb [1] [2; 3] ltac:(discriminate)).
Defined.

(** C6, as stated, fails: the pair at position 0 of the common prefix
    differs, and nothing of what comparing it prints is in the output. *)
Lemma check_lists_prefix_not_compared :
  (_check_entries Z.eqb 0 1 2).1 <> [] /\
  forall o, In o ((_check_entries Z.eqb 0 1 2).1) ->
            ~ In o ((_check_lists Z.eqb [1] [2; 3]).1).
Proof.
  split; [discriminate|].
  intros o Ho Hin. vm_compute in Hin. destruct Hin as [<-|[]].
  vm_compute in Ho. intuition discriminate.
Qed.

End check_lists_examples.

Section snapping.
Import Grab Samples.

Lemma dict_get_set_eq (k : string) (v : pyval) (d : pydict) :
  dict_get k (dict_set k v d) = Some v.
Proof.
  induction d as [|[k' v'] d IH]; simpl.
  - by rewrite String.eqb_refl.
  - destruct (String.eqb k' k) eqn:E; simpl.
    + by rewrite String.eqb_refl.
    + by rewrite E.
Qed.

Lemma deref_insert_eq (h : store) (l : nat) (d : pydict) :
  deref (<[l := d]> h) l = d.
Proof. unfold deref. apply lookup_total_insert_eq. Qed.

Lemma deref_insert_ne (h : store) (l l' : nat) (d : pydict) :
  l <> l' -> deref (<[l := d]> h) l' = deref h l'.
Proof. unfold deref. apply lookup_total_insert_ne. Qed.

(** A turn of the loop writes into the entry of the mirror only. *)
Lemma snap_entry_frame (db_entry api_entry l : nat) (h h' : store) :
  snap_entry db_entry api_entry h = Ok h' -> l <> db_entry -> deref h' l = deref h l.
Proof.
  unfold snap_entry. intros Hsnap Hne.
  destruct (dict_get "timestamp" (deref h db_entry)) as [db_ts|]; [|by injection Hsnap as <-].
  destruct (dict_get "timestamp" (deref h api_entry)) as [api_ts|]; [|by injection Hsnap as <-].
  destruct (datetime_sub db_ts api_ts) as [delta|]; [|discriminate]. simpl in Hsnap.
  destruct (Z.abs delta <=? one_second); injection Hsnap as <-; [|reflexivity].
  by apply deref_insert_ne.
Qed.

Lemma snap_timestamps_frame (db_list api_list : list nat) (l : nat) (h h' : store) :
  snap_timestamps db_list api_list h = Ok h' -> l ∉ db_list -> deref h' l = deref h l.
Proof.
  revert api_list h. induction db_list as [|d ds IH]; intros [|a as_] h Hsnap Hl;
    simpl in Hsnap; try (by injection Hsnap as <-).
  destruct (snap_entry d a h) as [h1|] eqn:H1; [|discriminate]. simpl in Hsnap.
  apply not_elem_of_cons in Hl as [Hne Hl].
  rewrite (IH _ _ Hsnap Hl). by apply (snap_entry_frame _ _ _ _ _ H1).
Qed.

(** The pair at position [i], the records of the two lists being
    distinct objects: what the loop leaves of the two records is what the
    turn for that pair makes of them. *)
Lemma snap_timestamps_lookup (db_list api_list : list nat) (h h' : store)
    (i db_entry api_entry : nat) :
  snap_timestamps db_list api_list h = Ok h' ->
  NoDup db_list ->
  (forall l, l ∈ db_list -> l ∉ api_list) ->
  db_list !! i = Some db_entry ->
  api_list !! i = Some api_entry ->
  exists h1, snap_entry db_entry api_entry h = Ok h1 /\
             deref h' db_entry = deref h1 db_entry /\
             deref h' api_entry = deref h api_entry.
Proof.
  revert api_list h i.
  induction db_list as [|d ds IH]; intros [|a as_] h i Hsnap Hnd Hsep Hd Ha; try done.
  simpl in Hsnap.
  destruct (snap_entry d a h) as [h1|] eqn:H1; [|discriminate]. simpl in Hsnap.
  apply NoDup_cons in Hnd as [Hd_ds Hnd].
  destruct i as [|i]; simpl in Hd, Ha.
  - injection Hd as <-. injection Ha as <-. exists h1. split; [done|].
    assert (Ha_ds : a ∉ ds).
    { intros Hin. apply (Hsep a); [by right | left]. }
    assert (Ha_d : a <> d).
    { intros ->. apply (Hsep d); left. }
    split.
    + by apply (snap_timestamps_frame _ _ _ _ _ Hsnap).
    + rewrite (snap_timestamps_frame _ _ _ _ _ Hsnap Ha_ds).
      by apply (snap_entry_frame _ _ _ _ _ H1).
  - assert (Hin_d : db_entry ∈ ds) by (eapply list_elem_of_lookup_2; eauto).
    assert (Hin_a : api_entry ∈ as_) by (eapply list_elem_of_lookup_2; eauto).
    assert (Hne_d : db_entry <> d) by (intros ->; done).
    assert (Hne_a : api_entry <> d).
    { intros ->. apply (Hsep d); [left | by right]. }
    destruct (IH as_ h1 i Hsnap Hnd) as (h2 & H2 & Hd' & Ha'); try done.
    { intros l Hl Hl'. apply (Hsep l); by right. }
    unfold snap_entry in H2 |- *.
    rewrite (snap_entry_frame _ _ _ _ _ H1 Hne_d),
            (snap_entry_frame _ _ _ _ _ H1 Hne_a) in H2.
    destruct (dict_get "timestamp" (deref h db_entry)) as [db_ts|];
      [|injection H2 as <-; eexists; split; [reflexivity|];
        rewrite Hd', Ha';
        by rewrite (snap_entry_frame _ _ _ _ _ H1 Hne_d),
                   (snap_entry_frame _ _ _ _ _ H1 Hne_a)].
    destruct (dict_get "timestamp" (deref h api_entry)) as [api_ts|];
      [|injection H2 as <-; eexists; split; [reflexivity|];
        rewrite Hd', Ha';
        by rewrite (snap_entry_frame _ _ _ _ _ H1 Hne_d),
                   (snap_entry_frame _ _ _ _ _ H1 Hne_a)].
    destruct (datetime_sub db_ts api_ts) as [delta|]; [|discriminate]. simpl in *.
    destruct (Z.abs delta <=? one_second); injection H2 as <-;
      eexists; (split; [reflexivity|]); rewrite Hd', Ha';
      rewrite ?deref_insert_eq, ?(snap_entry_frame _ _ _ _ _ H1 Hne_d),
              ?(snap_entry_frame _ _ _ _ _ H1 Hne_a); done.
Qed.

(** C9. The one-second rule of [check_protected_titles], the records of
    the two lists being distinct objects: where the two timestamps of a
    pair are at most one second apart, the record of the mirror goes
    into the comparison with the timestamp of the source, so the two
    timestamps compare equal; where they are more than one second apart,
    the record is left as it is and the timestamps differ. *)
Theorem timestamp_snapping (db_list api_list : list nat) (h h' : store)
    (i db_entry api_entry : nat) (db_ts api_ts : Z) :
  snap_timestamps db_list api_list h = Ok h' ->
  NoDup db_list ->
  (forall l, l ∈ db_list -> l ∉ api_list) ->
  db_list !! i = Some db_entry ->
  api_list !! i = Some api_entry ->
  dict_get "timestamp" (deref h db_entry) = Some (PDatetime db_ts) ->
  dict_get "timestamp" (deref h api_entry) = Some (PDatetime api_ts) ->
  deref h' api_entry = deref h api_entry /\
  (Z.abs (db_ts - api_ts) <= one_second ->
     deref h' db_entry = dict_set "timestamp" (PDatetime api_ts) (deref h db_entry) /\
     exists ts ts',
       dict_get "timestamp" (deref h' db_entry) = Some ts /\
       dict_get "timestamp" (deref h' api_entry) = Some ts' /\
       py_eqb ts ts' = true) /\
  (one_second < Z.abs (db_ts - api_ts) ->
     deref h' db_entry = deref h db_entry /\
     py_eqb (PDatetime db_ts) (PDatetime api_ts) = false).
Proof.
  intros Hsnap Hnd Hsep Hd Ha Hdts Hats.
  destruct (snap_timestamps_lookup _ _ _ _ _ _ _ Hsnap Hnd Hsep Hd Ha)
    as (h1 & H1 & Hd' & Ha').
  unfold snap_entry in H1. rewrite Hdts, Hats in H1. simpl in H1.
  split; [exact Ha'|]. split; intros Hdelta.
  - apply Z.leb_le in Hdelta. rewrite Hdelta in H1. injection H1 as <-.
    rewrite deref_insert_eq in Hd'. split; [exact Hd'|].
    exists (PDatetime api_ts), (PDatetime api_ts).
    rewrite Hd', Ha', dict_get_set_eq, Hats.
    repeat split. simpl. apply Z.eqb_refl.
  - assert (Hgt : (Z.abs (db_ts - api_ts) <=? one_second) = false)
      by (apply Z.leb_gt; exact Hdelta).
    rewrite Hgt in H1. injection H1 as <-.
    split; [exact Hd'|]. simpl. apply Z.eqb_neq.
    unfold one_second in Hdelta. lia.
Qed.

(** The first pair is one second apart and is snapped; the second is
    1.001 seconds apart and is left alone. *)
Lemma timestamp_snapping_witness :
  (deref pt_store_snapped 0
   = dict_set "timestamp" (PDatetime 1500000001000000) (deref pt_store 0) /\
   exists ts ts',
     dict_get "timestamp" (deref pt_store_snapped 0) = Some ts /\
     dict_get "timestamp" (deref pt_store_snapped 2) = Some ts' /\
     py_eqb ts ts' = true) /\
  (deref pt_store_snapped 1 = deref pt_store 1 /\
   py_eqb (PDatetime 1500000100000000) (PDatetime 1500000101001000) = false).
Proof.
  assert (Hsnap : snap_timestamps [0; 1]%nat [2; 3]%nat pt_store = Ok pt_store_snapped)
    by (vm_compute; reflexivity).
  assert (Hnd : NoDup [0; 1]%nat) by (apply NoDup_ListNoDup; repeat constructor; simpl; lia).
  assert (Hsep : forall l : nat, l ∈ [0; 1]%nat -> l ∉ [2; 3]%nat).
  { intros l Hl Hl'. apply list_elem_of_In in Hl, Hl'. simpl in Hl, Hl'. lia. }
  split.
  - refine (proj1 (proj2 (timestamp_snapping [0; 1]%nat [2; 3]%nat pt_store pt_store_snapped
                     0 0 2 1500000000000000 1500000001000000
                     Hsnap Hnd Hsep eq_refl eq_refl eq_refl eq_refl)) _).
    vm_compute. discriminate.
  - refine (proj2 (proj2 (timestamp_snapping [0; 1]%nat [2; 3]%nat pt_store pt_store_snapped
                     1 1 3 1500000100000000 1500000101001000
                     Hsnap Hnd Hsep eq_refl eq_refl eq_refl eq_refl)) _).
    vm_compute. reflexivity.
Defined.

End snapping.

Section squash.
Import Grab Samples.
#[local] Arguments deref : simpl never.

Lemma odict_get_None (k : hkey) (d : odict) : odict_get k d = None <-> k ∉ d.*1.
Proof.
  induction d as [|[k' v] d IH]; simpl.
  - split; [intros _; apply not_elem_of_nil | done].
  - destruct (decide (k' = k)) as [->|Hne].
    + split; [done|]. intros H. exfalso. apply H. left.
    + rewrite IH. split.
      * intros H Hin. apply elem_of_cons in Hin as [->|Hin]; done.
      * intros H Hin. apply H. by right.
Qed.

Lemma odict_get_Some_elem (k : hkey) (l : nat) (d : odict) :
  odict_get k d = Some l -> l ∈ d.*2.
Proof.
  induction d as [|[k' v] d IH]; simpl; [done|].
  destruct (decide (k' = k)).
  - intros [= ->]. left.
  - intros H. right. by apply IH.
Qed.

Lemma odict_get_app (k : hkey) (d : odict) (k' : hkey) (v : nat) :
  odict_get k (d ++ [(k', v)]) =
  match odict_get k d with
  | Some x => Some x
  | None => if decide (k' = k) then Some v else None
  end.
Proof.
  induction d as [|[k0 v0] d IH]; simpl; [reflexivity|].
  destruct (decide (k0 = k)); [reflexivity | exact IH].
Qed.

(** Two keys do not share a record when no record is stored twice. *)
Lemma odict_get_inj (k k' : hkey) (l : nat) (d : odict) :
  NoDup d.*2 -> odict_get k d = Some l -> odict_get k' d = Some l -> k = k'.
Proof.
  induction d as [|[k0 v0] d IH]; simpl; [done|].
  intros Hnd. apply NoDup_cons in Hnd as [Hv0 Hnd].
  destruct (decide (k0 = k)) as [Hk|Hk], (decide (k0 = k')) as [Hk'|Hk'].
  - congruence.
  - intros [= ->] H. apply odict_get_Some_elem in H. done.
  - intros H [= ->]. apply odict_get_Some_elem in H. done.
  - by apply IH.
Qed.

Lemma records_of_cons (key : string) (id id' : hkey) (item : pydict) (rest : list pydict) :
  identity key item = Ok id' ->
  records_of key id (item :: rest) =
  if decide (id' = id) then item :: records_of key id rest else records_of key id rest.
Proof.
  intros Hid. unfold records_of. simpl. rewrite Hid.
  destruct (decide (id' = id)) as [->|Hne].
  - by rewrite bool_decide_eq_true_2.
  - by rewrite bool_decide_eq_false_2.
Qed.

Lemma values_frame (h h' : store) (ls : list nat) :
  (forall l, l ∈ ls -> deref h' l = deref h l) -> values h' ls = values h ls.
Proof.
  intros Hsame. unfold values. apply list_fmap_ext. intros i l Hl.
  apply Hsame. eapply list_elem_of_lookup_2; eauto.
Qed.

Lemma values_cons (h : store) (l : nat) (ls : list nat) :
  values h (l :: ls) = deref h l :: values h ls.
Proof. reflexivity. Qed.

(** The loop over a list of distinct objects none of which is stored in
    [api_dict] yet. *)
Lemma squash_loop_spec (key : string) (api_list : list nat) (ids : list hkey)
    (api_dict : odict) (h : store) :
  Forall2 (fun item id => identity key (deref h item) = Ok id) api_list ids ->
  NoDup api_list ->
  (forall l, l ∈ api_list -> l ∉ api_dict.*2) ->
  NoDup api_dict.*2 ->
  exists api_dict' h',
    squash_loop key api_list api_dict h = Ok (api_dict', h') /\
    api_dict'.*1 = api_dict.*1 ++ first_occurrences (api_dict.*1) ids /\
    forall id, deref h' <$> odict_get id api_dict' =
               squashed key id (deref h <$> odict_get id api_dict) (values h api_list).
Proof.
  revert ids api_dict h.
  induction api_list as [|item rest IH]; intros ids0 api_dict h Hids Hnd Hsep Hnd2.
  - apply Forall2_nil_inv_l in Hids as ->.
    exists api_dict, h. split; [reflexivity|]. split; [by rewrite app_nil_r|].
    intros id. unfold squashed. simpl. by destruct (odict_get id api_dict).
  - apply Forall2_cons_inv_l in Hids as (id & ids & Hid & Hrest & ->).
    apply NoDup_cons in Hnd as [Hitem Hnd].
    simpl. rewrite Hid. simpl.
    destruct (odict_get id api_dict) as [destination|] eqn:Hget.
    + set (h1 := <[destination := dmerge (deref h item) (deref h destination)]> h).
      assert (Hdest : destination ∈ api_dict.*2) by (eapply odict_get_Some_elem; eauto).
      assert (Hframe : forall l, l ∈ item :: rest -> deref h1 l = deref h l).
      { intros l Hl. apply deref_insert_ne. intros ->. by apply (Hsep l). }
      destruct (IH ids api_dict h1) as (api_dict' & h' & -> & Hkeys & Hlook); try done.
      { clear -Hrest Hframe. induction Hrest as [|l i ls is_ Hl _ IHr]; constructor.
        - rewrite Hframe; [done | right; left].
        - apply IHr. intros l' Hl'. apply Hframe.
          apply elem_of_cons in Hl' as [->|Hl']; [left | right; by right]. }
      { intros l Hl. apply Hsep. by right. }
      exists api_dict', h'. split; [reflexivity|].
      assert (Hin : id ∈ api_dict.*1).
      { destruct (decide (id ∈ api_dict.*1)) as [|Hn]; [done|].
        apply odict_get_None in Hn. congruence. }
      split.
      * rewrite Hkeys. by rewrite decide_True.
      * intros id'. rewrite Hlook. unfold squashed.
        rewrite (values_frame h h1 rest) by (intros l Hl; apply Hframe; by right).
        rewrite ?values_cons, (records_of_cons _ _ _ _ _ Hid).
        destruct (decide (id = id')) as [<-|Hne].
        -- rewrite Hget. simpl. unfold h1. by rewrite deref_insert_eq.
        -- destruct (odict_get id' api_dict) as [l'|] eqn:Hget'; simpl; [|done].
           unfold h1. rewrite deref_insert_ne; [done|].
           intros <-. apply Hne. eapply odict_get_inj; eauto.
    + destruct (IH ids (api_dict ++ [(id, item)]) h)
        as (api_dict' & h' & -> & Hkeys & Hlook); try done.
      { intros l Hl. rewrite fmap_app. apply not_elem_of_app. split.
        - apply Hsep. by right.
        - simpl. intros Hl'. apply list_elem_of_singleton in Hl' as ->. done. }
      { rewrite fmap_app. apply NoDup_app. split; [done|]. split.
        - intros l Hl Hl'. apply list_elem_of_singleton in Hl' as ->.
          apply (Hsep item); [left | done].
        - apply NoDup_singleton. }
      exists api_dict', h'. split; [reflexivity|].
      apply odict_get_None in Hget as Hnin.
      split.
      * rewrite Hkeys, fmap_app. simpl. rewrite decide_False by done.
        by rewrite <- app_assoc.
      * intros id'. rewrite Hlook. unfold squashed.
        rewrite ?values_cons, odict_get_app, (records_of_cons _ _ _ _ _ Hid).
        destruct (decide (id = id')) as [<-|Hne].
        -- by rewrite Hget.
        -- by destruct (odict_get id' api_dict).
Qed.

Lemma first_occurrences_NoDup (seen ids : list hkey) :
  NoDup seen -> NoDup (seen ++ first_occurrences seen ids).
Proof.
  revert seen. induction ids as [|id ids IH]; intros seen Hseen; simpl.
  - by rewrite app_nil_r.
  - destruct (decide (id ∈ seen)); [by apply IH|].
    replace (seen ++ id :: first_occurrences (seen ++ [id]) ids)
      with ((seen ++ [id]) ++ first_occurrences (seen ++ [id]) ids)
      by (by rewrite <- app_assoc).
    apply IH. apply NoDup_app. split; [done|]. split.
    + intros x Hx Hx'. apply list_elem_of_singleton in Hx'. by subst.
    + apply NoDup_singleton.
Qed.

Lemma odict_values (d : odict) :
  NoDup d.*1 -> Forall2 (fun k v => odict_get k d = Some v) d.*1 d.*2.
Proof.
  induction d as [|[k v] d IH]; simpl; intros Hnd; [constructor|].
  apply NoDup_cons in Hnd as [Hk Hnd].
  constructor.
  - by rewrite decide_True.
  - eapply Forall2_impl; [by apply IH|].
    intros k' v' Hget. simpl.
    destruct (decide (k = k')) as [->|]; [|done].
    exfalso. apply odict_get_None in Hk. simpl in Hget. congruence.
Qed.

Lemma dict_get_set_ne (k k' : string) (v : pyval) (d : pydict) :
  k <> k' -> dict_get k' (dict_set k v d) = dict_get k' d.
Proof.
  intros Hne. induction d as [|[k0 v0] d IH]; simpl.
  - apply String.eqb_neq in Hne. by rewrite Hne.
  - destruct (String.eqb k0 k) eqn:E; simpl.
    + apply String.eqb_eq in E as ->.
      apply String.eqb_neq in Hne. by rewrite Hne.
    + destruct (String.eqb k0 k'); [reflexivity | exact IH].
Qed.

Lemma merge_fields_fields (rec : pyval -> pyval -> pyval) (fields node : pydict)
    (k : string) :
  is_Some (dict_get k (merge_fields rec fields node)) <->
  is_Some (dict_get k fields) \/ is_Some (dict_get k node).
Proof.
  revert node. induction fields as [|[k0 v0] fields IH]; intros node; simpl.
  - split; [by right | intros [[? [=]]|H]; exact H].
  - rewrite IH. destruct (String.eqb k0 k) eqn:E.
    + apply String.eqb_eq in E as ->. rewrite dict_get_set_eq. split; eauto.
    + apply String.eqb_neq in E. rewrite (dict_get_set_ne _ _ _ _ E). reflexivity.
Qed.

(** Field-union: the merged record has the fields of the two records. *)
Lemma dmerge_fields (source destination : pydict) (k : string) :
  is_Some (dict_get k (dmerge source destination)) <->
  is_Some (dict_get k source) \/ is_Some (dict_get k destination).
Proof. unfold dmerge. simpl. apply merge_fields_fields. Qed.

Lemma merged_fields (first : pydict) (later : list pydict) (k : string) :
  is_Some (dict_get k (merged first later)) <->
  Exists (fun item => is_Some (dict_get k item)) (first :: later).
Proof.
  unfold merged. revert first. induction later as [|item later IH]; intros first; simpl.
  - rewrite Exists_cons, Exists_nil. tauto.
  - rewrite IH, !Exists_cons, dmerge_fields. tauto.
Qed.

(** C7. Squashing a list of distinct records that all carry the identity
    key gives one record for each identity, in the order in which the
    identities first occur; it holds the first record of that identity
    with the later ones merged into it, and has exactly the fields that
    some record of that identity has. The two partial records of identity
    1 of the example are squashed into the one record with the fields of
    both. *)
Theorem squash_merges_by_identity (api_list : list nat) (key : string) (h : store)
    (ids : list hkey) :
  (Forall2 (fun item id => identity key (deref h item) = Ok id) api_list ids ->
   NoDup api_list ->
   exists squashed_list h',
     _squash_list_of_dicts api_list key h = Ok (squashed_list, h') /\
     Forall2
       (fun id record =>
          exists first later,
            records_of key id (values h api_list) = first :: later /\
            deref h' record = merged first later /\
            forall field,
              is_Some (dict_get field (deref h' record)) <->
              Exists (fun item => is_Some (dict_get field item))
                     (records_of key id (values h api_list)))
       (first_occurrences [] ids) squashed_list) /\
  (exists squashed_list h',
     _squash_list_of_dicts [0; 1]%nat "id" partial_records = Ok (squashed_list, h') /\
     values h' squashed_list = [ [("id", PInt 1); ("a", PInt 1); ("b", PInt 2)]%string ]).
Proof.
  split; [|eexists _, _; split; vm_compute; reflexivity].
  intros Hids Hnd. unfold _squash_list_of_dicts.
  destruct (squash_loop_spec key api_list ids [] h Hids Hnd)
    as (api_dict & h' & -> & Hkeys & Hlook).
  { intros l _. apply not_elem_of_nil. }
  { constructor. }
  simpl in *. eexists _, _. split; [reflexivity|].
  rewrite <- Hkeys.
  eapply Forall2_impl.
  - apply odict_values. rewrite Hkeys.
    apply (first_occurrences_NoDup [] ids). constructor.
  - intros id record Hget. simpl in Hget.
    specialize (Hlook id). rewrite Hget in Hlook. simpl in Hlook.
    unfold squashed in Hlook.
    destruct (records_of key id (values h api_list)) as [|first later]; [discriminate|].
    injection Hlook as Hrecord. exists first, later.
    split; [reflexivity|]. split; [exact Hrecord|].
    intros field. rewrite Hrecord. apply merged_fields.
Qed.

Lemma squash_merges_by_identity_witness :
  exists squashed_list h',
    _squash_list_of_dicts [0; 1; 2]%nat "pageid" partial_pages = Ok (squashed_list, h') /\
    Forall2
      (fun id record =>
         exists first later,
           records_of "pageid" id (values partial_pages [0; 1; 2]%nat) = first :: later /\
           deref h' record = merged first later /\
           forall field,
             is_Some (dict_get field (deref h' record)) <->
             Exists (fun item => is_Some (dict_get field item))
                    (records_of "pageid" id (values partial_pages [0; 1; 2]%nat)))
      [KInt 7; KInt 9] squashed_list.
Proof.
  apply (proj1 (squash_merges_by_identity [0; 1; 2]%nat "pageid" partial_pages
                  [KInt 7; KInt 9; KInt 7])).
  - repeat constructor.
  - apply NoDup_ListNoDup. repeat constructor; simpl; lia.
Defined.

End squash.

(** ** ws/cache/__init__.py: what [dump] and [load] change *)

Section cache_frames.
Import Cache.
Context `{Serialization}.

Lemma dump_keeps_data (fault : io_fault) (self : cachedb) (dk : disk) :
  data (dump fault self dk).1.2 = data self.
Proof.
  unfold dump.
  destruct (decide (fault = FailMakedirs)); [done|].
  destruct (json_dumps (data self)) as [s|]; [|done]. simpl.
  destruct (format_timestamp _) as [m|e]; [|done].
  destruct (decide (fault = FailOpenDb)); [done|].
  destruct (decide (fault = FailWriteDb)); [done|].
  destruct (decide (fault = FailOpenMeta)); [done|].
  destruct (json_dumps_meta m); [|done].
  destruct (decide (fault = FailWriteMeta)); done.
Qed.

(** X6. Whatever happens in [dump], [self.data] is left as it was, and
    [self.meta] is either left as it was or has the checksum of the
    serialized data under ["md5"] and nothing else changed: the
    timestamp is formatted in a copy. *)
Theorem dump_changes_md5_only (fault : io_fault) (self : cachedb) (dk : disk) :
  data (dump fault self dk).1.2 = data self /\
  (meta (dump fault self dk).1.2 = meta self \/
   exists s, json_dumps (data self) = Some s /\
     meta (dump fault self dk).1.2 = <["md5"%string := MStr (md5sum s)]> (meta self)).
Proof.
  unfold dump.
  destruct (decide (fault = FailMakedirs)); [by auto|].
  destruct (json_dumps (data self)) as [s|]; [|by auto]. simpl.
  destruct (format_timestamp _) as [m|e]; [|by eauto].
  destruct (decide (fault = FailOpenDb)); [by eauto|].
  destruct (decide (fault = FailWriteDb)); [by eauto|].
  destruct (decide (fault = FailOpenMeta)); [by eauto|].
  destruct (json_dumps_meta m); [|by eauto].
  destruct (decide (fault = FailWriteMeta)); by eauto.
Qed.

(** X7. A [dump] that goes through leaves the same object and the same
    contents in the two files whatever the files held before, and
    dumping again right after changes nothing. *)
Theorem dump_overwrites_both_files (self self' : cachedb) (dk dk' : disk) :
  dump NoFault self dk = (Ok tt, self', dk') ->
  (forall other, dump NoFault self other = (Ok tt, self', dk')) /\
  dump NoFault self' dk' = (Ok tt, self', dk').
Proof.
  unfold dump. rewrite !decide_False by discriminate.
  destruct (json_dumps (data self)) as [s|] eqn:Hs; [|discriminate]. simpl.
  destruct (format_timestamp _) as [m|] eqn:Hfmt; [|discriminate].
  destruct (json_dumps_meta m) as [text|] eqn:Htext; [|discriminate].
  intros [= <- <-]. split; [done|].
  simpl. rewrite Hs. simpl. rewrite insert_insert_eq, Hfmt, Htext. reflexivity.
Qed.


(** X9. After a [load] that went through with a metadata file, a key of
    the file other than ["timestamp"] has in [self.meta] the value of
    the file, a key the file does not have keeps the value the object
    had, and the ["timestamp"] of the file is held parsed. *)
Theorem load_merges_metadata (self : cachedb) (dk : disk) (m : gmap string jval) :
  metapath dk = Some (JsonObject m) ->
  (load self dk).1 = Ok tt ->
  (forall k, k <> "timestamp"%string ->
     meta (load self dk).2 !! k
     = match m !! k with Some v => Some (MJson v) | None => meta self !! k end) /\
  (forall s, m !! "timestamp"%string = Some (JStr s) ->
     exists t, strptime s = Some t /\
       meta (load self dk).2 !! "timestamp"%string = Some (MTime t)).
Proof.
  unfold load, init. intros ->.
  destruct (dbpath dk) as [[s|[]]|]; simpl; try done.
  destruct (parse_timestamp _) as [meta'|e'] eqn:Hparse; simpl; [|done].
  destruct (md5_differs _ _); simpl; [done|].
  destruct (json_loads s) as [d|]; simpl; [|done].
  destruct (parse_timestamps_in_struct d) as [raised d']. simpl. intros _. split.
  - intros k Hk. rewrite (parse_timestamp_other _ _ _ Hparse) by done.
    rewrite lookup_union, lookup_fmap.
    destruct (m !! k), (meta self !! k); reflexivity.
  - intros ts Hts. unfold parse_timestamp in Hparse.
    assert (Hlook : ((MJson <$> m) ∪ meta self) !! "timestamp"%string = Some (MStr ts)).
    { apply lookup_union_Some_l. by rewrite lookup_fmap, Hts. }
    rewrite Hlook in Hparse. unfold MStr in Hparse.
    destruct (strptime ts) as [t|]; [|discriminate].
    injection Hparse as <-. exists t. by rewrite lookup_insert_eq.
Qed.

Lemma fmap_omap_to_jval (m : gmap string mval) :
  map_Forall (fun _ v => is_Some (to_jval v)) m ->
  MJson <$> omap to_jval m = m.
Proof.
  intros Hall. apply map_eq. intros k. rewrite lookup_fmap, lookup_omap.
  destruct (m !! k) as [v|] eqn:Hk; [|reflexivity].
  destruct (Hall k v Hk) as [j Hj]. destruct v; simpl in *; by simplify_eq.
Qed.

Lemma json_dumps_meta_all (m : gmap string mval) (text : gmap string jval) :
  json_dumps_meta m = Ok text -> map_Forall (fun _ v => is_Some (to_jval v)) m.
Proof.
  unfold json_dumps_meta. destruct (forallb _ _) eqn:Hall; [|discriminate].
  intros _ k v Hk. rewrite forallb_forall in Hall.
  assert (Hin : In (k, v) (map_to_list m))
    by (apply list_elem_of_In; by apply elem_of_map_to_list).
  apply Hall in Hin. simpl in Hin. by apply bool_decide_eq_true in Hin.
Qed.

(** X10. The metadata read back: where [strptime] reads the timestamp
    [strftime] wrote, an object without metadata that loads the files of
    a [dump] has afterwards the metadata the dumping object was left
    with, the timestamp a [datetime] again. *)
Theorem dump_then_load_restores_metadata (self self' : cachedb) (dk dk' : disk) :
  dump NoFault self dk = (Ok tt, self', dk') ->
  (forall t, meta self !! "timestamp"%string = Some (MTime t) ->
             strptime (strftime t) = Some t) ->
  forall cache, meta cache = ∅ -> meta (load cache dk').2 = meta self'.
Proof.
  unfold dump. rewrite !decide_False by discriminate.
  destruct (json_dumps (data self)) as [s|] eqn:Hs; [|discriminate]. simpl.
  destruct (format_timestamp _) as [m|] eqn:Hfmt; [|discriminate].
  destruct (json_dumps_meta m) as [text|] eqn:Htext; [|discriminate].
  intros [= <- <-] Hts cache Hcache.
  pose proof (json_dumps_meta_all _ _ Htext) as Hall.
  apply json_dumps_meta_Ok in Htext as ->.
  set (meta1 := <["md5"%string := MStr (md5sum s)]> (meta self)) in *.
  unfold load. cbn [dbpath metapath gzip_read meta_update set_meta meta data].
  rewrite Hcache, (right_id_L ∅ (∪)), (fmap_omap_to_jval _ Hall).
  assert (Hparse : parse_timestamp m = Ok meta1).
  { unfold format_timestamp in Hfmt. unfold parse_timestamp.
    destruct (meta1 !! "timestamp"%string) as [[j|t]|] eqn:Ht; [discriminate| |].
    - injection Hfmt as <-. rewrite lookup_insert_eq. unfold MStr.
      rewrite (Hts t).
      + rewrite insert_insert_eq. f_equal. by apply insert_id.
      + unfold meta1 in Ht. by rewrite lookup_insert_ne in Ht.
    - injection Hfmt as <-. by rewrite Ht. }
  rewrite Hparse. simpl.
  assert (Hsame : md5_differs (md5sum s) meta1 = false).
  { erewrite md5_differs_recorded; [by rewrite String.eqb_refl|].
    apply lookup_insert_eq. }
  rewrite Hsame. destruct (json_loads s) as [d|]; [|reflexivity].
  by destruct (parse_timestamps_in_struct d).
Qed.

End cache_frames.

Lemma hex_digit_is_hex (x : Z) : 0 <= x < 16 -> is_hex (Md5.hex_digit x) = true.
Proof.
  intros Hx.
  assert (Hcases : x = 0 \/ x = 1 \/ x = 2 \/ x = 3 \/ x = 4 \/ x = 5 \/ x = 6 \/ x = 7 \/
                   x = 8 \/ x = 9 \/ x = 10 \/ x = 11 \/ x = 12 \/ x = 13 \/ x = 14 \/ x = 15)
    by lia.
  repeat (destruct Hcases as [->|Hcases]; [reflexivity|]). by subst.
Qed.

Lemma hex_of_shape (l : list Z) :
  Forall (fun b => 0 <= b < 256) l ->
  String.length (Md5.hex_of l) = (2 * length l)%nat /\
  forallb is_hex (list_ascii_of_string (Md5.hex_of l)) = true.
Proof.
  induction 1 as [|b l Hb Hl [IHlen IHhex]]; [done|].
  simpl. split; [lia|].
  rewrite !hex_digit_is_hex, IHhex; [done| |].
  - change 15 with (Z.ones 4). rewrite Z.land_ones by lia.
    apply Z.mod_pos_bound. lia.
  - rewrite Z.shiftr_div_pow2 by lia. split; [apply Z.div_pos; lia|].
    apply Z.div_lt_upper_bound; lia.
Qed.

Lemma le_bytes_range (n : nat) (x : Z) : Forall (fun b => 0 <= b < 256) (Md5.le_bytes n x).
Proof.
  revert x. induction n as [|n IH]; intros x; simpl; constructor; [|apply IH].
  change 255 with (Z.ones 8). rewrite Z.land_ones by lia.
  apply Z.mod_pos_bound. lia.
Qed.

Lemma le_bytes_length (n : nat) (x : Z) : length (Md5.le_bytes n x) = n.
Proof. revert x. induction n as [|n IH]; intros x; simpl; [done|]. by rewrite IH. Qed.

(** X11. [md5sum] returns 32 characters, each a digit or a letter from
    [a] to [f], whatever the bytes. *)
Theorem md5sum_hexdigest_shape (bytes_ : bytes) :
  String.length (md5sum bytes_) = 32%nat /\
  forallb is_hex (list_ascii_of_string (md5sum bytes_)) = true.
Proof.
  unfold md5sum, Md5.hexdigest, Md5.digest.
  match goal with |- context [Md5.hex_of ?l] => destruct (hex_of_shape l) as [Hlen Hhex] end.
  { rewrite !Forall_app. repeat split; apply le_bytes_range. }
  split; [|exact Hhex].
  rewrite Hlen, !length_app, !le_bytes_length. reflexivity.
Qed.

Section cache_more_examples.
Import Cache PlainJson Samples.

(** Both sides of an equation evaluated on their own. *)
Ltac evaluate_both :=
  lazymatch goal with
  | |- ?l = ?r =>
      let l' := eval vm_compute in l in
      let r' := eval vm_compute in r in
      change (l' = r'); reflexivity
  end.

Lemma dump_overwrites_both_files_witness :
  let written := dump NoFault users_v1 no_files in
  (forall other, dump NoFault users_v1 other = (Ok tt, written.1.2, written.2)) /\
  dump NoFault written.1.2 written.2 = (Ok tt, written.1.2, written.2).
Proof.
  intros written.
  assert (Hok : written.1.1 = Ok tt) by evaluate_both.
  assert (Hdump : dump NoFault users_v1 no_files = (Ok tt, written.1.2, written.2)).
  { fold written. destruct written as [[r self'] dk']. simpl in Hok. by subst r. }
  exact (dump_overwrites_both_files users_v1 written.1.2 no_files written.2 Hdump).
Defined.


Lemma load_merges_metadata_witness :
  let self := @CacheDb serialization {[ "firstdate"%string := MStr "2017-02-02";
                         "md5"%string := MStr "0" ]} PNone in
  let m : gmap string jval :=
    {[ "md5"%string := JStr (md5sum payload);
       "timestamp"%string := JStr "2017-03-04T05:06:07.000089" ]} in
  let dk := Disk (Some (GzStream payload)) (Some (JsonObject m)) in
  (forall k, k <> "timestamp"%string ->
     meta (load self dk).2 !! k
     = match m !! k with Some v => Some (MJson v) | None => meta self !! k end) /\
  (forall s, m !! "timestamp"%string = Some (JStr s) ->
     exists t, strptime s = Some t /\
       meta (load self dk).2 !! "timestamp"%string = Some (MTime t)).
Proof.
  intros self m dk.
  apply (load_merges_metadata self dk m); [reflexivity|].
  evaluate_both.
Defined.

Lemma dump_then_load_restores_metadata_witness :
  let written := dump NoFault users_v1 no_files in
  meta (load fresh written.2).2 = meta written.1.2.
Proof.
  intros written.
  assert (Hok : written.1.1 = Ok tt) by evaluate_both.
  assert (Hdump : dump NoFault users_v1 no_files = (Ok tt, written.1.2, written.2)).
  { fold written. destruct written as [[r self'] dk']. simpl in Hok. by subst r. }
  apply (dump_then_load_restores_metadata users_v1 written.1.2 no_files written.2 Hdump).
  - intros t Ht.
    assert (Hv1 : meta users_v1 !! "timestamp"%string
                  = Some (MTime (DateTime 2017 3 4 5 6 7 89))) by evaluate_both.
    rewrite Hv1 in Ht. injection Ht as <-. evaluate_both.
  - reflexivity.
Defined.

End cache_more_examples.

(** ** ws/db/grabbers/interwiki.py: the full pass and the order of the events *)

Section interwiki_insert.
Import Interwiki.

Lemma insert_of_entry_Ok (iw : gmap string string) (op : operation) :
  insert_of_entry iw = Ok op ->
  exists p u,
    iw !! "prefix"%string = Some p /\ iw !! "url"%string = Some u /\
    op.1 = InsertInterwiki /\
    op.2 !! "iw_prefix"%string = Some (SqlText p) /\
    forall decl, proposed decl op.2 = row_of_entry u iw.
Proof.
  unfold insert_of_entry.
  destruct (iw !! "prefix"%string) as [p|]; [|discriminate].
  destruct (iw !! "url"%string) as [u|]; [|discriminate].
  intros [= <-]. exists p, u. repeat split; try done.
Qed.

Lemma gen_insert_values_cons (iw : gmap string string) (rest : list (gmap string string))
    (ops : list operation) :
  gen_insert_values (iw :: rest) = (ops, None) ->
  exists op ops', insert_of_entry iw = Ok op /\
    gen_insert_values rest = (ops', None) /\ ops = op :: ops'.
Proof.
  simpl. destruct (insert_of_entry iw) as [op|e]; [|discriminate].
  destruct (gen_insert_values rest) as [ops' r]. unfold yield. simpl.
  intros [= <- ->]. eauto.
Qed.

Lemma execute_insert (p : string) (params : gmap string sqlval) (db db' : database) :
  params !! "iw_prefix"%string = Some (SqlText p) ->
  execute (InsertInterwiki, params) db = Ok db' ->
  logging db' = logging db /\ interwiki_decl db' = interwiki_decl db /\
  interwiki db' = <[p := proposed (interwiki_decl db) params]> (interwiki db).
Proof.
  unfold execute. intros ->. destruct (row_accepted _ _); [|discriminate].
  intros [= <-]. simpl. repeat split.
  destruct (interwiki db !! p); by rewrite ?do_update_excluded.
Qed.

(** X1. The full pass over a map whose entries carry distinct
    prefixes: once the operations of [gen_insert] have been executed,
    the table holds under the prefix of every entry the row of that
    entry - its url, its api or NULL, and whether it has ["local"] and
    ["trans"] - whatever it held there before; a row under a prefix the
    map does not have is left as it was, and so is the log. *)
Theorem gen_insert_mirrors_map
    (site : interwikimap) (ops : list operation) (db db' : database) :
  gen_insert site = (ops, None) ->
  apply ops db = Ok db' ->
  NoDup (prefixes site) ->
  (forall iw, iw ∈ site.*2 ->
     exists p u, iw !! "prefix"%string = Some p /\ iw !! "url"%string = Some u /\
       interwiki db' !! p = Some (row_of_entry u iw)) /\
  (forall k, k ∉ prefixes site -> interwiki db' !! k = interwiki db !! k) /\
  logging db' = logging db.
Proof.
  unfold gen_insert, prefixes. generalize (site.*2). clear site.
  intros iws. revert ops db.
  induction iws as [|iw iws IH]; intros ops db Hgen Hap Hnodup.
  - injection Hgen as <-. injection Hap as <-.
    split; [intros iw Hin; by apply elem_of_nil in Hin|done].
  - apply gen_insert_values_cons in Hgen as (op & ops' & Hop & Hgen & ->).
    apply insert_of_entry_Ok in Hop as (p & u & Hp & Hu & Hstmt & Hkey & Hrow).
    destruct op as [stmt params]. simpl in Hstmt, Hkey, Hrow. subst stmt.
    simpl in Hap. apply bind_Ok in Hap as (db1 & Hex & Hap).
    apply (execute_insert p) in Hex as (Hlog1 & Hdecl1 & Hiw1); [|done].
    simpl in Hnodup. rewrite Hp in Hnodup. simpl in Hnodup.
    apply NoDup_cons in Hnodup as [Hfresh Hnodup].
    destruct (IH ops' db1 Hgen Hap Hnodup) as (Hrows & Hframe & Hlog).
    split; [|split].
    + intros iw' [->|Hin]%elem_of_cons; [|by apply Hrows].
      exists p, u. split; [done|]. split; [done|].
      rewrite (Hframe p Hfresh), Hiw1, lookup_insert_eq, Hrow. reflexivity.
    + intros k Hk. simpl in Hk. rewrite Hp in Hk. simpl in Hk.
      apply not_elem_of_cons in Hk as [Hne Hk].
      rewrite (Hframe k Hk), Hiw1. by rewrite lookup_insert_ne.
    + congruence.
Qed.

(** X2. Executing the operations of [gen_insert] twice in a row gives
    what executing them once gives: the same table, or the same
    failure. *)
Theorem gen_insert_replay_idempotent (site : interwikimap) (db : database) :
  let ops := (gen_insert site).1 in
  apply (ops ++ ops) db = apply ops db.
Proof.
  intros ops. rewrite apply_app.
  destruct (apply ops db) as [db'|e] eqn:Hap; simpl; [|reflexivity].
  by apply apply_replay in Hap.
Qed.

(** X3. An entry of the map without ["prefix"] or without ["url"] ends
    [gen_insert] with [KeyError]: the upserts of the entries before it
    have been yielded, one for each, and nothing of the entries after
    it. *)
Theorem gen_insert_incomplete_entry
    (site : interwikimap) (pre post : list (gmap string string)) (iw : gmap string string) :
  site.*2 = pre ++ iw :: post ->
  Forall (fun x : gmap string string =>
            is_Some (x !! "prefix"%string) /\ is_Some (x !! "url"%string)) pre ->
  iw !! "prefix"%string = None \/ iw !! "url"%string = None ->
  exists ops key,
    gen_insert site = (ops, Some (KeyError key)) /\
    length ops = length pre /\
    Forall (fun op : operation => op.1 = InsertInterwiki) ops /\
    (key = "prefix"%string \/ key = "url"%string).
Proof.
  unfold gen_insert. intros -> Hpre Hiw.
  induction Hpre as [|x pre [[p Hp] [u Hu]] Hpre IH]; simpl.
  - unfold insert_of_entry.
    destruct (iw !! "prefix"%string) as [p|] eqn:Hp.
    + destruct Hiw as [?| ->]; [done|]. exists [], "url"%string. by auto.
    + exists [], "prefix"%string. by auto.
  - destruct IH as (ops & key & -> & Hlen & Hall & Hkey).
    unfold insert_of_entry at 1. rewrite Hp, Hu. unfold yield. simpl.
    eexists _, key. split; [reflexivity|]. simpl.
    split; [by rewrite Hlen|]. split; [|done]. by constructor.
Qed.

End interwiki_insert.

Section interwiki_order.
Import Interwiki.

Lemma gen_update_events_cons (le : logevent) (rest : list logevent) (ops : list operation) :
  gen_update_events (le :: rest) = (ops, None) ->
  exists ops1 ops',
    gen_update_events [le] = (ops1, None) /\
    gen_update_events rest = (ops', None) /\ ops = ops1 ++ ops'.
Proof.
  simpl. destruct (gen_update_events rest) as [ops' r] eqn:Hrest.
  destruct (String.eqb (le_type le) "interwiki").
  - destruct (_transform_logevent_params (le_params le)) as [entry|e]; [|discriminate].
    destruct (_ || _).
    + unfold yield. simpl. intros [= <- ->]. by eexists [_], ops'.
    + destruct (String.eqb (le_action le) "iw_delete").
      * destruct (entry !! "iw_prefix"%string); [|discriminate].
        unfold yield. simpl. intros [= <- ->]. by eexists [_], ops'.
      * intros [= <- ->]. by exists [], ops'.
  - intros [= <- ->]. by exists [], ops'.
Qed.

Lemma gen_update_events_app (pre post : list logevent) (ops : list operation) :
  gen_update_events (pre ++ post) = (ops, None) ->
  exists ops1 ops2,
    gen_update_events pre = (ops1, None) /\
    gen_update_events post = (ops2, None) /\ ops = ops1 ++ ops2.
Proof.
  revert ops. induction pre as [|le pre IH]; intros ops Hrun.
  - by exists [], ops.
  - simpl app in Hrun.
    apply gen_update_events_cons in Hrun as (o1 & o' & H1 & Hrest & ->).
    apply IH in Hrest as (o2 & o3 & Hpre & Hpost & ->).
    exists (o1 ++ o2), o3. split; [|by rewrite app_assoc].
    clear -H1 Hpre. simpl in *.
    destruct (String.eqb (le_type le) "interwiki"); [|by simplify_eq].
    destruct (_transform_logevent_params (le_params le)) as [entry|e]; [|discriminate].
    rewrite Hpre.
    destruct (_ || _); [unfold yield in *; simpl in *; by simplify_eq|].
    destruct (String.eqb (le_action le) "iw_delete"); [|by simplify_eq].
    destruct (entry !! "iw_prefix"%string); [|discriminate].
    unfold yield in *; simpl in *; by simplify_eq.
Qed.

(** The prefix of the entry is the parameter ["0"] of the event. *)
Lemma transform_prefix (params : gmap string string) (entry : gmap string sqlval) :
  _transform_logevent_params params = Ok entry ->
  entry !! "iw_prefix"%string = SqlText <$> params !! "0"%string.
Proof.
  unfold _transform_logevent_params. intros Htr.
  apply bind_Ok in Htr as (e2 & H2 & H3).
  assert (He2 : e2 !! "iw_prefix"%string = SqlText <$> params !! "0"%string).
  { destruct (params !! "2"%string) as [t|].
    - apply bind_Ok in H2 as (n & _ & [= <-]).
      rewrite lookup_insert_ne by done.
      destruct (params !! "1"%string), (params !! "0"%string); simpl;
        rewrite ?lookup_insert_ne by done; by rewrite ?lookup_insert_eq.
    - injection H2 as <-.
      destruct (params !! "1"%string), (params !! "0"%string); simpl;
        rewrite ?lookup_insert_ne by done; by rewrite ?lookup_insert_eq. }
  destruct (params !! "3"%string) as [l|].
  - apply bind_Ok in H3 as (n & _ & [= <-]). by rewrite lookup_insert_ne.
  - by injection H3 as <-.
Qed.

Lemma execute_delete (p : string) (db db' : database) :
  execute (DeleteInterwiki, {[ "b_iw_prefix"%string := SqlText p ]}) db = Ok db' ->
  logging db' = logging db /\ interwiki_decl db' = interwiki_decl db /\
  interwiki db' = delete p (interwiki db).
Proof.
  unfold execute. rewrite lookup_singleton_eq. by intros [= <-].
Qed.

(** The operations of one event write at the prefix of the event only. *)
Lemma event_frame (le : logevent) (p : string) (ops : list operation) (db db' : database) :
  ~ about p le ->
  gen_update_events [le] = (ops, None) ->
  apply ops db = Ok db' ->
  interwiki db' !! p = interwiki db !! p /\ interwiki_decl db' = interwiki_decl db.
Proof.
  intros Hnot. simpl. destruct (String.eqb_spec (le_type le) "interwiki") as [Hty|_].
  - destruct (_transform_logevent_params (le_params le)) as [entry|e] eqn:Htr;
      [|discriminate].
    pose proof (transform_prefix _ _ Htr) as Hpre.
    destruct (_ || _).
    + unfold yield. simpl. intros [= <-]. simpl.
      intros (db1 & Hex & [= <-])%bind_Ok.
      destruct (le_params le !! "0"%string) as [q|] eqn:Hq; simpl in Hpre.
      * apply (execute_insert q) in Hex as (_ & Hdecl & ->); [|done].
        split; [|done]. rewrite lookup_insert_ne; [done|].
        intros ->. by apply Hnot.
      * unfold execute in Hex. rewrite Hpre in Hex. discriminate.
    + destruct (String.eqb (le_action le) "iw_delete"); [|intros [= <-] [= <-]; done].
      destruct (entry !! "iw_prefix"%string) as [v|] eqn:Hv; [|discriminate].
      unfold yield. simpl. intros [= <-]. simpl.
      intros (db1 & Hex & [= <-])%bind_Ok.
      destruct (le_params le !! "0"%string) as [q|] eqn:Hq; simpl in Hpre; [|discriminate].
      injection Hpre as ->.
      apply execute_delete in Hex as (_ & Hdecl & ->).
      split; [|done]. rewrite lookup_delete_ne; [done|].
      intros ->. by apply Hnot.
  - intros [= <-] [= <-]. done.
Qed.

Lemma events_frame (les : list logevent) (p : string) (ops : list operation)
    (db db' : database) :
  Forall (fun le => ~ about p le) les ->
  gen_update_events les = (ops, None) ->
  apply ops db = Ok db' ->
  interwiki db' !! p = interwiki db !! p /\ interwiki_decl db' = interwiki_decl db.
Proof.
  intros Hles. revert ops db. induction Hles as [|le les Hle Hles IH]; intros ops db Hrun Hap.
  - injection Hrun as <-. by injection Hap as <-.
  - apply gen_update_events_cons in Hrun as (o1 & o' & H1 & Hrest & ->).
    rewrite apply_app in Hap. apply bind_Ok in Hap as (db1 & Hap1 & Hap2).
    destruct (event_frame le p o1 db db1 Hle H1 Hap1) as [Hk1 Hd1].
    destruct (IH o' db1 Hrest Hap2) as [Hk2 Hd2].
    split; congruence.
Qed.

(** X4. Of the interwiki events about one prefix, the last decides: after
    a run of [gen_update] that went through and whose operations were
    executed, the prefix has no row if that event is a deletion; if it
    is an addition or an edit, the row is the one proposed from the
    parameters of the event - the columns the event does not give,
    [iw_api] among them, at the default of the table. *)
Theorem gen_update_last_event_decides
    (pre post : list logevent) (le : logevent) (p : string)
    (ops : list operation) (db db' : database) :
  about p le ->
  Forall (fun later => ~ about p later) post ->
  gen_update_events (pre ++ le :: post) = (ops, None) ->
  apply ops db = Ok db' ->
  (le_action le = "iw_delete"%string -> interwiki db' !! p = None) /\
  (le_action le = "iw_add"%string \/ le_action le = "iw_edit"%string ->
   exists entry,
     _transform_logevent_params (le_params le) = Ok entry /\
     interwiki db' !! p = Some (proposed (interwiki_decl db) entry)).
Proof.
  intros [Hty Hp] Hpost Hrun Hap.
  apply gen_update_events_app in Hrun as (o1 & o2 & Hpre & Hrun & ->).
  apply gen_update_events_cons in Hrun as (o3 & o4 & Hle & Hrest & ->).
  rewrite apply_app in Hap. apply bind_Ok in Hap as (db1 & Hap1 & Hap).
  rewrite apply_app in Hap. apply bind_Ok in Hap as (db2 & Hap2 & Hap3).
  destruct (events_frame post p o4 db2 db' Hpost Hrest Hap3) as [Hk3 _].
  rewrite Hk3.
  assert (Hdecl1 : interwiki_decl db1 = interwiki_decl db).
  { destruct (apply_same_writes o1 db db1 db Hap1 eq_refl) as (? & ? & (? & ? & _)).
    done. }
  clear Hap1 Hap3 Hpre Hrest Hk3.
  simpl in Hle. rewrite Hty in Hle. simpl in Hle.
  destruct (_transform_logevent_params (le_params le)) as [entry|e] eqn:Htr;
    [|discriminate].
  pose proof (transform_prefix _ _ Htr) as Hentry. rewrite Hp in Hentry. simpl in Hentry.
  split.
  - intros Hact. rewrite Hact in Hle. simpl in Hle. rewrite Hentry in Hle.
    unfold yield in Hle. simpl in Hle. injection Hle as <-.
    simpl in Hap2. apply bind_Ok in Hap2 as (db3 & Hex & [= <-]).
    apply execute_delete in Hex as (_ & _ & ->). apply lookup_delete_eq.
  - intros Hact. exists entry. split; [done|].
    assert (Hor : String.eqb (le_action le) "iw_add"
                  || String.eqb (le_action le) "iw_edit" = true).
    { destruct Hact as [-> | ->]; reflexivity. }
    rewrite Hor in Hle. unfold yield in Hle. simpl in Hle. injection Hle as <-.
    simpl in Hap2. apply bind_Ok in Hap2 as (db3 & Hex & [= <-]).
    apply (execute_insert p) in Hex as (_ & _ & ->); [|done].
    rewrite lookup_insert_eq, Hdecl1. reflexivity.
Qed.

End interwiki_order.

Section interwiki_flags.
Import Interwiki.

Lemma gen_update_events_after (pre post : list logevent) (ops : list operation) :
  gen_update_events pre = (ops, None) ->
  gen_update_events (pre ++ post)
  = (ops ++ (gen_update_events post).1, (gen_update_events post).2).
Proof.
  revert ops. induction pre as [|le pre IH]; intros ops.
  - intros [= <-]. simpl. by destruct (gen_update_events post).
  - intros Hrun. apply gen_update_events_cons in Hrun as (o1 & o2 & Hle & Hpre & ->).
    specialize (IH o2 Hpre). simpl in *.
    destruct (String.eqb (le_type le) "interwiki"); [|injection Hle as <-; exact IH].
    destruct (_transform_logevent_params (le_params le)) as [entry|e]; [|discriminate].
    destruct (_ || _).
    { unfold yield in *. simpl in *. injection Hle as <-. by rewrite IH. }
    destruct (String.eqb (le_action le) "iw_delete"); [|injection Hle as <-; exact IH].
    destruct (entry !! "iw_prefix"%string); [|discriminate].
    unfold yield in *. simpl in *. injection Hle as <-. by rewrite IH.
Qed.

(** X5. An interwiki event with a flag ["2"] or ["3"] on which [int]
    raises ends [gen_update] with [ValueError], whatever its action:
    the parameters are transformed before the action is looked at. The
    operations of the events before it have been yielded, none of those
    after it. *)
Theorem gen_update_flag_not_a_number
    (pre post : list logevent) (le : logevent) (ops : list operation) (flag : string) :
  gen_update_events pre = (ops, None) ->
  le_type le = "interwiki"%string ->
  le_params le !! "2"%string = Some flag \/
  (le_params le !! "3"%string = Some flag /\
   forall t, le_params le !! "2"%string = Some t -> exists n, py_int t = Ok n) ->
  py_int flag = Raise ValueError ->
  gen_update_events (pre ++ le :: post) = (ops, Some ValueError).
Proof.
  intros Hpre Hty Hflag Hint. rewrite (gen_update_events_after _ _ _ Hpre).
  simpl. rewrite Hty. simpl.
  assert (Htr : _transform_logevent_params (le_params le) = Raise ValueError).
  { unfold _transform_logevent_params.
    destruct Hflag as [->|[H3 H2]]; simpl; [by rewrite Hint|].
    rewrite H3. destruct (le_params le !! "2"%string) as [t|]; simpl.
    - destruct (H2 t eq_refl) as [n ->]. simpl. by rewrite Hint.
    - by rewrite Hint. }
  rewrite Htr. simpl. by rewrite app_nil_r.
Qed.

End interwiki_flags.

Section interwiki_more_examples.
Import Interwiki Samples.

Lemma gen_insert_mirrors_map_witness :
  (forall iw, iw ∈ site_map.*2 ->
     exists p u, iw !! "prefix"%string = Some p /\ iw !! "url"%string = Some u /\
       interwiki site_db_filled !! p = Some (row_of_entry u iw)) /\
  (forall k, k ∉ prefixes site_map ->
     interwiki site_db_filled !! k = interwiki site_db !! k) /\
  logging site_db_filled = logging site_db.
Proof.
  apply (gen_insert_mirrors_map site_map (gen_insert site_map).1 site_db site_db_filled).
  - vm_compute. reflexivity.
  - vm_compute. reflexivity.
  - refine (bool_decide_unpack _ _). vm_compute. exact I.
Defined.

Lemma gen_insert_incomplete_entry_witness :
  exists ops key,
    gen_insert site_map_without_url = (ops, Some (KeyError key)) /\
    length ops = 1%nat /\
    Forall (fun op : operation => op.1 = InsertInterwiki) ops /\
    (key = "prefix"%string \/ key = "url"%string).
Proof.
  apply (gen_insert_incomplete_entry site_map_without_url
           [ {[ "prefix" := "wp"; "url" := "https://en.wikipedia.org/wiki/$1" ]} ]%string
           [ {[ "prefix" := "doc"; "url" := "https://docs.example.org/$1" ]} ]%string
           {[ "prefix" := "mw" ]}%string).
  - reflexivity.
  - constructor; [|constructor]. split; eexists; vm_compute; reflexivity.
  - right. vm_compute. reflexivity.
Defined.

Lemma gen_update_last_event_decides_witness :
  interwiki (Database [] no_checks
               {[ "mw"%string :=
                    IwRow (SqlText "https://www.mediawiki.org/wiki/$1") SqlNull
                          (SqlBool false) (SqlBool false) ]}) !! "wp"%string = None.
Proof.
  apply (proj1 (gen_update_last_event_decides [add_wp] [add_mw] delete_wp "wp"
                  (gen_update_events [add_wp; delete_wp; add_mw]).1
                  (Database [] no_checks ∅)
                  (Database [] no_checks
                     {[ "mw"%string :=
                          IwRow (SqlText "https://www.mediawiki.org/wiki/$1") SqlNull
                                (SqlBool false) (SqlBool false) ]})
                  ltac:(split; vm_compute; reflexivity)
                  ltac:(constructor; [intros [_ Hp]; vm_compute in Hp; discriminate
                                     |constructor])
                  ltac:(vm_compute; reflexivity)
                  ltac:(vm_compute; reflexivity))).
  reflexivity.
Defined.

Lemma gen_update_flag_not_a_number_witness :
  gen_update_events
    ([add_wp] ++ LogEvent 20 "interwiki" "iw_purge" {[ "0" := "wp"; "2" := "yes" ]}%string
              :: [add_mw])
  = ((gen_update_events [add_wp]).1, Some ValueError).
Proof.
  apply (gen_update_flag_not_a_number [add_wp] [add_mw]
           (LogEvent 20 "interwiki" "iw_purge" {[ "0" := "wp"; "2" := "yes" ]}%string)
           (gen_update_events [add_wp]).1 "yes").
  - vm_compute. reflexivity.
  - reflexivity.
  - left. vm_compute. reflexivity.
  - vm_compute. reflexivity.
Defined.

End interwiki_more_examples.

(** ** grab.py: the checks that stand around [_check_lists] *)

Section check_lists_silent.
Import Grab.
Context {A : Type} (eqb : A -> A -> bool).

Lemma some_mismatch_false (db_list api_list : list A) :
  length db_list = length api_list ->
  some_mismatch eqb (zip db_list api_list) = false ->
  Forall2 (fun d a => eqb d a = true) db_list api_list.
Proof.
  revert api_list. induction db_list as [|d ds IH]; intros [|a as_] Hlen Hnone;
    try discriminate; [constructor|].
  simpl in Hnone. apply orb_false_elim in Hnone as [Hda Hrest].
  constructor; [by apply negb_false_iff in Hda|].
  apply IH; [by injection Hlen|exact Hrest].
Qed.

Lemma agree_no_report (i : nat) (db_list api_list : list A) :
  Forall2 (fun d a => eqb d a = true) db_list api_list ->
  some_mismatch eqb (zip db_list api_list) = false /\
  concat (imap (fun j => pair_report eqb (i + j)) (zip db_list api_list)) = [].
Proof.
  intros Hall. revert i. induction Hall as [|d a ds as_ Hda Hall IH]; intros i; [done|].
  simpl. rewrite Hda. simpl. destruct (IH (S i)) as [Hnone Hout].
  split; [exact Hnone|].
  unfold pair_report at 1, _check_entries. simpl. rewrite Hda. simpl.
  rewrite <- Hout. f_equal. apply imap_ext. intros j x _. simpl. f_equal. lia.
Qed.

(** X12. [_check_lists] always returns to its caller, and it prints
    nothing exactly when the two lists have the same length and agree
    pair by pair. *)
Theorem check_lists_silent_iff_agree (db_list api_list : list A) :
  (_check_lists eqb db_list api_list).2 = Ok tt /\
  ((_check_lists eqb db_list api_list).1 = [] <->
   Forall2 (fun d a => eqb d a = true) db_list api_list).
Proof.
  unfold _check_lists, check_lists_body.
  destruct (length db_list =? length api_list)%nat eqn:Hlen.
  - apply Nat.eqb_eq in Hlen. rewrite check_loop_spec.
    destruct (some_mismatch eqb (zip db_list api_list)) eqn:Hsome; simpl.
    + split; [reflexivity|]. split.
      * intros Hnil. by apply app_eq_nil in Hnil as [_ ?].
      * intros Hall. apply (agree_no_report 0) in Hall as [Hnone _]. congruence.
    + split; [reflexivity|]. split.
      * intros _. by apply some_mismatch_false.
      * intros Hall. by apply (agree_no_report 0) in Hall as [_ ?].
  - simpl. split; [reflexivity|]. split; [discriminate|].
    intros Hall. apply Forall2_length in Hall. apply Nat.eqb_neq in Hlen. done.
Qed.

End check_lists_silent.

Section recentchanges.
Import Grab.

Lemma dict_get_del_ne (k k' : string) (d : pydict) :
  k <> k' -> dict_get k (dict_del k' d) = dict_get k d.
Proof.
  intros Hne. induction d as [|[k0 v] d IH]; simpl; [reflexivity|].
  destruct (String.eqb_spec k0 k') as [->|Hk0]; simpl.
  - rewrite IH. destruct (String.eqb_spec k' k) as [->|]; done.
  - by rewrite IH.
Qed.

Lemma dict_get_del_eq (k : string) (d : pydict) : dict_get k (dict_del k d) = None.
Proof.
  induction d as [|[k0 v] d IH]; simpl; [reflexivity|].
  destruct (String.eqb_spec k0 k) as [->|Hk0]; simpl; [exact IH|].
  destruct (String.eqb_spec k0 k); done.
Qed.

Lemma dict_del_idem (k : string) (d : pydict) : dict_del k (dict_del k d) = dict_del k d.
Proof.
  unfold dict_del. induction d as [|[k0 v] d IH]; simpl; [reflexivity|].
  destruct (String.eqb k0 k) eqn:E; simpl; rewrite ?E; simpl; by rewrite IH.
Qed.

Lemma db_entry_checked_idem (d : pydict) :
  db_entry_checked (db_entry_checked d) = db_entry_checked d.
Proof. apply dict_del_idem. Qed.

Lemma api_entry_checked_idem (a : pydict) :
  api_entry_checked (api_entry_checked a) = api_entry_checked a.
Proof.
  unfold api_entry_checked, dict_del.
  induction a as [|[k v] a IH]; simpl; [reflexivity|].
  destruct (String.eqb k "autopatrolled") eqn:E1; simpl; [exact IH|].
  destruct (String.eqb k "unpatrolled") eqn:E2; simpl; [exact IH|].
  destruct (String.eqb k "patrolled") eqn:E3; simpl; [exact IH|].
  rewrite E1. simpl. rewrite E2. simpl. rewrite E3. simpl. by rewrite IH.
Qed.

Lemma dict_get_api_entry_checked (k : string) (a : pydict) :
  k <> "patrolled"%string -> k <> "unpatrolled"%string -> k <> "autopatrolled"%string ->
  dict_get k (api_entry_checked a) = dict_get k a.
Proof.
  intros. unfold api_entry_checked. by rewrite !dict_get_del_ne.
Qed.

Lemma current_changes_checked (ids : list hkey) (api_list : list pydict) :
  current_changes ids (api_entry_checked <$> api_list)
  = match current_changes ids api_list with
    | Ok kept => Ok (api_entry_checked <$> kept)
    | Raise e => Raise e
    end.
Proof.
  induction api_list as [|rc rest IH]; [reflexivity|].
  cbn [fmap list_fmap current_changes].
  rewrite !dict_get_api_entry_checked by done.
  change (list_fmap _ _ api_entry_checked rest) with (api_entry_checked <$> rest).
  rewrite IH.
  destruct (dict_get "logid" rc); simpl.
  - destruct (current_changes ids rest); reflexivity.
  - destruct (dict_get "pageid" rc) as [pageid|]; [|reflexivity].
    destruct (hash_key pageid) as [k|]; [|reflexivity]. simpl.
    destruct (current_changes ids rest); [|reflexivity]. simpl.
    by destruct (bool_decide _).
Qed.

Lemma recentchanges_loop_checked (i : nat) (db_list api_list : list pydict) :
  recentchanges_loop i (zip (db_entry_checked <$> db_list) (api_entry_checked <$> api_list))
  = recentchanges_loop i (zip db_list api_list).
Proof.
  revert i api_list. induction db_list as [|d ds IH]; intros i [|a as_]; try reflexivity.
  cbn [fmap list_fmap zip zip_with recentchanges_loop].
  rewrite db_entry_checked_idem, api_entry_checked_idem.
  change (zip_with pair (list_fmap _ _ db_entry_checked ds)
                        (list_fmap _ _ api_entry_checked as_))
    with (zip (db_entry_checked <$> ds) (api_entry_checked <$> as_)).
  by rewrite IH.
Qed.

(** X13. The patrol flags play no part in [check_recentchanges]: with
    ["patrolled"] taken out of the entries of the mirror and
    ["patrolled"], ["unpatrolled"] and ["autopatrolled"] out of those of
    the source beforehand, it prints and returns the same. *)
Theorem check_recentchanges_ignores_patrol_flags
    (current_pageids : list hkey) (db_list api_list : list pydict) :
  check_recentchanges current_pageids
    (db_entry_checked <$> db_list) (api_entry_checked <$> api_list)
  = check_recentchanges current_pageids db_list api_list.
Proof.
  unfold check_recentchanges. rewrite current_changes_checked.
  destruct (current_changes current_pageids api_list) as [kept|e]; [|reflexivity].
  rewrite !length_fmap, recentchanges_loop_checked. reflexivity.
Qed.

Lemma recentchanges_loop_agree (i : nat) (pairs : list (pydict * pydict)) :
  Forall (fun pair => entry_eqb (db_entry_checked pair.1) (api_entry_checked pair.2) = true)
         pairs ->
  recentchanges_loop i pairs = ([], Ok tt).
Proof.
  intros Hall. revert i. induction Hall as [|[d a] pairs Hda Hall IH]; intros i; [done|].
  simpl in *. unfold _check_entries. rewrite Hda, IH. reflexivity.
Qed.

Lemma recentchanges_loop_first_mismatch (i : nat) (pre post : list (pydict * pydict))
    (d a : pydict) :
  Forall (fun pair => entry_eqb (db_entry_checked pair.1) (api_entry_checked pair.2) = true)
         pre ->
  entry_eqb (db_entry_checked d) (api_entry_checked a) = false ->
  recentchanges_loop i (pre ++ (d, a) :: post)
  = (_pprint_diff (i + length pre) (db_entry_checked d) (api_entry_checked a),
     Raise (AssertionError None)).
Proof.
  intros Hpre Hda. revert i. induction Hpre as [|[d' a'] pre Hda' Hpre IH]; intros i.
  - simpl. unfold _check_entries. rewrite Hda, Nat.add_0_r. reflexivity.
  - simpl in *. unfold _check_entries at 1. rewrite Hda', IH. simpl.
    by rewrite Nat.add_succ_r.
Qed.

(** X14. [check_recentchanges] stops at the first pair that differs: it
    prints the report of that pair and the [AssertionError], and
    returns; the pairs after it are not compared. *)
Theorem check_recentchanges_stops_at_first_mismatch
    (current_pageids : list hkey) (db_list api_list kept : list pydict)
    (pre post : list (pydict * pydict)) (d a : pydict) :
  current_changes current_pageids api_list = Ok kept ->
  length db_list = length kept ->
  zip db_list kept = pre ++ (d, a) :: post ->
  Forall (fun pair => entry_eqb (db_entry_checked pair.1) (api_entry_checked pair.2) = true)
         pre ->
  entry_eqb (db_entry_checked d) (api_entry_checked a) = false ->
  check_recentchanges current_pageids db_list api_list
  = (_pprint_diff (length pre) (db_entry_checked d) (api_entry_checked a)
     ++ [PrintExc (AssertionError None)],
     Ok tt).
Proof.
  intros Hkept Hlen Hzip Hpre Hda. unfold check_recentchanges. rewrite Hkept.
  apply Nat.eqb_eq in Hlen. rewrite Hlen, Hzip.
  by rewrite (recentchanges_loop_first_mismatch 0).
Qed.

End recentchanges.

Section unordered_pages.
Import Grab.

Lemma insert_by_key_int {A : Type} (n : Z) (x : A) (placed : list (pyval * A)) :
  Forall (fun p => exists m, p.1 = PInt m /\ m <> n) placed ->
  StronglySorted key_lt placed ->
  exists placed',
    insert_by_key (PInt n, x) placed = Ok placed' /\
    placed' ≡ₚ (PInt n, x) :: placed /\
    StronglySorted key_lt placed'.
Proof.
  intros Hkeys Hsorted. induction Hkeys as [|y rest (m & Hy & Hne) Hkeys IH].
  - exists [(PInt n, x)]. repeat split; [done|]. repeat constructor.
  - apply StronglySorted_inv in Hsorted as [Hrest Hy_lt].
    simpl. rewrite Hy. simpl. destruct (n <? m) eqn:Hlt; simpl.
    + apply Z.ltb_lt in Hlt. eexists. split; [reflexivity|]. split; [done|].
      constructor; [by constructor|]. constructor.
      * exists n, m. done.
      * eapply Forall_impl; [exact Hy_lt|].
        intros q (m1 & m2 & Hm1 & Hm2 & Hlt'). exists n, m2.
        rewrite Hy in Hm1. injection Hm1 as <-. split; [done|]. split; [done|]. lia.
    + apply Z.ltb_ge in Hlt.
      destruct (IH Hrest) as (placed' & -> & Hperm & Hsorted'). simpl.
      eexists. split; [reflexivity|]. split.
      * rewrite Hperm. apply Permutation_swap.
      * constructor; [exact Hsorted'|].
        rewrite Hperm. constructor; [|exact Hy_lt].
        exists m, n. split; [done|]. split; [done|]. lia.
Qed.

Lemma sort_loop_int {A : Type} (todo placed : list (pyval * A)) :
  Forall (fun p => exists n, p.1 = PInt n) (todo ++ placed) ->
  NoDup (todo ++ placed).*1 ->
  StronglySorted key_lt placed ->
  exists s, sort_loop todo placed = Ok s /\ s ≡ₚ todo ++ placed /\
            StronglySorted key_lt s.
Proof.
  revert placed. induction todo as [|[k x] todo IH]; intros placed Hint Hnodup Hsorted.
  - exists placed. done.
  - simpl in Hint, Hnodup.
    apply Forall_cons in Hint as [[n Hk] Hint]. simpl in Hk. subst k.
    apply NoDup_cons in Hnodup as [Hfresh Hnodup].
    destruct (insert_by_key_int n x placed) as (placed' & Hins & Hperm & Hsorted').
    { apply Forall_app in Hint as [_ Hplaced].
      rewrite fmap_app in Hfresh. apply not_elem_of_app in Hfresh as [_ Hfresh].
      apply Forall_forall. intros p Hp.
      rewrite Forall_forall in Hplaced. destruct (Hplaced p Hp) as [m Hm].
      exists m. split; [done|]. intros ->. apply Hfresh.
      apply list_elem_of_fmap. by exists p. }
    { done. }
    simpl. rewrite Hins. simpl.
    assert (Hp : todo ++ placed' ≡ₚ (PInt n, x) :: todo ++ placed).
    { rewrite Hperm. by rewrite Permutation_middle. }
    destruct (IH placed') as (s & -> & Hs & Hss); [| |done|].
    + rewrite Hp. constructor; [by exists n|done].
    + rewrite Hp. simpl. by constructor.
    + exists s. split; [done|]. split; [|done]. by rewrite Hs, Hp.
Qed.

Lemma with_pageid_Ok (l : list pydict) :
  Forall (fun item => is_Some (int_pageid item)) l ->
  exists keyed, with_pageid l = Ok keyed /\ keyed.*2 = l /\
    Forall (fun p => exists n, p.1 = PInt n /\ int_pageid p.2 = Some n) keyed.
Proof.
  induction 1 as [|item l [n Hn] Hl (keyed & Hkeyed & Hitems & Hall)].
  - by exists [].
  - unfold int_pageid in Hn. simpl.
    destruct (dict_get "pageid" item) as [[ | |m| | | |]|] eqn:Hget; try discriminate.
    injection Hn as ->. rewrite Hkeyed. simpl.
    eexists. split; [reflexivity|]. split; [by subst l|].
    constructor; [|done]. exists n. simpl. unfold int_pageid. by rewrite Hget.
Qed.

Lemma sorted_by_pageid_Ok (l : list pydict) :
  Forall (fun item => is_Some (int_pageid item)) l ->
  NoDup (int_pageid <$> l) ->
  exists s, sorted_by_pageid l = Ok s /\ s ≡ₚ l /\ StronglySorted pageid_lt s.
Proof.
  intros Hint Hnodup. unfold sorted_by_pageid.
  destruct (with_pageid_Ok l Hint) as (keyed & -> & Hitems & Hall). simpl.
  destruct (sort_loop_int keyed []) as (s & -> & Hs & Hsorted).
  - rewrite app_nil_r. eapply Forall_impl; [exact Hall|]. intros p (n & ? & _). by exists n.
  - rewrite app_nil_r. subst l. clear -Hall Hnodup.
    induction Hall as [|p keyed (n & Hp & Hn) Hall IH]; [constructor|].
    simpl in *. apply NoDup_cons in Hnodup as [Hfresh Hnodup].
    constructor; [|by apply IH].
    intros (q & Hq1 & Hq2)%list_elem_of_fmap. apply Hfresh.
    apply list_elem_of_fmap. exists q.2. split; [|apply list_elem_of_fmap; by exists q].
    rewrite Forall_forall in Hall. destruct (Hall q Hq2) as (m & Hm1 & Hm2).
    rewrite Hn, Hm2. congruence.
  - constructor.
  - simpl. rewrite app_nil_r in Hs. exists s.*2. split; [done|].
    split; [by rewrite Hs, Hitems|].
    assert (Hall' : Forall (fun p : pyval * pydict =>
                              exists n, p.1 = PInt n /\ int_pageid p.2 = Some n) s)
      by (by rewrite Hs).
    clear -Hsorted Hall'. induction Hsorted as [|p s Hsorted IH Hlt]; [constructor|].
    apply Forall_cons in Hall' as [(n & Hp1 & Hp2) Hall'].
    simpl. constructor; [by apply IH|].
    apply Forall_fmap. apply Forall_forall. intros q Hq.
    rewrite Forall_forall in Hlt, Hall'.
    destruct (Hlt q Hq) as (n' & m & Hn' & Hm & Hnm).
    destruct (Hall' q Hq) as (m' & Hq1 & Hq2).
    exists n, m. simpl. split; [done|]. split; [congruence|]. congruence.
Qed.

Lemma sorted_by_pageid_perm (l l' : list pydict) :
  Forall (fun item => is_Some (int_pageid item)) l ->
  NoDup (int_pageid <$> l) ->
  l ≡ₚ l' ->
  sorted_by_pageid l' = sorted_by_pageid l.
Proof.
  intros Hint Hnodup Hperm.
  destruct (sorted_by_pageid_Ok l Hint Hnodup) as (s & -> & Hs & Hsorted).
  destruct (sorted_by_pageid_Ok l') as (s' & -> & Hs' & Hsorted').
  { by rewrite <- Hperm. }
  { by rewrite <- Hperm. }
  f_equal. apply (StronglySorted_unique_strong pageid_lt); try done.
  - intros x1 x2 _ _ (n & m & Hn & Hm & Hnm) (m' & n' & Hm' & Hn' & Hmn).
    rewrite Hn in Hn'. rewrite Hm in Hm'. simplify_eq. lia.
  - by rewrite Hs, Hs'.
Qed.

(** X15. For pages whose ["pageid"]s are numbers, no two the same in a
    list, [_check_lists_of_unordered_pages] prints and returns the same
    in whatever order the pages of either list are given. *)
Theorem unordered_pages_any_order (db_list db_list' api_list api_list' : list pydict) :
  Forall (fun item => is_Some (int_pageid item)) db_list ->
  Forall (fun item => is_Some (int_pageid item)) api_list ->
  NoDup (int_pageid <$> db_list) ->
  NoDup (int_pageid <$> api_list) ->
  db_list ≡ₚ db_list' ->
  api_list ≡ₚ api_list' ->
  _check_lists_of_unordered_pages db_list' api_list'
  = _check_lists_of_unordered_pages db_list api_list.
Proof.
  intros Hdb Hapi Hdb_ids Hapi_ids Hdb_perm Hapi_perm.
  unfold _check_lists_of_unordered_pages.
  rewrite (sorted_by_pageid_perm api_list api_list') by done.
  by rewrite (sorted_by_pageid_perm db_list db_list') by done.
Qed.

Lemma with_pageid_missing (l : list pydict) :
  Exists (fun item => dict_get "pageid" item = None) l ->
  with_pageid l = Raise (KeyError "pageid").
Proof.
  induction 1 as [item l Hnone|item l Hex IH]; simpl.
  - by rewrite Hnone.
  - rewrite IH. by destruct (dict_get "pageid" item).
Qed.

(** X16. A page without ["pageid"] in the list of the source ends
    [_check_lists_of_unordered_pages] with [KeyError] and nothing
    printed: the sorting is outside the [try] of [_check_lists]. So does
    one in the list of the mirror, once the list of the source is
    sorted. *)
Theorem unordered_pages_missing_pageid (db_list api_list : list pydict) :
  (Exists (fun item => dict_get "pageid" item = None) api_list ->
   _check_lists_of_unordered_pages db_list api_list = ([], Raise (KeyError "pageid"))) /\
  (Exists (fun item => dict_get "pageid" item = None) db_list ->
   forall api_sorted, sorted_by_pageid api_list = Ok api_sorted ->
   _check_lists_of_unordered_pages db_list api_list = ([], Raise (KeyError "pageid"))).
Proof.
  unfold _check_lists_of_unordered_pages, sorted_by_pageid. split.
  - intros Hex. by rewrite (with_pageid_missing _ Hex).
  - intros Hex api_sorted Hapi. unfold sorted_by_pageid in Hapi. rewrite Hapi.
    by rewrite (with_pageid_missing _ Hex).
Qed.

End unordered_pages.

Section deduplicate.
Import Grab.

Lemma dedup_loop_spec (l : list pydict) :
  forall (seen out : list (list (string * hkey) * pydict)),
  dedup_loop l seen = Ok out ->
  Forall (fun p => items_key p.2 = Ok p.1) seen ->
  NoDup seen.*1 ->
  Forall (fun p => items_key p.2 = Ok p.1) out /\
  NoDup out.*1 /\
  (forall d, d ∈ l -> exists t, items_key d = Ok t /\ t ∈ out.*1) /\
  (forall t, t ∈ seen.*1 -> t ∈ out.*1) /\
  (forall p, p ∈ out -> p ∈ seen \/ p.2 ∈ l) /\
  (length out <= length seen + length l)%nat.
Proof.
  induction l as [|d l IH]; intros seen out Hloop Hseen Hnodup.
  - injection Hloop as <-. repeat split; try done.
    + intros d Hd. by apply elem_of_nil in Hd.
    + intros p Hp. by left.
    + lia.
  - simpl in Hloop. destruct (items_key d) as [t|e] eqn:Ht; [|discriminate].
    simpl in Hloop. destruct (decide (t ∈ seen.*1)) as [Hin|Hnew].
    + destruct (IH seen out Hloop Hseen Hnodup) as (H1 & H2 & H3 & H4 & H5 & H6).
      repeat split; try done.
      * intros d' [->|Hd']%elem_of_cons; [|by apply H3].
        exists t. split; [done|]. by apply H4.
      * intros p Hp. destruct (H5 p Hp) as [?|?]; [by left|right; by right].
      * simpl. lia.
    + destruct (IH (seen ++ [(t, d)]) out Hloop) as (H1 & H2 & H3 & H4 & H5 & H6).
      { apply Forall_app. split; [done|]. by constructor. }
      { rewrite fmap_app. apply NoDup_app. split; [done|]. split.
        - intros t' Ht' [->|[]%elem_of_nil]%elem_of_cons. done.
        - apply NoDup_singleton. }
      repeat split; try done.
      * intros d' [->|Hd']%elem_of_cons; [|by apply H3].
        exists t. split; [done|]. apply H4. rewrite fmap_app.
        apply elem_of_app. right. by left.
      * intros t' Ht'. apply H4. rewrite fmap_app. apply elem_of_app. by left.
      * intros p Hp. destruct (H5 p Hp) as [[?|Hp']%elem_of_app|?].
        -- by left.
        -- apply list_elem_of_singleton in Hp' as ->. right. by left.
        -- right. by right.
      * rewrite length_app in H6. simpl in *. lia.
Qed.

(** X17. What [_deduplicate_list_of_dicts] returns, in whatever order the
    set is gone through: no two records with the same items, for every
    record given one with the same items, only records that were given,
    and no more of them than were given. *)
Theorem deduplicate_keeps_one_of_each
    (set_order : list pydict -> list pydict) (l out : list pydict) :
  (forall s, set_order s ≡ₚ s) ->
  _deduplicate_list_of_dicts set_order l = Ok out ->
  NoDup (items_key <$> out) /\
  (forall d, d ∈ l -> exists d', d' ∈ out /\ items_key d' = items_key d) /\
  (forall d', d' ∈ out -> d' ∈ l) /\
  (length out <= length l)%nat.
Proof.
  intros Horder. unfold _deduplicate_list_of_dicts.
  destruct (dedup_loop l []) as [seen|e] eqn:Hloop; [|discriminate].
  simpl. intros [= <-].
  destruct (dedup_loop_spec l [] seen Hloop) as (H1 & H2 & H3 & _ & H5 & H6);
    [constructor|constructor|].
  assert (Hkeys : items_key <$> seen.*2 = Ok <$> seen.*1).
  { clear -H1. induction H1 as [|p seen Hp H1 IH]; [done|]. simpl. f_equal; [exact Hp|exact IH]. }
  repeat split.
  - rewrite (Horder seen.*2), Hkeys. apply NoDup_fmap_2; [|exact H2].
    intros t t' Heq. by injection Heq.
  - intros d Hd. destruct (H3 d Hd) as (t & Ht & Hin).
    apply list_elem_of_fmap in Hin as (p & -> & Hp).
    exists p.2. split.
    + rewrite (Horder seen.*2). apply list_elem_of_fmap. by exists p.
    + rewrite Ht. rewrite Forall_forall in H1. by apply H1.
  - intros d' Hd'. rewrite (Horder seen.*2) in Hd'.
    apply list_elem_of_fmap in Hd' as (p & -> & Hp).
    destruct (H5 p Hp) as [[]%elem_of_nil|?]. done.
  - rewrite (Horder seen.*2), length_fmap. simpl in H6. lia.
Qed.

End deduplicate.

Section categories.
Import Grab.

Lemma tracked_spec (cats kept : list pyval) :
  tracked cats = Ok kept ->
  Forall (fun cat => is_tracked cat = Ok true) kept /\ tracked kept = Ok kept.
Proof.
  revert kept. induction cats as [|cat cats IH]; intros kept Hkept.
  - by injection Hkept as <-.
  - simpl in Hkept. destruct (is_tracked cat) as [keep|e] eqn:Hcat; [|discriminate].
    simpl in Hkept. destruct (tracked cats) as [rest|e]; [|discriminate].
    simpl in Hkept. destruct (IH rest eq_refl) as [Hall Hidem].
    destruct keep; injection Hkept as <-; [|done].
    split; [by constructor|]. simpl. by rewrite Hcat, Hidem.
Qed.

Lemma dict_set_same (k : string) (v : pyval) (d : pydict) :
  dict_get k d = Some v -> dict_set k v d = d.
Proof.
  induction d as [|[k' v'] d IH]; simpl; [discriminate|].
  destruct (String.eqb_spec k' k) as [->|Hne].
  - by intros [= ->].
  - intros Hget. by rewrite IH.
Qed.

Lemma drop_automatic_spec (page page' : pydict) :
  drop_automatic page = Ok page' ->
  (forall k, k <> "categories"%string -> dict_get k page' = dict_get k page) /\
  categories_cleaned page' /\
  drop_automatic page' = Ok page'.
Proof.
  unfold drop_automatic, categories_cleaned.
  destruct (dict_get "categories" page) as [v|] eqn:Hget.
  - intros Hdrop. apply bind_Ok in Hdrop as (kept & Hkept & Hdrop).
    assert (Hk : Forall (fun cat => is_tracked cat = Ok true) kept /\ tracked kept = Ok kept).
    { destruct v as [ | | |s| |cats|d]; try discriminate.
      - destruct s; [|discriminate]. by injection Hkept as <-.
      - by apply tracked_spec in Hkept.
      - destruct d; [|discriminate]. by injection Hkept as <-. }
    destruct Hk as [Hall Hidem].
    destruct kept as [|cat kept]; injection Hdrop as <-.
    + split; [intros k Hk; by apply dict_get_del_ne|].
      rewrite dict_get_del_eq. done.
    + split; [intros k Hk; by apply dict_get_set_ne|].
      rewrite dict_get_set_eq. split; [by eauto|].
      rewrite Hidem. simpl. f_equal. apply dict_set_same, dict_get_set_eq.
  - intros [= <-]. rewrite Hget. done.
Qed.

(** X18. After the loop of [check_categorylinks] over the categories, a
    page either has no ["categories"] or has a list of them that is not
    empty and holds no automatic category; every other field is as it
    was; and going through the loop again changes nothing. *)
Theorem drop_automatic_categories_cleans (api_list cleaned : list pydict) :
  drop_automatic_categories api_list = Ok cleaned ->
  Forall2 (fun page page' =>
             (forall k, k <> "categories"%string -> dict_get k page' = dict_get k page) /\
             categories_cleaned page') api_list cleaned /\
  drop_automatic_categories cleaned = Ok cleaned.
Proof.
  revert cleaned. induction api_list as [|page rest IH]; intros cleaned Hdrop.
  - by injection Hdrop as <-.
  - simpl in Hdrop. apply bind_Ok in Hdrop as (page' & Hpage & Hdrop).
    apply bind_Ok in Hdrop as (rest' & Hrest & [= <-]).
    destruct (drop_automatic_spec _ _ Hpage) as (Hother & Hclean & Hidem).
    destruct (IH rest' Hrest) as [Hall Hidem'].
    split; [by constructor|]. simpl. by rewrite Hidem, Hidem'.
Qed.

End categories.

Section squash_edges.
Import Grab.

Lemma squash_loop_app (key : string) (pre post : list nat) (api_dict : odict) (h : store) :
  squash_loop key (pre ++ post) api_dict h
  = '(api_dict', h') ← squash_loop key pre api_dict h; squash_loop key post api_dict' h'.
Proof.
  revert api_dict h. induction pre as [|item pre IH]; intros api_dict h; [reflexivity|].
  simpl. destruct (identity key (deref h item)) as [id|e]; [|reflexivity]. simpl.
  destruct (odict_get id api_dict); apply IH.
Qed.

(** The loop writes into records it has stored, and stores records of
    the list. *)
Lemma squash_loop_frame (key : string) (api_list : list nat) :
  forall (api_dict api_dict' : odict) (h h' : store),
  squash_loop key api_list api_dict h = Ok (api_dict', h') ->
  (forall l, l ∈ api_dict'.*2 -> l ∈ api_dict.*2 \/ l ∈ api_list) /\
  (forall l, l ∉ api_dict.*2 -> l ∉ api_list -> deref h' l = deref h l).
Proof.
  induction api_list as [|item rest IH]; intros api_dict api_dict' h h' Hloop.
  - injection Hloop as <- <-. split; [by left|done].
  - simpl in Hloop. apply bind_Ok in Hloop as (id & Hid & Hloop).
    destruct (odict_get id api_dict) as [destination|] eqn:Hget.
    + apply IH in Hloop as [Hstored Hframe]. split.
      * intros l Hl. destruct (Hstored l Hl) as [?|?]; [by left|right; by right].
      * intros l Hd Hl. apply not_elem_of_cons in Hl as [Hne Hl].
        rewrite (Hframe l Hd Hl). apply deref_insert_ne.
        intros ->. apply Hd. by eapply odict_get_Some_elem.
    + apply IH in Hloop as [Hstored Hframe]. split.
      * intros l Hl. destruct (Hstored l Hl) as [Hin|?]; [|right; by right].
        rewrite fmap_app in Hin. apply elem_of_app in Hin as [?|Hin]; [by left|].
        apply list_elem_of_singleton in Hin as ->. right. by left.
      * intros l Hd Hl. apply not_elem_of_cons in Hl as [Hne Hl].
        apply Hframe; [|done]. rewrite fmap_app. apply not_elem_of_app.
        split; [done|]. by intros ->%list_elem_of_singleton.
Qed.

Lemma squash_loop_distinct (key : string) (api_list : list nat) (ids : list hkey)
    (api_dict : odict) (h : store) :
  Forall2 (fun item id => identity key (deref h item) = Ok id) api_list ids ->
  NoDup (api_dict.*1 ++ ids) ->
  squash_loop key api_list api_dict h = Ok (api_dict ++ zip ids api_list, h).
Proof.
  intros Hids. revert api_dict.
  induction Hids as [|item id api_list ids Hid Hids IH]; intros api_dict Hnodup.
  - simpl. by rewrite app_nil_r.
  - simpl. rewrite Hid. simpl.
    assert (Hnew : odict_get id api_dict = None).
    { apply odict_get_None. apply NoDup_app in Hnodup as (_ & Hsep & _).
      intros Hin. apply (Hsep id Hin). by left. }
    rewrite Hnew, IH.
    + by rewrite <- app_assoc.
    + rewrite fmap_app. simpl. by rewrite <- app_assoc.
Qed.

(** X19. A list in which no identity occurs twice is returned by
    [_squash_list_of_dicts] as it is, and no record is written to. *)
Theorem squash_distinct_identities (api_list : list nat) (key : string) (h : store)
    (ids : list hkey) :
  Forall2 (fun item id => identity key (deref h item) = Ok id) api_list ids ->
  NoDup ids ->
  _squash_list_of_dicts api_list key h = Ok (api_list, h).
Proof.
  intros Hids Hnodup. unfold _squash_list_of_dicts.
  rewrite (squash_loop_distinct key api_list ids [] h Hids Hnodup). simpl.
  f_equal. f_equal. apply Forall2_length in Hids.
  by apply snd_zip, Nat.eq_le_incl.
Qed.

(** X20. A record without the identity key ends [_squash_list_of_dicts]
    with [KeyError], the records before it carrying the key and being
    distinct objects. *)
Theorem squash_record_without_key
    (pre post : list nat) (item : nat) (key : string) (h : store) (ids : list hkey) :
  Forall2 (fun record id => identity key (deref h record) = Ok id) pre ids ->
  NoDup pre ->
  item ∉ pre ->
  dict_get key (deref h item) = None ->
  _squash_list_of_dicts (pre ++ item :: post) key h = Raise (KeyError key).
Proof.
  intros Hids Hnodup Hitem Hkey. unfold _squash_list_of_dicts.
  rewrite squash_loop_app.
  destruct (squash_loop_spec key pre ids [] h Hids Hnodup)
    as (api_dict & h' & Hloop & _); [intros l _; apply not_elem_of_nil|constructor|].
  rewrite Hloop. simpl.
  destruct (squash_loop_frame key pre [] api_dict h h' Hloop) as [_ Hframe].
  unfold identity. rewrite (Hframe item); [|apply not_elem_of_nil|done].
  by rewrite Hkey.
Qed.

End squash_edges.

(** ** ws/cache/AllUsersProps.py *)

Section changed_users.
Import Cache Grab AllUsersProps.
Context `{Serialization}.
Variable logevents : string -> option mval -> list pydict.

Lemma after_colon_Some (title name : string) :
  after_colon title = Some name ->
  exists ns, title = ns +:+ ":" +:+ name /\ after_colon ns = None.
Proof.
  induction title as [|c title IH]; simpl; [discriminate|].
  destruct (Ascii.eqb_spec c ":") as [->|Hc].
  - intros [= ->]. by exists EmptyString.
  - intros Hrest. destruct (IH Hrest) as (ns & -> & Hns).
    exists (String c ns). split; [done|]. simpl.
    destruct (Ascii.eqb_spec c ":"); done.
Qed.

Lemma usernames_Done (events : list pydict) (names : list string) :
  usernames events = Done names ->
  Forall2 (fun user name => username user = Done name) events names.
Proof.
  revert names. induction events as [|user events IH]; intros names; simpl.
  - intros [= <-]. constructor.
  - destruct (username user) as [name|f] eqn:Hname; [|discriminate]. simpl.
    destruct (usernames events) as [rest|f]; [|discriminate]. simpl.
    intros [= <-]. constructor; [done|]. by apply IH.
Qed.

Lemma usernames_Fails (events : list pydict) (f : failure) :
  usernames events = Fails f -> Exists (fun user => username user = Fails f) events.
Proof.
  induction events as [|user events IH]; simpl; [discriminate|].
  destruct (username user) as [name|f'] eqn:Hname; simpl.
  - destruct (usernames events) as [rest|f']; [discriminate|]. simpl.
    intros [= ->]. right. by apply IH.
  - intros [= ->]. by left.
Qed.

(** X21. [_find_changed_users] goes through the new users, the rights
    changes and the blocks, in this order, and returns for each event
    what follows the first colon of its title. It fails where
    [username] fails on an event: with [IndexError] for a title without
    a colon. *)
Theorem find_changed_users_names (self : cachedb) :
  let lestart := meta self !! "timestamp"%string in
  let events := logevents "newusers" lestart ++ logevents "rights" lestart
                ++ logevents "block" lestart in
  match _find_changed_users logevents self with
  | Done users =>
      Forall2 (fun user name =>
                 exists ns, dict_get "title" user = Some (PStr (ns +:+ ":" +:+ name)) /\
                            after_colon ns = None) events users
  | Fails f => Exists (fun user => username user = Fails f) events
  end.
Proof.
  intros lestart events. unfold _find_changed_users. fold lestart.
  assert (Htitle : forall l names,
            Forall2 (fun user name => username user = Done name) l names ->
            Forall2 (fun user name =>
                       exists ns, dict_get "title" user = Some (PStr (ns +:+ ":" +:+ name)) /\
                                  after_colon ns = None) l names).
  { intros l names Hall. eapply Forall2_impl; [exact Hall|].
    intros user name. unfold username.
    destruct (dict_get "title" user) as [[ | | |title| | |]|]; try discriminate.
    destruct (after_colon title) as [name'|] eqn:Hafter; [|discriminate].
    intros [= ->]. apply after_colon_Some in Hafter as (ns & -> & Hns). eauto. }
  unfold events.
  destruct (usernames (logevents "newusers" lestart)) as [u1|f] eqn:H1; simpl;
    [|apply Exists_app; left; by apply usernames_Fails].
  destruct (usernames (logevents "rights" lestart)) as [u2|f] eqn:H2; simpl;
    [|apply Exists_app; right; apply Exists_app; left; by apply usernames_Fails].
  destruct (usernames (logevents "block" lestart)) as [u3|f] eqn:H3; simpl;
    [|apply Exists_app; right; apply Exists_app; right; by apply usernames_Fails].
  repeat apply Forall2_app; by apply Htitle, usernames_Done.
Qed.

End changed_users.

Section active_users.
Import Cache Grab AllUsersProps.

Lemma counts_get_set_eq (k : hkey) (n : Z) (cs : counts) :
  counts_get k (counts_set k n cs) = Some n.
Proof.
  induction cs as [|[k' n'] cs IH]; cbn [counts_get counts_set].
  - by rewrite decide_True.
  - destruct (decide (k' = k)); cbn [counts_get]; [by rewrite decide_True|].
    by rewrite decide_False.
Qed.

Lemma counts_get_set_ne (k k0 : hkey) (n : Z) (cs : counts) :
  k0 <> k -> counts_get k (counts_set k0 n cs) = counts_get k cs.
Proof.
  intros Hne. induction cs as [|[k' n'] cs IH]; cbn [counts_get counts_set].
  - by rewrite decide_False.
  - destruct (decide (k' = k0)) as [->|]; cbn [counts_get].
    + by rewrite !decide_False.
    + by rewrite IH.
Qed.

Lemma counts_set_keys (k : hkey) (n : Z) (cs : counts) :
  (counts_set k n cs).*1 = if decide (k ∈ cs.*1) then cs.*1 else cs.*1 ++ [k].
Proof.
  induction cs as [|[k' n'] cs IH]; cbn [counts_set fmap list_fmap fst app].
  - rewrite decide_False; [done|]. apply not_elem_of_nil.
  - destruct (decide (k' = k)) as [->|Hne]; cbn [fmap list_fmap fst].
    + rewrite decide_True; [done|]. by left.
    + change (list_fmap _ _ fst ?l) with (l.*1). rewrite IH.
      destruct (decide (k ∈ cs.*1)) as [Hin|Hout].
      * rewrite decide_True; [done|]. by right.
      * rewrite decide_False; [done|]. by intros [->|?]%elem_of_cons.
Qed.

Lemma counts_get_None (k : hkey) (cs : counts) : counts_get k cs = None <-> k ∉ cs.*1.
Proof.
  induction cs as [|[k' n'] cs IH]; cbn [counts_get fmap list_fmap fst].
  - split; [intros _; apply not_elem_of_nil|done].
  - change (list_fmap _ _ fst ?l) with (l.*1).
    destruct (decide (k' = k)) as [->|Hne].
    + split; [discriminate|]. intros Hout. exfalso. apply Hout. by left.
    + rewrite IH. split.
      * intros Hout [->|?]%elem_of_cons; done.
      * intros Hout Hin. apply Hout. by right.
Qed.

Lemma count_changes_spec (rc : list pydict) :
  forall (rcusers out : counts),
  count_changes rc rcusers = Ok out ->
  NoDup rcusers.*1 ->
  NoDup out.*1 /\
  forall user, counts_get user out = counted user rc (counts_get user rcusers).
Proof.
  induction rc as [|change rc IH]; intros rcusers out Hloop Hnodup.
  - by injection Hloop as <-.
  - simpl in Hloop. destruct (user_of change) as [u|e] eqn:Hu; [|discriminate].
    simpl in Hloop.
    assert (Hstep : exists n,
              count_changes rc (counts_set u n rcusers) = Ok out /\
              n = match counts_get u rcusers with Some m => m + 1 | None => 1 end).
    { destruct (counts_get u rcusers) as [m|]; eauto. }
    destruct Hstep as (n & Hrest & Hn). clear Hloop.
    destruct (IH _ _ Hrest) as [Hout Hget].
    { rewrite counts_set_keys. destruct (decide (u ∈ rcusers.*1)); [done|].
      apply NoDup_app. split; [done|]. split; [|apply NoDup_singleton].
      by intros k Hk ->%list_elem_of_singleton. }
    split; [exact Hout|]. intros user. rewrite Hget. unfold counted, changes_by.
    simpl. rewrite Hu.
    destruct (decide (u = user)) as [->|Hne].
    + rewrite bool_decide_true by done. rewrite counts_get_set_eq. subst n.
      fold (changes_by user rc).
      destruct (changes_by user rc) as [|c cs]; simpl length;
        destruct (counts_get user rcusers); f_equal; lia.
    + rewrite bool_decide_false by done. by rewrite counts_get_set_ne.
Qed.

Lemma count_changes_default (rc : list pydict) (rcusers : counts) :
  count_changes rc [] = Ok rcusers ->
  forall user, default 0 (counts_get user rcusers)
               = Z.of_nat (length (changes_by user rc)).
Proof.
  intros Hloop user.
  destruct (count_changes_spec rc [] rcusers Hloop) as [_ Hget]; [constructor|].
  rewrite Hget. unfold counted. simpl. by destruct (changes_by user rc).
Qed.

(** X22. The counting loop of [_find_active_users]: every user who made
    a change has one entry, nobody else has one, and the count of a user
    is the number of changes the user made. *)
Theorem count_changes_counts (rc : list pydict) (rcusers : counts) :
  count_changes rc [] = Ok rcusers ->
  NoDup rcusers.*1 /\
  (forall user, user ∈ rcusers.*1 <-> changes_by user rc <> []) /\
  (forall user, default 0 (counts_get user rcusers)
                = Z.of_nat (length (changes_by user rc))).
Proof.
  intros Hloop. destruct (count_changes_spec rc [] rcusers Hloop) as [Hnodup Hget];
    [constructor|].
  split; [exact Hnodup|]. split; [|by apply count_changes_default].
  intros user. pose proof (counts_get_None user rcusers) as Hnone.
  rewrite Hget in Hnone. unfold counted in Hnone. simpl in Hnone.
  destruct (changes_by user rc) as [|c cs].
  - split; [|done]. intros Hin. exfalso. by apply (proj1 Hnone).
  - split; [done|]. intros _.
    destruct (decide (user ∈ rcusers.*1)) as [Hin|Hout]; [done|].
    by apply Hnone in Hout.
Qed.

Section find_active_users.
Context `{Serialization}.
Variable midnight : datetime -> datetime.
Variable minus_days : datetime -> Z -> option datetime.
Variable later : datetime -> datetime -> bool.
Variable strftime_date : datetime -> string.
Variable recentchanges : datetime -> datetime -> list pydict.
Variable oldest_rc_timestamp : datetime.

Lemma find_active_users_frame
    (round_to_midnight : bool) (active_days : Z) (utcnow : datetime) (self : cachedb) :
  match _find_active_users midnight minus_days later strftime_date
          recentchanges oldest_rc_timestamp round_to_midnight active_days utcnow self with
  | (Done _, self') => data self' = data self
  | (Fails _, self') => self' = self
  end.
Proof.
  unfold _find_active_users.
  destruct (minus_days _ _) as [firstday|]; [|reflexivity].
  destruct (count_changes _ _) as [rcusers|e]; [|reflexivity].
  destruct (later oldest_rc_timestamp firstday); reflexivity.
Qed.

(** X23. What [_find_active_users] returns and records: the count of each
    user among the changes between [firstday] and [today], and under
    ["activeuserscount"], ["firstdate"] and ["lastdate"] the number of
    users counted and the two days, the rest of the object left as it
    was. When it fails - the changes do not reach back to [firstday]
    - the object is as it was before the call. *)
Theorem find_active_users_records
    (round_to_midnight : bool) (active_days : Z) (utcnow : datetime) (self : cachedb) :
  let today := if round_to_midnight then midnight utcnow else utcnow in
  match _find_active_users midnight minus_days later strftime_date
          recentchanges oldest_rc_timestamp round_to_midnight active_days utcnow self with
  | (Done rcusers, self') =>
      exists firstday,
        minus_days today active_days = Some firstday /\
        later oldest_rc_timestamp firstday = false /\
        (forall user, default 0 (counts_get user rcusers)
                      = Z.of_nat (length (changes_by user (recentchanges today firstday)))) /\
        meta self' !! "activeuserscount"%string
        = Some (MJson (JInt (Z.of_nat (length rcusers)))) /\
        meta self' !! "firstdate"%string = Some (MStr (strftime_date firstday)) /\
        meta self' !! "lastdate"%string = Some (MStr (strftime_date today)) /\
        (forall k, k <> "activeuserscount"%string -> k <> "firstdate"%string ->
                   k <> "lastdate"%string -> meta self' !! k = meta self !! k) /\
        data self' = data self
  | (Fails f, self') => self' = self
  end.
Proof.
  intros today. unfold _find_active_users. fold today.
  destruct (minus_days today active_days) as [firstday|]; [|reflexivity].
  destruct (count_changes _ _) as [rcusers|e] eqn:Hcount; [|reflexivity].
  destruct (later oldest_rc_timestamp firstday) eqn:Hlater; [reflexivity|].
  exists firstday. pose proof (count_changes_default _ _ Hcount) as Hget.
  repeat split; try done; simpl.
  - apply lookup_insert_eq.
  - rewrite !lookup_insert_ne by done. apply lookup_insert_eq.
  - rewrite lookup_insert_ne by done. apply lookup_insert_eq.
  - intros k ? ? ?. by rewrite !lookup_insert_ne.
Qed.

End find_active_users.

Lemma dict_set_set (k : string) (v v' : pyval) (d : pydict) :
  dict_set k v (dict_set k v' d) = dict_set k v d.
Proof.
  induction d as [|[k0 v0] d IH]; simpl.
  - by rewrite String.eqb_refl.
  - destruct (String.eqb k0 k) eqn:E; simpl.
    + by rewrite String.eqb_refl.
    + by rewrite E, IH.
Qed.

Lemma update_user_spec (rcusers : counts) (user user' : pydict) :
  update_user rcusers user = Ok user' ->
  (exists name k,
     dict_get "name" user = Some name /\ hash_key name = Ok k /\
     dict_get "recenteditcount" user' = Some (PInt (default 0 (counts_get k rcusers)))) /\
  (forall field, field <> "recenteditcount"%string ->
                 dict_get field user' = dict_get field user) /\
  update_user rcusers user' = Ok user'.
Proof.
  unfold update_user.
  destruct (dict_get "name" user) as [name|] eqn:Hname; [|discriminate].
  destruct (hash_key name) as [k|e] eqn:Hk; [|discriminate]. simpl.
  intros [= <-]. split; [|split].
  - exists name, k. by rewrite dict_get_set_eq.
  - intros field Hfield. by apply dict_get_set_ne.
  - rewrite dict_get_set_ne, Hname, Hk by done. simpl. by rewrite dict_set_set.
Qed.

(** X24. With the counts of [count_changes], [_update_recent_edit_counts]
    leaves in every record under ["recenteditcount"] the number of
    changes the user of that name made, 0 for a user who made none; the
    other fields are as they were, and a second run changes nothing. *)
Theorem update_recent_edit_counts_writes_counts
    (rc : list pydict) (rcusers : counts) (data data' : list pydict) :
  count_changes rc [] = Ok rcusers ->
  _update_recent_edit_counts rcusers data = (Ok tt, data') ->
  Forall2 (fun user user' =>
             (exists name k,
                dict_get "name" user = Some name /\ hash_key name = Ok k /\
                dict_get "recenteditcount" user'
                = Some (PInt (Z.of_nat (length (changes_by k rc))))) /\
             (forall field, field <> "recenteditcount"%string ->
                            dict_get field user' = dict_get field user))
          data data' /\
  _update_recent_edit_counts rcusers data' = (Ok tt, data').
Proof.
  intros Hcount. pose proof (count_changes_default _ _ Hcount) as Hget.
  revert data'. induction data as [|user data IH]; intros data'; simpl.
  - by intros [= <-].
  - destruct (update_user rcusers user) as [user'|e] eqn:Huser; [|discriminate].
    destruct (_update_recent_edit_counts rcusers data) as [r rest'] eqn:Hrest.
    intros [= -> <-].
    destruct (update_user_spec _ _ _ Huser) as ((name & k & Hname & Hk & Hcnt) & Hother & Hidem).
    destruct (IH rest' eq_refl) as [Hall Hidem'].
    split.
    + constructor; [|done]. split; [|done].
      exists name, k. by rewrite <- Hget.
    + simpl. by rewrite Hidem, Hidem'.
Qed.

(** X25. A record without ["name"] ends [_update_recent_edit_counts] with
    [KeyError]: the records before it have their count already, that
    record and those after it are as they were. *)
Theorem update_recent_edit_counts_stops_at_nameless
    (rcusers : counts) (pre pre' post : list pydict) (user : pydict) :
  Forall2 (fun u u' => update_user rcusers u = Ok u') pre pre' ->
  dict_get "name" user = None ->
  _update_recent_edit_counts rcusers (pre ++ user :: post)
  = (Raise (KeyError "name"), pre' ++ user :: post).
Proof.
  intros Hpre Hname. induction Hpre as [|u u' pre pre' Hu Hpre IH]; simpl.
  - unfold update_user. by rewrite Hname.
  - by rewrite Hu, IH.
Qed.

End active_users.

Section init.
Import Cache Grab AllUsersProps.
Context `{Serialization}.
Variable midnight : datetime -> datetime.
Variable minus_days : datetime -> Z -> option datetime.
Variable later : datetime -> datetime -> bool.
Variable strftime_date : datetime -> string.
Variable recentchanges : datetime -> datetime -> list pydict.
Variable oldest_rc_timestamp : datetime.
Variable allusers : list pydict.
Variable records : list pydict -> pydata.

Lemma update_recent_edit_counts_length (rcusers : counts) (data : list pydict) :
  length (_update_recent_edit_counts rcusers data).2 = length data.
Proof.
  induction data as [|user data IH]; [reflexivity|]. simpl.
  destruct (update_user rcusers user); [|reflexivity].
  destruct (_update_recent_edit_counts rcusers data). simpl in *. by rewrite IH.
Qed.

Lemma stamp_and_commit_Done (autocommit : bool) (utcnow : datetime) (fault : io_fault)
    (self self' : cachedb) (dk dk' : disk) :
  stamp_and_commit autocommit utcnow fault self dk = (Done tt, self', dk') ->
  data self' = data self /\
  meta self' !! "timestamp"%string = Some (MTime utcnow) /\
  if autocommit
  then exists s, json_dumps (data self) = Some s /\
                 dbpath dk' = Some (GzStream s) /\
                 meta self' !! "md5"%string = Some (MStr (md5sum s))
  else dk' = dk.
Proof.
  unfold stamp_and_commit, _update_timestamp. destruct autocommit.
  - unfold dump. simpl.
    destruct (decide (fault = FailMakedirs)); [discriminate|].
    destruct (json_dumps (data self)) as [s|]; [|discriminate]. simpl.
    destruct (format_timestamp _) as [m|e]; [|discriminate].
    destruct (decide (fault = FailOpenDb)); [discriminate|].
    destruct (decide (fault = FailWriteDb)); [discriminate|].
    destruct (decide (fault = FailOpenMeta)); [discriminate|].
    destruct (json_dumps_meta m); [|discriminate].
    destruct (decide (fault = FailWriteMeta)); [discriminate|].
    intros [= <- <-]. simpl. split; [done|]. split.
    + rewrite lookup_insert_ne by done. apply lookup_insert_eq.
    + exists s. split; [done|]. split; [done|]. apply lookup_insert_eq.
  - intros [= <- <-]. simpl. split; [done|]. split; [apply lookup_insert_eq|done].
Qed.

Lemma stamp_and_commit_Fails (autocommit : bool) (utcnow : datetime) (fault : io_fault)
    (self self' : cachedb) (dk dk' : disk) (f : failure) :
  stamp_and_commit autocommit utcnow fault self dk = (Fails f, self', dk') ->
  data self' = data self /\ exists e, f = Builtin e.
Proof.
  unfold stamp_and_commit. destruct autocommit; [|discriminate].
  pose proof (dump_keeps_data fault (_update_timestamp utcnow self) dk) as Hdata.
  destruct (dump fault (_update_timestamp utcnow self) dk) as [[r self1] dk1].
  simpl in Hdata. destruct r as [[]|e]; [discriminate|].
  intros [= <- <- <-]. split; [exact Hdata|]. by exists e.
Qed.

(** X26. How [init] ends: never with [ShortRecentChangesError], which it
    passes over. When it returns, the timestamp is the time of the call
    and, under autocommit, the payload file holds the serialized data
    and the object its checksum; without autocommit the files are as
    they were. However it ends, [self.data] holds as many records as the
    API listed users. *)
Theorem init_outcomes (autocommit round_to_midnight : bool) (active_days : Z)
    (utcnow utcnow' : datetime) (fault : io_fault) (self : cachedb) (dk : disk) :
  match init midnight minus_days later strftime_date recentchanges oldest_rc_timestamp
          allusers records autocommit round_to_midnight active_days utcnow utcnow'
          fault self dk with
  | (Done _, self', dk') =>
      (exists users, data self' = records users /\ length users = length allusers) /\
      meta self' !! "timestamp"%string = Some (MTime utcnow') /\
      if autocommit
      then exists s, json_dumps (data self') = Some s /\
                     dbpath dk' = Some (GzStream s) /\
                     meta self' !! "md5"%string = Some (MStr (md5sum s))
      else dk' = dk
  | (Fails f, self', dk') =>
      (exists users, data self' = records users /\ length users = length allusers) /\
      f <> ShortRecentChangesError
  end.
Proof.
  unfold init.
  pose proof (find_active_users_frame midnight minus_days later strftime_date
                recentchanges oldest_rc_timestamp round_to_midnight active_days utcnow
                (CacheDb (meta self) (records allusers))) as Hframe.
  destruct (_find_active_users _ _ _ _ _ _ _ _ _ _) as [[rcusers|f] self1].
  - simpl in Hframe.
    pose proof (update_recent_edit_counts_length rcusers allusers) as Hlen.
    destruct (_update_recent_edit_counts rcusers allusers) as [[[]|e] users]; simpl in Hlen.
    + destruct (stamp_and_commit _ _ _ _ _) as [[[[]|f] self'] dk'] eqn:Hcommit.
      * apply stamp_and_commit_Done in Hcommit as (Hdata & Hts & Hdk). simpl in Hdata.
        split; [by exists users|]. split; [done|].
        destruct autocommit; [|done]. by rewrite Hdata.
      * apply stamp_and_commit_Fails in Hcommit as (Hdata & e & ->). simpl in Hdata.
        split; [by exists users|done].
    + split; [by exists users|done].
  - simpl in Hframe.
    assert (Hdata : data self1 = records allusers) by (by rewrite Hframe).
    destruct f as [ | | |e].
    + destruct (stamp_and_commit _ _ _ _ _) as [[[[]|f] self'] dk'] eqn:Hcommit.
      * apply stamp_and_commit_Done in Hcommit as (Hdata' & Hts & Hdk).
        split; [exists allusers; by rewrite Hdata'|]. split; [done|].
        destruct autocommit; [|done]. by rewrite Hdata'.
      * apply stamp_and_commit_Fails in Hcommit as (Hdata' & e & ->).
        split; [exists allusers; by rewrite Hdata'|done].
    + split; [by exists allusers|done].
    + split; [by exists allusers|done].
    + split; [by exists allusers|done].
Qed.

End init.

Section grab_more_examples.
Import Grab AllUsersProps Samples.

Lemma check_recentchanges_stops_at_first_mismatch_witness :
  check_recentchanges [KInt 7; KInt 8; KInt 9] rc_db rc_api
  = (_pprint_diff 1
       (db_entry_checked
          [("rcid", PInt 2); ("pageid", PInt 8); ("user", PStr "Alice")]%string)
       (api_entry_checked
          [("rcid", PInt 2); ("pageid", PInt 8); ("user", PStr "Alicia")]%string)
     ++ [PrintExc (AssertionError None)],
     Ok tt).
Proof.
  apply (check_recentchanges_stops_at_first_mismatch [KInt 7; KInt 8; KInt 9] rc_db rc_api
           [ [("rcid", PInt 1); ("pageid", PInt 7); ("autopatrolled", PStr EmptyString)];
             [("rcid", PInt 2); ("pageid", PInt 8); ("user", PStr "Alicia")];
             [("rcid", PInt 3); ("pageid", PInt 9); ("user", PStr "Bobby")] ]%string
           [ ([("rcid", PInt 1); ("pageid", PInt 7); ("patrolled", PStr EmptyString)],
              [("rcid", PInt 1); ("pageid", PInt 7); ("autopatrolled", PStr EmptyString)]) ]%string
           [ ([("rcid", PInt 3); ("pageid", PInt 9); ("user", PStr "Bob")],
              [("rcid", PInt 3); ("pageid", PInt 9); ("user", PStr "Bobby")]) ]%string).
  - vm_compute. reflexivity.
  - reflexivity.
  - reflexivity.
  - constructor; [|constructor]. vm_compute. reflexivity.
  - vm_compute. reflexivity.
Defined.

Lemma unordered_pages_any_order_witness :
  _check_lists_of_unordered_pages (rev pages_db) (rev pages_api)
  = _check_lists_of_unordered_pages pages_db pages_api.
Proof.
  apply (unordered_pages_any_order pages_db (rev pages_db) pages_api (rev pages_api)).
  - repeat constructor; eexists; reflexivity.
  - repeat constructor; eexists; reflexivity.
  - refine (bool_decide_unpack _ _). vm_compute. exact I.
  - refine (bool_decide_unpack _ _). vm_compute. exact I.
  - apply Permutation_rev.
  - apply Permutation_rev.
Defined.

Lemma unordered_pages_missing_pageid_witness :
  _check_lists_of_unordered_pages pages_db [ [("title", PStr "A")] ]%string
  = ([], Raise (KeyError "pageid")) /\
  _check_lists_of_unordered_pages [ [("title", PStr "A")] ]%string pages_api
  = ([], Raise (KeyError "pageid")).
Proof.
  split.
  - apply (proj1 (unordered_pages_missing_pageid pages_db [ [("title", PStr "A")] ]%string)).
    left. reflexivity.
  - apply (proj2 (unordered_pages_missing_pageid [ [("title", PStr "A")] ]%string pages_api)
             ltac:(left; reflexivity)
             [ [("pageid", PInt 1); ("title", PStr "A")];
               [("pageid", PInt 2); ("title", PStr "B")];
               [("pageid", PInt 3); ("title", PStr "Cc")] ]%string).
    vm_compute. reflexivity.
Defined.

Lemma deduplicate_keeps_one_of_each_witness :
  let out := [ [("prefix", PStr "w"); ("*", PStr "Bar")];
               [("prefix", PStr "w"); ("*", PStr "Foo")] ]%string in
  NoDup (items_key <$> out) /\
  (forall d, d ∈ links -> exists d', d' ∈ out /\ items_key d' = items_key d) /\
  (forall d', d' ∈ out -> d' ∈ links) /\
  (length out <= length links)%nat.
Proof.
  intros out.
  apply (deduplicate_keeps_one_of_each (@rev pydict) links out).
  - intros s. symmetry. apply Permutation_rev.
  - vm_compute. reflexivity.
Defined.

Lemma drop_automatic_categories_cleans_witness :
  let cleaned :=
    [ [("pageid", PInt 1);
       ("categories", PList [PDict [("ns", PInt 14); ("title", PStr "Category:Help")]])];
      [("pageid", PInt 2)];
      [("pageid", PInt 3)] ]%string in
  Forall2 (fun page page' =>
             (forall k, k <> "categories"%string -> dict_get k page' = dict_get k page) /\
             categories_cleaned page') categorized cleaned /\
  drop_automatic_categories cleaned = Ok cleaned.
Proof.
  intros cleaned.
  apply (drop_automatic_categories_cleans categorized cleaned).
  vm_compute. reflexivity.
Defined.

Lemma count_changes_counts_witness :
  let rcusers := [(KStr "Alice", 2); (KStr "Bob", 1)] in
  NoDup rcusers.*1 /\
  (forall user, user ∈ rcusers.*1 <-> changes_by user recent <> []) /\
  (forall user, default 0 (counts_get user rcusers)
                = Z.of_nat (length (changes_by user recent))).
Proof.
  intros rcusers.
  apply (count_changes_counts recent rcusers).
  vm_compute. reflexivity.
Defined.

Lemma update_recent_edit_counts_writes_counts_witness :
  let rcusers := [(KStr "Alice", 2); (KStr "Bob", 1)] in
  let data' :=
    [ [("name", PStr "Alice"); ("editcount", PInt 12); ("recenteditcount", PInt 2)];
      [("name", PStr "Carol"); ("editcount", PInt 3); ("recenteditcount", PInt 0)] ]%string in
  Forall2 (fun user user' =>
             (exists name k,
                dict_get "name" user = Some name /\ hash_key name = Ok k /\
                dict_get "recenteditcount" user'
                = Some (PInt (Z.of_nat (length (changes_by k recent))))) /\
             (forall field, field <> "recenteditcount"%string ->
                            dict_get field user' = dict_get field user))
          all_users data' /\
  _update_recent_edit_counts rcusers data' = (Ok tt, data').
Proof.
  intros rcusers data'.
  apply (update_recent_edit_counts_writes_counts recent rcusers all_users data').
  - vm_compute. reflexivity.
  - vm_compute. reflexivity.
Defined.

Lemma update_recent_edit_counts_stops_at_nameless_witness :
  _update_recent_edit_counts [(KStr "Alice", 2)]
    ([ [("name", PStr "Alice")] ]%string
     ++ [("userid", PInt 5)]%string :: [ [("name", PStr "Bob")] ]%string)
  = (Raise (KeyError "name"),
     [ [("name", PStr "Alice"); ("recenteditcount", PInt 2)] ]%string
     ++ [("userid", PInt 5)]%string :: [ [("name", PStr "Bob")] ]%string).
Proof.
  apply (update_recent_edit_counts_stops_at_nameless [(KStr "Alice", 2)]
           [ [("name", PStr "Alice")] ]%string
           [ [("name", PStr "Alice"); ("recenteditcount", PInt 2)] ]%string
           [ [("name", PStr "Bob")] ]%string
           [("userid", PInt 5)]%string).
  - constructor; [|constructor]. vm_compute. reflexivity.
  - reflexivity.
Defined.

Lemma squash_distinct_identities_witness :
  _squash_list_of_dicts [0; 1]%nat "pageid" partial_pages = Ok ([0; 1]%nat, partial_pages).
Proof.
  apply (squash_distinct_identities [0; 1]%nat "pageid" partial_pages [KInt 7; KInt 9]).
  - repeat constructor.
  - refine (bool_decide_unpack _ _). vm_compute. exact I.
Defined.

Lemma squash_record_without_key_witness :
  _squash_list_of_dicts ([0; 1] ++ 2 :: [])%nat "title" partial_pages
  = Raise (KeyError "title").
Proof.
  apply (squash_record_without_key [0; 1]%nat [] 2%nat "title" partial_pages
           [KStr "A"; KStr "B"]).
  - repeat constructor.
  - refine (bool_decide_unpack _ _). vm_compute. exact I.
  - refine (bool_decide_unpack _ _). vm_compute. exact I.
  - reflexivity.
Defined.

End grab_more_examples.

